(** * Attention layer graph builders of transformers-neuronx

    A shallow embedding of [src/transformers_neuronx/layers/attention.py]
    and the properties of its projection, cache update, score, mask and
    context stages.

    The Python functions build a static dataflow graph: every call of a
    scribe instruction ([dtype[sizes].Op(...)]) or of an [hlo] helper
    appends an instruction to the graph under construction and returns a
    handle on its result.  Here a handle is a [Tensor]: the element type
    and shape the instruction was declared with, together with the value
    the instruction denotes, as a function from indices to elements.
    Graph construction runs in the [Build] monad, which threads the list
    of emitted instructions and carries Python exceptions.

    The arithmetic of tensor elements is a parameter ([Elem]).  What is
    proved for every [Elem] holds of floating-point formats bit for bit;
    the comparison of the two context operations needs the laws of exact
    arithmetic ([ExactArith]), of which the reals extended with minus
    infinity are a model. *)

From Stdlib Require Import List ZArith Arith Bool String Lia.
From Stdlib Require Import DecimalString.
From Stdlib Require Import Reals Lra.
Import ListNotations.

Local Open Scope nat_scope.
Local Open Scope list_scope.

(** ** Element types and Python constants *)

Inductive DType := f32 | f16 | bf16 | s32 | pred.

(** The Python values that the source passes as [constant_value]:
    integers, [float('-inf')], and [d_head ** 0.5]. *)
Inductive PyNum :=
| PyInt (z : Z)
| PyNegInf
| PySqrt (n : nat).

(** Arithmetic of tensor elements, as performed by the instruction of a
    given element type.  The carrier is left open: a floating-point
    format with its rounding, or an exact field. *)
Class Elem (T : Type) := {
  econst : DType -> PyNum -> T;
  ecast : DType -> T -> T;
  eadd : DType -> T -> T -> T;
  esub : DType -> T -> T -> T;
  emul : DType -> T -> T -> T;
  ediv : DType -> T -> T -> T;
  emax : DType -> T -> T -> T;
  eexp : DType -> T -> T
}.

(** ** Tensor handles *)

Record Tensor (A : Type) := mkTensor {
  dtype : DType;
  sizes : list nat;
  elem : list nat -> A
}.
Arguments mkTensor {A} _ _ _.
Arguments dtype {A} _.
Arguments sizes {A} _.
Arguments elem {A} _ _.

(** ** The graph under construction *)

Inductive Op :=
| OpConstant (c : PyNum)
| OpBroadcast (dims : list nat)
| OpSelect
| OpReduce (to_apply : string) (dims : list nat)
| OpMaximum
| OpSubtract
| OpAdd
| OpDivide
| OpExp
| OpConvert
| OpTranspose (dims : list nat)
| OpReshape
| OpScatter (to_apply : string)
| OpDotGeneral
| OpSlice
| OpHlo (helper : string).

Record Instr := mkInstr {
  i_op : Op;
  i_dtype : DType;
  i_sizes : list nat
}.

Definition Graph := list Instr.

(** ** Python exceptions *)

Inductive Exn :=
| AssertionError (msg : string)
| NotImplementedError (msg : string)
| ValueError (msg : string)
| TypeError (msg : string)
| AttributeError (msg : string)
| ZeroDivisionError.

(** ** The builder monad

    A computation takes the graph built so far and returns either an
    exception or a value, together with the graph as it stands then:
    instructions emitted before an exception stay in the graph. *)

Definition Build (A : Type) := Graph -> (Exn + A) * Graph.

Definition ret {A} (a : A) : Build A := fun g => (inr a, g).

Definition bind {A B} (m : Build A) (k : A -> Build B) : Build B :=
  fun g => match m g with
           | (inl e, g') => (inl e, g')
           | (inr a, g') => k a g'
           end.

Definition raise {A} (e : Exn) : Build A := fun g => (inl e, g).

Definition emit (i : Instr) : Build unit := fun g => (inr tt, g ++ [i]).

Definition run {A} (m : Build A) (g : Graph) : (Exn + A) * Graph := m g.

Declare Scope build_scope.
Delimit Scope build_scope with build.
Notation "x <- m ;; k" := (bind m (fun x => k))
  (at level 61, m at next level, right associativity) : build_scope.
Notation "' p <- m ;; k" := (bind m (fun x => match x with p => k end))
  (at level 61, p pattern, m at next level, right associativity) : build_scope.
Notation "m ;;; k" := (bind m (fun _ => k))
  (at level 61, right associativity) : build_scope.
Local Open Scope build_scope.

(** [assert cond, msg] *)
Definition py_assert (cond : bool) (msg : string) : Build unit :=
  if cond then ret tt else raise (AssertionError msg).

(** [a // b] on non-negative integers *)
Definition floordiv (a b : nat) : Build nat :=
  match b with
  | 0 => raise ZeroDivisionError
  | _ => ret (a / b)
  end.

(** [a % b] on non-negative integers *)
Definition pymod (a b : nat) : Build nat :=
  match b with
  | 0 => raise ZeroDivisionError
  | _ => ret (a mod b)
  end.

(** [a, b, c = t]: unpacking a sequence of the wrong length raises. *)
Definition unpack2 (l : list nat) : Build (nat * nat) :=
  match l with
  | [a; b] => ret (a, b)
  | _ => raise (ValueError "unpack")
  end.

Definition unpack3 (l : list nat) : Build (nat * nat * nat) :=
  match l with
  | [a; b; c] => ret (a, b, c)
  | _ => raise (ValueError "unpack")
  end.

Definition unpack4 (l : list nat) : Build (nat * nat * nat * nat) :=
  match l with
  | [a; b; c; d] => ret (a, b, c, d)
  | _ => raise (ValueError "unpack")
  end.

(** [str(n)] and [str(sizes)] as they appear in f-strings. *)
Definition str_nat (n : nat) : string := NilZero.string_of_uint (Nat.to_uint n).

Fixpoint str_join (l : list nat) : string :=
  match l with
  | [] => ""
  | [n] => str_nat n
  | n :: l' => str_nat n ++ ", " ++ str_join l'
  end.

Definition str_sizes (l : list nat) : string := "[" ++ str_join l ++ "]".

(** ** Index arithmetic *)

(** Position of a dimension number in a dimension list. *)
Fixpoint index_of (d : nat) (l : list nat) : option nat :=
  match l with
  | [] => None
  | x :: l' => if Nat.eqb x d then Some 0
               else match index_of d l' with
                    | Some j => Some (S j)
                    | None => None
                    end
  end.

(** [idx] with [k] inserted as coordinate number [d]. *)
Definition insert_at (d k : nat) (idx : list nat) : list nat :=
  firstn d idx ++ k :: skipn d idx.

(** [idx] with coordinate [d] replaced through [f]. *)
Fixpoint update_at (d : nat) (f : nat -> nat) (idx : list nat) : list nat :=
  match idx, d with
  | [], _ => []
  | i :: idx', 0 => f i :: idx'
  | i :: idx', S d' => i :: update_at d' f idx'
  end.

(** Row-major offset of an index in a shape, and its inverse. *)
Fixpoint ravel_from (acc : nat) (shape idx : list nat) : nat :=
  match shape, idx with
  | s :: shape', i :: idx' => ravel_from (acc * s + i) shape' idx'
  | _, _ => acc
  end.

Definition ravel (shape idx : list nat) : nat := ravel_from 0 shape idx.

Fixpoint unravel_rev (rshape : list nat) (n : nat) : list nat :=
  match rshape with
  | [] => []
  | s :: rshape' => (n mod s) :: unravel_rev rshape' (n / s)
  end.

Definition unravel (shape : list nat) (n : nat) : list nat :=
  rev (unravel_rev (rev shape) n).

(** Python's negative dimension numbers count from the end. *)
Definition norm_dim (rank : nat) (d : Z) : nat :=
  if (d <? 0)%Z then Z.to_nat (Z.of_nat rank + d) else Z.to_nat d.

Section Builders.

Context {T : Type} `{ET : Elem T}.

(** ** Scribe instructions

    [dtype[sizes].Op(operands)] declares the element type and shape of
    the result; the value is the one the HLO instruction computes. *)

Definition Constant (dt : DType) (c : PyNum) : Build (Tensor T) :=
  emit (mkInstr (OpConstant c) dt []) ;;;
  ret (mkTensor dt [] (fun _ => econst dt c)).

(** Operand dimension [j] is output dimension [nth j dims]. *)
Definition Broadcast {A} (dt : DType) (szs : list nat) (x : Tensor A)
    (dims : list nat) : Build (Tensor A) :=
  emit (mkInstr (OpBroadcast dims) dt szs) ;;;
  ret (mkTensor dt szs (fun idx => elem x (map (fun d => nth d idx 0) dims))).

Definition Select {A} (dt : DType) (szs : list nat) (p : Tensor bool)
    (on_true on_false : Tensor A) : Build (Tensor A) :=
  emit (mkInstr OpSelect dt szs) ;;;
  ret (mkTensor dt szs
         (fun idx => if elem p idx then elem on_true idx else elem on_false idx)).

Definition Maximum (dt : DType) (szs : list nat) (x y : Tensor T) : Build (Tensor T) :=
  emit (mkInstr OpMaximum dt szs) ;;;
  ret (mkTensor dt szs (fun idx => emax dt (elem x idx) (elem y idx))).

Definition Subtract (dt : DType) (szs : list nat) (x y : Tensor T) : Build (Tensor T) :=
  emit (mkInstr OpSubtract dt szs) ;;;
  ret (mkTensor dt szs (fun idx => esub dt (elem x idx) (elem y idx))).

Definition Add (dt : DType) (szs : list nat) (x y : Tensor T) : Build (Tensor T) :=
  emit (mkInstr OpAdd dt szs) ;;;
  ret (mkTensor dt szs (fun idx => eadd dt (elem x idx) (elem y idx))).

Definition Divide (dt : DType) (szs : list nat) (x y : Tensor T) : Build (Tensor T) :=
  emit (mkInstr OpDivide dt szs) ;;;
  ret (mkTensor dt szs (fun idx => ediv dt (elem x idx) (elem y idx))).

Definition Exp (dt : DType) (szs : list nat) (x : Tensor T) : Build (Tensor T) :=
  emit (mkInstr OpExp dt szs) ;;;
  ret (mkTensor dt szs (fun idx => eexp dt (elem x idx))).

Definition Convert (dt : DType) (szs : list nat) (x : Tensor T) : Build (Tensor T) :=
  emit (mkInstr OpConvert dt szs) ;;;
  ret (mkTensor dt szs (fun idx => ecast dt (elem x idx))).

(** A sub-computation handed to [Reduce] or [Scatter] as [to_apply]. *)
Record Computation := mkComputation {
  comp_name : string;
  comp_fn : T -> T -> T
}.

(** The entries of [x] along dimension [d] at the remaining
    coordinates [idx], in index order. *)
Definition lane (x : Tensor T) (d : nat) (idx : list nat) : list T :=
  map (fun k => elem x (insert_at d k idx)) (seq 0 (nth d (sizes x) 0)).

(** [Reduce(x, init, dimensions=[d], to_apply=f)]: the source reduces
    over one dimension only. *)
Definition Reduce (dt : DType) (szs : list nat) (x init : Tensor T) (d : nat)
    (to_apply : Computation) : Build (Tensor T) :=
  emit (mkInstr (OpReduce (comp_name to_apply) [d]) dt szs) ;;;
  ret (mkTensor dt szs
         (fun idx => fold_left (comp_fn to_apply) (lane x d idx) (elem init []))).

(** Output dimension [i] is operand dimension [nth i dims]. *)
Definition Transpose {A} (dt : DType) (szs : list nat) (x : Tensor A)
    (dims : list nat) : Build (Tensor A) :=
  emit (mkInstr (OpTranspose dims) dt szs) ;;;
  ret (mkTensor dt szs
         (fun idx => elem x (map (fun j => match index_of j dims with
                                           | Some i => nth i idx 0
                                           | None => 0
                                           end)
                               (seq 0 (List.length dims))))).

(** Row-major reinterpretation of the operand under a new shape. *)
Definition Reshape {A} (dt : DType) (szs : list nat) (x : Tensor A) : Build (Tensor A) :=
  emit (mkInstr OpReshape dt szs) ;;;
  ret (mkTensor dt szs (fun idx => elem x (unravel (sizes x) (ravel szs idx)))).

End Builders.

(** ** Configuration *)

(** Modelled from the spec: the [constants] module, which is not among
    the sources.  The spec names two cache layouts, SBH and BSH. *)
Inductive Layout := LAYOUT_SBH | LAYOUT_BSH.

(** Modelled from the spec: [constants.GQA], not among the sources.
    The spec names a shard-over-head and a shard-over-batch mode. *)
Inductive GQA := SHARD_OVER_HEADS | SHARD_OVER_BATCH.

(** Modelled from the spec: [constants.FUSED_QKV_TP_FACTOR], not among
    the sources.  The fused product is cut into three equal chunks. *)
Definition FUSED_QKV_TP_FACTOR : nat := 3.

Record NeuronConfig := mkNeuronConfig {
  fuse_qkv : bool;
  cache_layout : Layout;
  group_query_attention : option GQA
}.

Definition layout_eqb (a b : Layout) : bool :=
  match a, b with
  | LAYOUT_SBH, LAYOUT_SBH | LAYOUT_BSH, LAYOUT_BSH => true
  | _, _ => false
  end.

Definition gqa_is (m : option GQA) (g : GQA) : bool :=
  match m, g with
  | Some SHARD_OVER_HEADS, SHARD_OVER_HEADS => true
  | Some SHARD_OVER_BATCH, SHARD_OVER_BATCH => true
  | _, _ => false
  end.

(** The two flags every stage reads off [neuron_config]:
    [(shard_over_batch, bsh_cache_layout)], both [False] without one. *)
Definition config_flags (neuron_config : option NeuronConfig) : bool * bool :=
  match neuron_config with
  | Some nc => (gqa_is (group_query_attention nc) SHARD_OVER_BATCH,
                layout_eqb (cache_layout nc) LAYOUT_BSH)
  | None => (false, false)
  end.

(** [dot_dimension_numbers] and [scatter_dimension_numbers] *)
Record DotDims := mkDotDims {
  lhs_contracting_dimensions : list nat;
  lhs_batch_dimensions : list nat;
  rhs_contracting_dimensions : list nat;
  rhs_batch_dimensions : list nat
}.

Record ScatterDims := mkScatterDims {
  update_window_dims : list nat;
  inserted_window_dims : list nat;
  scatter_dims_to_operand_dims : list nat;
  index_vector_dim : nat
}.

(** Collaborators whose results depend on what lies outside one
    shard's graph or outside the sources: the all-gather collective,
    the index helpers of [attention_utils] and the fused
    reshape-and-scatter primitive.  Their results are left open. *)
Class External (T : Type) := {
  ext_all_gather : Tensor T -> nat -> nat -> list nat -> T;
  ext_update_indices_decode :
    Tensor T -> Tensor Z -> option NeuronConfig -> Tensor Z;
  ext_update_indices_context :
    Tensor T -> Tensor Z -> option (Tensor Z) -> option NeuronConfig -> Tensor Z;
  ext_update_indices_speculative :
    Tensor T -> Tensor Z -> option (Tensor Z) -> option NeuronConfig -> Tensor Z;
  ext_reshape_and_cache :
    Tensor T -> Tensor T -> Tensor T -> Tensor T -> Tensor Z -> Tensor T * Tensor T
}.

Section Hlo.

Context {T : Type} `{ET : Elem T} `{XT : External T}.

(** ** The [hlo] helpers

    The [hlo] module is not among the sources.  Section 6 of the spec
    lists what it provides: constant and broadcast, reshape, transpose
    and slice, reduction with a custom combiner, batched contraction
    with explicit batch and contracting dimension lists, scatter with a
    custom combiner, all-gather, type-casting and softmax. *)

(** Modelled from the spec: [hlo.gen_max_func], the combiner of a
    maximum reduction. *)
Definition gen_max_func (dt : DType) : Computation (T := T) :=
  mkComputation "max" (emax dt).

(** Modelled from the spec: [hlo.gen_add_func], the combiner of a sum
    reduction. *)
Definition gen_add_func (dt : DType) : Computation (T := T) :=
  mkComputation "add" (eadd dt).

(** Modelled from the spec: [hlo.gen_assign_func], the overwrite
    combiner, new value replaces old, not summed. *)
Definition gen_assign_func (dt : DType) : Computation (T := T) :=
  mkComputation "assign" (fun _ new => new).

(** Modelled from the spec: [hlo.cast], type-casting. *)
Definition hlo_cast (x : Tensor T) (dt : DType) : Build (Tensor T) :=
  Convert dt (sizes x) x.

(** Modelled from the spec: [hlo.broadcast], a broadcast that keeps
    the operand's element type. *)
Definition hlo_broadcast {A} (x : Tensor A) (out_sizes : list nat)
    (broadcast_dimensions : list nat) : Build (Tensor A) :=
  Broadcast (dtype x) out_sizes x broadcast_dimensions.

(** Modelled from the spec: [hlo.reshape], a reshape that keeps the
    operand's element type. *)
Definition hlo_reshape {A} (x : Tensor A) (szs : list nat) : Build (Tensor A) :=
  Reshape (dtype x) szs x.

Definition swap_dims {A} (d0 d1 : nat) (l : list A) (dflt : A) : list A :=
  map (fun j => if Nat.eqb j d0 then nth d1 l dflt
                else if Nat.eqb j d1 then nth d0 l dflt
                else nth j l dflt)
      (seq 0 (List.length l)).

(** Modelled from the spec: [hlo.transpose(x, d0, d1)] exchanges two
    dimensions. *)
Definition hlo_transpose {A} (x : Tensor A) (d0 d1 : nat) : Build (Tensor A) :=
  emit (mkInstr (OpHlo "transpose") (dtype x) (swap_dims d0 d1 (sizes x) 0)) ;;;
  ret (mkTensor (dtype x) (swap_dims d0 d1 (sizes x) 0)
         (fun idx => elem x (swap_dims d0 d1 idx 0))).

(** Modelled from the spec: [hlo.transpose210(x)] reverses the three
    dimensions. *)
Definition hlo_transpose210 {A} (x : Tensor A) : Build (Tensor A) :=
  emit (mkInstr (OpHlo "transpose210") (dtype x) (rev (sizes x))) ;;;
  ret (mkTensor (dtype x) (rev (sizes x)) (fun idx => elem x (rev idx))).

(** Modelled from the spec: [hlo.slice_along(x, dim, limit, start)]
    keeps the coordinates [start .. limit-1] of one dimension. *)
Definition hlo_slice_along {A} (x : Tensor A) (dim : Z) (limit start : nat)
    : Build (Tensor A) :=
  let d := norm_dim (List.length (sizes x)) dim in
  let szs := update_at d (fun _ => limit - start) (sizes x) in
  emit (mkInstr OpSlice (dtype x) szs) ;;;
  ret (mkTensor (dtype x) szs
         (fun idx => elem x (update_at d (fun i => i + start) idx))).

(** Modelled from the spec: [hlo.dynamic_slice_along(x, dim, size,
    start)], the start being a scalar integer tensor. *)
Definition hlo_dynamic_slice_along {A} (x : Tensor A) (dim size : nat)
    (start : Tensor Z) : Build (Tensor A) :=
  let szs := update_at dim (fun _ => size) (sizes x) in
  emit (mkInstr (OpHlo "dynamic_slice_along") (dtype x) szs) ;;;
  ret (mkTensor (dtype x) szs
         (fun idx => elem x (update_at dim (fun i => i + Z.to_nat (elem start [])) idx))).

(** An integer constant, [s32.Constant(constant_value=z)]. *)
Definition ConstantZ (dt : DType) (z : Z) : Build (Tensor Z) :=
  emit (mkInstr (OpConstant (PyInt z)) dt []) ;;;
  ret (mkTensor dt [] (fun _ => z)).

(** Dimensions of an operand that are neither batch nor contracting. *)
Definition free_dims (rank : nat) (batch contract : list nat) : list nat :=
  filter (fun p => negb (existsb (Nat.eqb p) batch || existsb (Nat.eqb p) contract))
         (seq 0 rank).

(** The operand index made of batch, contracting and free coordinates. *)
Definition operand_index (rank : nat) (batch contract : list nat)
    (bvals kvals fvals : list nat) : list nat :=
  map (fun p =>
         match index_of p batch with
         | Some j => nth j bvals 0
         | None =>
           match index_of p contract with
           | Some j => nth j kvals 0
           | None =>
             match index_of p (free_dims rank batch contract) with
             | Some j => nth j fvals 0
             | None => 0
             end
           end
         end)
      (seq 0 rank).

(** Sum of [f] over all index vectors below [bounds], accumulated in
    index order from zero. *)
Fixpoint sum_over (dt : DType) (bounds : list nat) (f : list nat -> T) : T :=
  match bounds with
  | [] => f []
  | n :: bs =>
    fold_left (fun acc k => eadd dt acc (sum_over dt bs (fun ks => f (k :: ks))))
              (seq 0 n) (econst dt (PyInt 0))
  end.

(** Modelled from the spec: [hlo.dot_general], batched contraction
    with explicit batch and contracting dimension lists.  The result
    carries the batch dimensions, then the free dimensions of the left
    operand, then those of the right. *)
Definition hlo_dot_general (lhs rhs : Tensor T) (dimension_numbers : DotDims)
    : Build (Tensor T) :=
  let dt := dtype lhs in
  let lb := lhs_batch_dimensions dimension_numbers in
  let lc := lhs_contracting_dimensions dimension_numbers in
  let rb := rhs_batch_dimensions dimension_numbers in
  let rc := rhs_contracting_dimensions dimension_numbers in
  let rl := List.length (sizes lhs) in
  let rr := List.length (sizes rhs) in
  let lf := free_dims rl lb lc in
  let rf := free_dims rr rb rc in
  let nb := List.length lb in
  let nlf := List.length lf in
  let szs := map (fun d => nth d (sizes lhs) 0) lb
             ++ map (fun d => nth d (sizes lhs) 0) lf
             ++ map (fun d => nth d (sizes rhs) 0) rf in
  emit (mkInstr OpDotGeneral dt szs) ;;;
  ret (mkTensor dt szs
         (fun idx =>
            sum_over dt (map (fun d => nth d (sizes lhs) 0) lc)
              (fun ks =>
                 emul dt
                   (elem lhs (operand_index rl lb lc (firstn nb idx) ks
                                (firstn nlf (skipn nb idx))))
                   (elem rhs (operand_index rr rb rc (firstn nb idx) ks
                                (skipn (nb + nlf) idx)))))).

(** Modelled from the spec: the entries of [hlo.dot00_add1(lhs, rhs,
    bias, scales)], a weighted sum plus bias.  Dimension 0 of both
    operands is contracted; the optional dequantisation scale and the
    optional bias run along dimension 1 of the result. *)
Definition dot00_add1_elem (lhs rhs : Tensor T) (bias scales : option (Tensor T))
    (idx : list nat) : T :=
  let dt := dtype lhs in
  let n := nth 0 idx 0 in
  let j := nth 1 idx 0 in
  let dot := sum_over dt [nth 0 (sizes lhs) 0]
               (fun ks => emul dt (elem lhs [nth 0 ks 0; n])
                                  (elem rhs [nth 0 ks 0; j])) in
  let scaled := match scales with
                | Some s => emul dt dot (elem s [j])
                | None => dot
                end in
  match bias with
  | Some b => eadd dt scaled (elem b [j])
  | None => scaled
  end.

(** Modelled from the spec: [hlo.dot00_add1]. *)
Definition hlo_dot00_add1 (lhs rhs : Tensor T) (bias scales : option (Tensor T))
    (neuron_config : option NeuronConfig) : Build (Tensor T) :=
  let dt := dtype lhs in
  let szs := [nth 1 (sizes lhs) 0; nth 1 (sizes rhs) 0] in
  emit (mkInstr (OpHlo "dot00_add1") dt szs) ;;;
  ret (mkTensor dt szs (dot00_add1_elem lhs rhs bias scales)).

(** Modelled from the spec: [hlo.repeat_kv(x, n_repeats, repeat_dim)].
    Every key/value head appears in [n_repeats] consecutive head
    slots. *)
Definition hlo_repeat_kv (x : Tensor T) (n_repeats repeat_dim : nat)
    : Build (Tensor T) :=
  let szs := update_at repeat_dim (fun s => s * n_repeats) (sizes x) in
  emit (mkInstr (OpHlo "repeat_kv") (dtype x) szs) ;;;
  ret (mkTensor (dtype x) szs
         (fun idx => elem x (update_at repeat_dim (fun h => h / n_repeats) idx))).

(** Modelled from the spec: [hlo.all_gather(x, dim, tp_degree)], the
    shards' tensors concatenated along [dim]; what the other shards
    hold is not known to this graph. *)
Definition hlo_all_gather (x : Tensor T) (dim tp_degree : nat) : Build (Tensor T) :=
  let szs := update_at dim (fun s => s * tp_degree) (sizes x) in
  emit (mkInstr (OpHlo "all_gather") (dtype x) szs) ;;;
  ret (mkTensor (dtype x) szs (ext_all_gather x dim tp_degree)).

(** Modelled from the spec: [hlo.softmax(logits)] over the last
    dimension, a single pass of max, subtract, exp, normalise. *)
Definition hlo_softmax (logits : Tensor T) : Build (Tensor T) :=
  let dt := dtype logits in
  let szs := sizes logits in
  let d := List.length szs - 1 in
  let reduce_sizes := removelast szs in
  let br_dims := seq 0 d in
  minus_inf <- Constant dt PyNegInf ;;
  reduce_max <- Reduce dt reduce_sizes logits minus_inf d (gen_max_func dt) ;;
  reduce_max_br <- Broadcast dt szs reduce_max br_dims ;;
  shifted <- Subtract dt szs logits reduce_max_br ;;
  exp <- Exp dt szs shifted ;;
  zero <- Constant dt (PyInt 0) ;;
  denom <- Reduce dt reduce_sizes exp zero d (gen_add_func dt) ;;
  denom_br <- Broadcast dt szs denom br_dims ;;
  Divide dt szs exp denom_br.

(** The index of scatter number [i]: a scalar when [index_vector_dim]
    is the rank of the index tensor, else the single component of the
    index vector. *)
Definition scatter_index (indices : Tensor Z) (dims : ScatterDims) (i : nat) : Z :=
  if Nat.eqb (index_vector_dim dims) (List.length (sizes indices))
  then elem indices [i]
  else elem indices (insert_at (index_vector_dim dims) 0 [i]).

(** The value of a scatter whose windows are whole slices of operand
    dimension 0, the only kind the source issues: the updates are
    applied in index order through [to_apply]. *)
Definition scatter_elem (operand : Tensor T) (indices : Tensor Z)
    (updates : Tensor T) (dims : ScatterDims) (to_apply : Computation (T := T))
    (idx : list nat) : T :=
  match idx with
  | [] => elem operand []
  | r :: w =>
    fold_left (fun acc i =>
                 if Z.eqb (scatter_index indices dims i) (Z.of_nat r)
                 then comp_fn to_apply acc (elem updates (i :: w))
                 else acc)
              (seq 0 (nth 0 (sizes updates) 0))
              (elem operand (r :: w))
  end.

Definition Scatter (dt : DType) (szs : list nat) (operand : Tensor T)
    (indices : Tensor Z) (updates : Tensor T)
    (scatter_dimension_numbers : ScatterDims) (to_apply : Computation (T := T))
    : Build (Tensor T) :=
  emit (mkInstr (OpScatter (comp_name to_apply)) dt szs) ;;;
  ret (mkTensor dt szs
         (scatter_elem operand indices updates scatter_dimension_numbers to_apply)).

(** Modelled from the spec: [hlo.scatter], a scatter that keeps the
    operand's element type and shape. *)
Definition hlo_scatter (operand : Tensor T) (indices : Tensor Z) (updates : Tensor T)
    (scatter_dims : ScatterDims) (to_apply : Computation (T := T)) : Build (Tensor T) :=
  Scatter (dtype operand) (sizes operand) operand indices updates scatter_dims to_apply.

End Hlo.

Section Attention.

Context {T : Type} `{ET : Elem T} `{XT : External T}.

(** ** [query_key_value] *)

(** Attribute access on an optional tensor: [None.sizes] raises. *)
Definition sizes_of (x : option (Tensor T)) : Build (list nat) :=
  match x with
  | Some t => ret (sizes t)
  | None => raise (AttributeError "'NoneType' object has no attribute 'sizes'")
  end.

(** An optional weight handed to an [hlo] helper, which reads its
    sizes. *)
Definition require_tensor (x : option (Tensor T)) : Build (Tensor T) :=
  match x with
  | Some t => ret t
  | None => raise (AttributeError "'NoneType' object has no attribute 'sizes'")
  end.

(** [tp_degree] where an integer is needed. *)
Definition require_int (x : option nat) : Build nat :=
  match x with
  | Some n => ret n
  | None => raise (TypeError "unsupported operand type(s): 'int' and 'NoneType'")
  end.

(** The three projections (lines 45-78): the tensors [active_q],
    [active_k], [active_v] before they are given their per-head shape,
    with the sizes computed on the way. *)
Definition qkv_project
    (hidden : Tensor T)
    (q_weight : Tensor T) (q_scales q_bias : option (Tensor T))
    (k_weight k_scales k_bias : option (Tensor T))
    (v_weight v_scales v_bias : option (Tensor T))
    (d_head : nat) (neuron_config : option NeuronConfig)
    : Build (Tensor T * Tensor T * Tensor T * (nat * nat * nat * nat * nat)) :=
  ' (n_seqs, n_active_tokens, hidden_size) <- unpack3 (sizes hidden) ;;
  hidden <- hlo_transpose210 hidden ;;
  ' (hidden_size, hidden_size_tp) <- unpack2 (sizes q_weight) ;;
  let fuse_qkv := match neuron_config with
                  | Some nc => fuse_qkv nc
                  | None => false
                  end in
  ' (hidden_size_tp, kv_hidden_size_tp) <-
      (if fuse_qkv then
         hidden_size_tp <- floordiv hidden_size_tp FUSED_QKV_TP_FACTOR ;;
         ret (hidden_size_tp, hidden_size_tp)
       else
         k_sizes <- sizes_of k_weight ;;
         ' (_, kv_hidden_size_tp) <- unpack2 k_sizes ;;
         ret (hidden_size_tp, kv_hidden_size_tp)) ;;
  n_heads_tp <- floordiv hidden_size_tp d_head ;;
  let hidden_r_sizes := [hidden_size; n_active_tokens * n_seqs] in
  hidden_r <- hlo_reshape hidden hidden_r_sizes ;;
  ' (active_q, active_k, active_v) <-
      (if fuse_qkv then
         active_qkv <- hlo_dot00_add1 hidden_r q_weight q_bias q_scales neuron_config ;;
         slice_lim <- floordiv (last (sizes active_qkv) 0) FUSED_QKV_TP_FACTOR ;;
         active_q <- hlo_slice_along active_qkv (-1) slice_lim 0 ;;
         active_k <- hlo_slice_along active_qkv (-1) (2 * slice_lim) slice_lim ;;
         active_v <- hlo_slice_along active_qkv (-1) (3 * slice_lim) (2 * slice_lim) ;;
         ret (active_q, active_k, active_v)
       else
         active_q <- hlo_dot00_add1 hidden_r q_weight q_bias q_scales neuron_config ;;
         k_weight <- require_tensor k_weight ;;
         active_k <- hlo_dot00_add1 hidden_r k_weight k_bias k_scales neuron_config ;;
         v_weight <- require_tensor v_weight ;;
         active_v <- hlo_dot00_add1 hidden_r v_weight v_bias v_scales neuron_config ;;
         ret (active_q, active_k, active_v)) ;;
  ret (active_q, active_k, active_v,
       (n_seqs, n_active_tokens, hidden_size_tp, kv_hidden_size_tp, n_heads_tp)).

Definition query_key_value
    (hidden : Tensor T)
    (q_weight : Tensor T) (q_scales q_bias : option (Tensor T))
    (k_weight k_scales k_bias : option (Tensor T))
    (v_weight v_scales v_bias : option (Tensor T))
    (d_head : nat) (tp_degree : option nat) (neuron_config : option NeuronConfig)
    (shard_over_batch : bool) (n_head : option nat) (n_kv_head : nat)
    : Build (Tensor T * Tensor T * Tensor T) :=
  let n_kv_head := if 0 <? n_kv_head then Some n_kv_head else n_head in
  ' (active_q, active_k, active_v,
     (n_seqs, n_active_tokens, hidden_size_tp, kv_hidden_size_tp, n_heads_tp)) <-
      qkv_project hidden q_weight q_scales q_bias k_weight k_scales k_bias
                  v_weight v_scales v_bias d_head neuron_config ;;
  if shard_over_batch then
    zero <- ConstantZ s32 0 ;;
    n_head <- match n_head with
              | Some n => ret n
              | None => raise (AssertionError "invalid n_head (None)")
              end ;;
    tp_degree <- floordiv n_head n_heads_tp ;;
    full_q <- hlo_all_gather active_q 1 tp_degree ;;
    full_k <- hlo_all_gather active_k 1 tp_degree ;;
    full_v <- hlo_all_gather active_v 1 tp_degree ;;
    n_seqs_per_nc <- floordiv n_seqs tp_degree ;;
    let slice_limit := n_active_tokens * n_seqs_per_nc in
    active_q <- hlo_dynamic_slice_along full_q 0 slice_limit zero ;;
    active_k <- hlo_dynamic_slice_along full_k 0 slice_limit zero ;;
    active_v <- hlo_dynamic_slice_along full_v 0 slice_limit zero ;;
    n_kv_head <- require_int n_kv_head ;;
    let active_q_sizes := [n_active_tokens; n_seqs_per_nc; n_head; d_head] in
    let active_kv_sizes := [n_active_tokens; n_seqs_per_nc; n_kv_head; d_head] in
    active_q <- hlo_reshape active_q active_q_sizes ;;
    active_k <- hlo_reshape active_k active_kv_sizes ;;
    active_v <- hlo_reshape active_v active_kv_sizes ;;
    ret (active_q, active_k, active_v)
  else
    n_repeats <- floordiv hidden_size_tp kv_hidden_size_tp ;;
    rem <- (if n_repeats <=? n_heads_tp then pymod n_heads_tp n_repeats else ret 1) ;;
    py_assert ((n_repeats <=? n_heads_tp) && (rem =? 0))
      ("invalid configuration in n_heads_tp (" ++ str_nat n_heads_tp
       ++ ") and n_repeats (" ++ str_nat n_repeats ++ ")") ;;;
    n_kv_heads_tp <- floordiv n_heads_tp n_repeats ;;
    let active_q_sizes := [n_active_tokens; n_seqs; n_heads_tp; d_head] in
    let active_kv_sizes := [n_active_tokens; n_seqs; n_kv_heads_tp; d_head] in
    active_q <- hlo_reshape active_q active_q_sizes ;;
    active_k <- hlo_reshape active_k active_kv_sizes ;;
    active_v <- hlo_reshape active_v active_kv_sizes ;;
    ret (active_q, active_k, active_v).

(** ** [update_cache] and [fused_kv_update_cache] *)

Definition update_cache (cache : Tensor T) (cache_ids : Tensor Z) (values : Tensor T)
    : Build (Tensor T) :=
  let dtype_ := dtype values in
  let cache_size := sizes cache in
  let scatter_dims := mkScatterDims [1; 2; 3] [0] [0] 1 in
  let assign_func := gen_assign_func dtype_ in
  Scatter dtype_ cache_size cache cache_ids values scatter_dims assign_func.

(** Modelled from the spec: [attention_utils.update_indices_decode],
    externally supplied; it returns flat scatter indices. *)
Definition update_indices_decode (cached_keys : Tensor T) (cache_ids : Tensor Z)
    (neuron_config : option NeuronConfig) : Build (Tensor Z) :=
  let r := ext_update_indices_decode cached_keys cache_ids neuron_config in
  emit (mkInstr (OpHlo "update_indices_decode") (dtype r) (sizes r)) ;;; ret r.

(** Modelled from the spec: [attention_utils.update_indices_context],
    externally supplied; it returns flat scatter indices. *)
Definition update_indices_context (cached_keys : Tensor T) (cache_ids : Tensor Z)
    (start_ids : option (Tensor Z)) (neuron_config : option NeuronConfig)
    : Build (Tensor Z) :=
  let r := ext_update_indices_context cached_keys cache_ids start_ids neuron_config in
  emit (mkInstr (OpHlo "update_indices_context") (dtype r) (sizes r)) ;;; ret r.

(** Modelled from the spec: [attention_utils.update_indices_speculative],
    externally supplied; it returns flat scatter indices. *)
Definition update_indices_speculative (cached_keys : Tensor T) (cache_ids : Tensor Z)
    (start_ids : option (Tensor Z)) (neuron_config : option NeuronConfig)
    : Build (Tensor Z) :=
  let r := ext_update_indices_speculative cached_keys cache_ids start_ids neuron_config in
  emit (mkInstr (OpHlo "update_indices_speculative") (dtype r) (sizes r)) ;;; ret r.

(** Modelled from the spec: [hlo.reshape_and_cache], the fused
    reshape-and-scatter primitive. *)
Definition hlo_reshape_and_cache (keys_r vals_r cached_keys cached_vals : Tensor T)
    (indices : Tensor Z) : Build (Tensor T * Tensor T) :=
  let r := ext_reshape_and_cache keys_r vals_r cached_keys cached_vals indices in
  emit (mkInstr (OpHlo "reshape_and_cache") (dtype (fst r)) (sizes (fst r))) ;;; ret r.

(** The message of the final [raise] of [fused_kv_update_cache]. *)
Definition not_implemented_msg (n_active_tokens n_positions n_seqs n_active_seqs : nat)
    : string :=
  "Updating 2D cache_ids is not implemented for "
  ++ "n_active_tokens=" ++ str_nat n_active_tokens
  ++ ", n_positions=" ++ str_nat n_positions ++ ", "
  ++ "n_seqs=" ++ str_nat n_seqs
  ++ ", n_active_seqs=" ++ str_nat n_active_seqs ++ ".".

Definition fused_kv_update_cache (cached_keys cached_vals : Tensor T)
    (cache_ids : Tensor Z) (keys vals : Tensor T) (start_ids : option (Tensor Z))
    (neuron_config : option NeuronConfig) : Build (Tensor T * Tensor T) :=
  let bsh_cache_layout := match neuron_config with
                          | Some nc => layout_eqb (cache_layout nc) LAYOUT_BSH
                          | None => false
                          end in
  let dtype_ := dtype cached_keys in
  let use_2d_cache_ids := 1 <? List.length (sizes cache_ids) in
  if negb use_2d_cache_ids then
    updated_keys <- update_cache cached_keys cache_ids keys ;;
    updated_vals <- update_cache cached_vals cache_ids vals ;;
    ret (updated_keys, updated_vals)
  else
    cache_ids <- hlo_transpose cache_ids 0 1 ;;
    let assign_func := gen_assign_func dtype_ in
    ' (n_positions, n_seqs, n_kv_heads, d_head, n_active_tokens, n_active_seqs) <-
        (if bsh_cache_layout then
           ' (n_seqs, n_positions, n_kv_heads, d_head) <- unpack4 (sizes cached_keys) ;;
           ' (n_active_seqs, n_active_tokens, _, _) <- unpack4 (sizes keys) ;;
           ret (n_positions, n_seqs, n_kv_heads, d_head, n_active_tokens, n_active_seqs)
         else
           ' (n_positions, n_seqs, n_kv_heads, d_head) <- unpack4 (sizes cached_keys) ;;
           ' (n_active_tokens, n_active_seqs, _, _) <- unpack4 (sizes keys) ;;
           ret (n_positions, n_seqs, n_kv_heads, d_head, n_active_tokens, n_active_seqs)) ;;
    py_assert (nth 0 (sizes cache_ids) 0 =? n_active_tokens)
      ("inconsistent sizes between cache_ids (" ++ str_sizes (sizes cache_ids)
       ++ ") and values (" ++ str_sizes (sizes keys) ++ ")") ;;;
    let kv_hidden_size := n_kv_heads * d_head in
    cached_keys_r <- hlo_reshape cached_keys [n_positions * n_seqs; kv_hidden_size] ;;
    cached_vals_r <- hlo_reshape cached_vals [n_positions * n_seqs; kv_hidden_size] ;;
    if (n_active_tokens =? 1) && (n_seqs =? n_active_seqs) then
      keys_r <- hlo_reshape keys [n_seqs; kv_hidden_size] ;;
      vals_r <- hlo_reshape vals [n_seqs; kv_hidden_size] ;;
      indices <- update_indices_decode cached_keys cache_ids neuron_config ;;
      indices <- hlo_transpose indices 0 1 ;;
      let scatter_dims := mkScatterDims [1] [0] [0] 1 in
      updated_keys <- hlo_scatter cached_keys_r indices keys_r scatter_dims assign_func ;;
      updated_vals <- hlo_scatter cached_vals_r indices vals_r scatter_dims assign_func ;;
      ret (updated_keys, updated_vals)
    else if (n_active_tokens =? n_positions) && (n_active_seqs <? n_seqs) then
      keys_r <- hlo_reshape keys [n_active_tokens; kv_hidden_size] ;;
      vals_r <- hlo_reshape vals [n_active_tokens; kv_hidden_size] ;;
      indices <- update_indices_context cached_keys cache_ids start_ids neuron_config ;;
      py_assert (n_active_seqs =? 1)
        "n_active_seqs is expected to be 1 for 2D cache_ids" ;;;
      let scatter_dims := mkScatterDims [1] [0] [0] 1 in
      updated_keys <- hlo_scatter cached_keys_r indices keys_r scatter_dims assign_func ;;
      updated_vals <- hlo_scatter cached_vals_r indices vals_r scatter_dims assign_func ;;
      ret (updated_keys, updated_vals)
    else if (1 <? n_active_tokens) && (n_active_tokens <? n_positions) then
      ' (n_active_tokens, batch_size, n_head, d_head) <- unpack4 (sizes keys) ;;
      keys_r <- hlo_reshape keys [n_active_tokens * batch_size; n_head; d_head] ;;
      vals_r <- hlo_reshape vals [n_active_tokens * batch_size; n_head; d_head] ;;
      indices <- update_indices_speculative cached_keys cache_ids start_ids neuron_config ;;
      hlo_reshape_and_cache keys_r vals_r cached_keys cached_vals indices
    else
      raise (NotImplementedError
               (not_implemented_msg n_active_tokens n_positions n_seqs n_active_seqs)).

(** ** [scale], [score] and [mask] *)

Definition scale (query : Tensor T) (d_head : nat) : Build (Tensor T) :=
  let dtype_ := dtype query in
  scale <- Constant dtype_ (PySqrt d_head) ;;
  scale_br <- hlo_broadcast scale (sizes query) [] ;;
  Divide dtype_ (sizes query) query scale_br.

Definition score (query keys : Tensor T) (tp_degree : option nat) (n_kv_heads : nat)
    (neuron_config : option NeuronConfig) : Build (Tensor T) :=
  let '(shard_over_batch, bsh_cache_layout) := config_flags neuron_config in
  keys <- (if negb (n_kv_heads =? 0) then
             n_repeats <-
               (if shard_over_batch then
                  ' (n_active_tokens, n_seqs_per_nc, n_heads, _) <- unpack4 (sizes query) ;;
                  ' (n_positions, n_seqs_per_nc, n_kv_heads, _) <- unpack4 (sizes keys) ;;
                  floordiv n_heads n_kv_heads
                else
                  ' (n_active_tokens, n_seqs, n_heads_tp, _) <- unpack4 (sizes query) ;;
                  ' (n_positions, n_seqs, n_kv_heads_tp, _) <- unpack4 (sizes keys) ;;
                  floordiv n_heads_tp n_kv_heads_tp) ;;
             hlo_repeat_kv keys n_repeats 2
           else ret keys) ;;
  let batch_dimensions := if bsh_cache_layout then [0; 2] else [1; 2] in
  let dot_dims := mkDotDims [3] batch_dimensions [3] batch_dimensions in
  result_dot <- hlo_dot_general query keys dot_dims ;;
  ret result_dot.

(** The parameters after [mask] have defaults in the source:
    [tp_degree=None, shard_over_batch=False, constant_val=-30000]. *)
Definition mask (score : Tensor T) (mask : Tensor bool) (tp_degree : option nat)
    (shard_over_batch : bool) (constant_val : PyNum) : Build (Tensor T) :=
  let dtype_ := dtype score in
  let score_sizes := sizes score in
  const <- Constant dtype_ constant_val ;;
  const_br <- Broadcast dtype_ score_sizes const [] ;;
  mask_br <- (if List.length (sizes mask) =? 2
              then hlo_broadcast mask score_sizes [0; 3]
              else hlo_broadcast mask score_sizes [0; 2; 3]) ;;
  score <- Select dtype_ score_sizes mask_br score const_br ;;
  ret score.

Definition mask_default_constant_val : PyNum := PyInt (-30000).

(** ** [context] *)

Definition is_none {A} (x : option A) : bool :=
  match x with
  | None => true
  | Some _ => false
  end.

(** What the softmax part of [context] leaves behind. *)
Record SplitSoftmax := mkSplitSoftmax {
  ss_reduce_max : Tensor T;
  ss_exp : Tensor T;
  ss_active_exp : Tensor T;
  ss_denom_f32 : Tensor T;
  ss_past_prob : Tensor T;
  ss_active_prob : Tensor T
}.

(** Lines 398-428 of [context]: the shared maximum, the two
    exponentiated score tensors, their sparse masking, and the
    denominator. *)
Definition context_softmax (past_scores active_score : Tensor T) (dtype_ : DType)
    (sparse_mask active_sparse_mask : option (Tensor bool))
    (n_seqs n_heads_tp n_active_tokens : nat) (active_score_sizes : list nat)
    : Build SplitSoftmax :=
  past_scores <- hlo_cast past_scores f32 ;;
  active_score <- hlo_cast active_score f32 ;;
  let reduce_sizes := [n_seqs; n_heads_tp; n_active_tokens] in
  minus_inf <- Constant f32 PyNegInf ;;
  let max_func := gen_max_func f32 in
  reduce_max <- Reduce f32 reduce_sizes past_scores minus_inf 3 max_func ;;
  active_reduce_max <- Reduce f32 reduce_sizes active_score minus_inf 3 max_func ;;
  reduce_max <- Maximum f32 reduce_sizes reduce_max active_reduce_max ;;
  reduce_max_br <- Broadcast f32 (sizes past_scores) reduce_max [0; 1; 2] ;;
  score_shifted <- Subtract f32 (sizes past_scores) past_scores reduce_max_br ;;
  exp <- Exp f32 (sizes past_scores) score_shifted ;;
  exp <- match sparse_mask with
         | Some sparse_mask =>
           mask exp sparse_mask (Some 0) false mask_default_constant_val
         | None => ret exp
         end ;;
  zero <- Constant f32 (PyInt 0) ;;
  let add_func := gen_add_func f32 in
  denom <- Reduce f32 reduce_sizes exp zero 3 add_func ;;
  past_prob <- Convert dtype_ (sizes exp) exp ;;
  reduce_max_bra <- Broadcast f32 active_score_sizes reduce_max [0; 1; 2] ;;
  active_score_shifted <- Subtract f32 active_score_sizes active_score reduce_max_bra ;;
  active_prob <- Exp f32 active_score_sizes active_score_shifted ;;
  active_prob <- match active_sparse_mask with
                 | Some active_sparse_mask =>
                   mask active_prob active_sparse_mask (Some 0) false
                        mask_default_constant_val
                 | None => ret active_prob
                 end ;;
  active_denom <- Reduce f32 reduce_sizes active_prob zero 3 add_func ;;
  denom <- Add f32 reduce_sizes denom active_denom ;;
  active_prob_c <- Convert dtype_ (sizes active_prob) active_prob ;;
  ret (mkSplitSoftmax reduce_max exp active_prob denom past_prob active_prob_c).

Definition context (past_scores active_score past_values active_values : Tensor T)
    (n_kv_heads : nat) (dtype_ : option DType)
    (sparse_mask active_sparse_mask : option (Tensor bool))
    (neuron_config : option NeuronConfig) (tp_degree : option nat)
    : Build (Tensor T) :=
  let '(shard_over_batch, bsh_cache_layout) := config_flags neuron_config in
  py_assert (Bool.eqb (is_none sparse_mask) (is_none active_sparse_mask))
    "Both sparse masks must be valid to use sparse attention!" ;;;
  let dtype_ := match dtype_ with
                | None => dtype active_score
                | Some dt => dt
                end in
  let active_score_sizes := sizes active_score in
  ' (n_seqs, n_heads_tp, _, n_active_tokens) <- unpack4 active_score_sizes ;;
  ' (n_seqs, n_heads_tp, n_active_tokens, n_positions) <- unpack4 (sizes past_scores) ;;
  ' (n_positions, n_seqs, n_kv_heads_tp, d_head) <-
      (if bsh_cache_layout then
         ' (n_seqs, n_positions, n_kv_heads_tp, d_head) <- unpack4 (sizes past_values) ;;
         ret (n_positions, n_seqs, n_kv_heads_tp, d_head)
       else
         unpack4 (sizes past_values)) ;;
  ss <- context_softmax past_scores active_score dtype_ sparse_mask active_sparse_mask
                        n_seqs n_heads_tp n_active_tokens active_score_sizes ;;
  let past_prob := ss_past_prob ss in
  let active_prob := ss_active_prob ss in
  let denom := ss_denom_f32 ss in
  let szs := [n_seqs; n_heads_tp; n_active_tokens; d_head] in
  denom <- Convert dtype_ (sizes denom) denom ;;
  ' (past_values, active_values) <-
      (if negb (n_kv_heads =? 0) then
         n_repeats <- floordiv n_heads_tp n_kv_heads_tp ;;
         past_values <- hlo_repeat_kv past_values n_repeats 2 ;;
         active_values <- hlo_repeat_kv active_values n_repeats 2 ;;
         ret (past_values, active_values)
       else ret (past_values, active_values)) ;;
  let rhs_contracting_dimensions := if bsh_cache_layout then [1] else [0] in
  let rhs_batch_dimensions := if bsh_cache_layout then [0; 2] else [1; 2] in
  let dot_dims := mkDotDims [3] [0; 1] rhs_contracting_dimensions rhs_batch_dimensions in
  output <- hlo_dot_general past_prob past_values dot_dims ;;
  active_output <- hlo_dot_general active_prob active_values dot_dims ;;
  output <- Add dtype_ szs output active_output ;;
  denom_br <- Broadcast dtype_ szs denom [0; 1; 2] ;;
  output <- Divide dtype_ szs output denom_br ;;
  let szs := [n_seqs; n_active_tokens; n_heads_tp; d_head] in
  output <- Transpose dtype_ szs output [0; 2; 1; 3] ;;
  ret output.

(** ** [context_combined] *)

Definition context_combined (score values : Tensor T) (tp_degree : option nat)
    (n_kv_heads : nat) (dtype_ : option DType) (sparse_mask : option (Tensor bool))
    (neuron_config : option NeuronConfig) : Build (Tensor T) :=
  let '(shard_over_batch, bsh_cache_layout) := config_flags neuron_config in
  probs <- hlo_softmax score ;;
  probs <- match sparse_mask with
           | Some sparse_mask => mask probs sparse_mask None false (PyInt 0)
           | None => ret probs
           end ;;
  ' (n_seqs, n_heads_tp, n_active_tokens, n_positions) <- unpack4 (sizes probs) ;;
  ' (n_seqs, n_kv_heads_tp, d_head) <-
      (if bsh_cache_layout then
         ' (n_seqs, _, n_kv_heads_tp, d_head) <- unpack4 (sizes values) ;;
         ret (n_seqs, n_kv_heads_tp, d_head)
       else
         ' (_, n_seqs, n_kv_heads_tp, d_head) <- unpack4 (sizes values) ;;
         ret (n_seqs, n_kv_heads_tp, d_head)) ;;
  let dtype_ := match dtype_ with
                | None => dtype values
                | Some dt => dt
                end in
  probs <- hlo_cast probs dtype_ ;;
  values <- (if negb (n_kv_heads =? 0) then
               n_repeats <- floordiv n_heads_tp n_kv_heads_tp ;;
               hlo_repeat_kv values n_repeats 2
             else ret values) ;;
  let rhs_contracting_dimensions := if bsh_cache_layout then [1] else [0] in
  let rhs_batch_dimensions := if bsh_cache_layout then [0; 2] else [1; 2] in
  let dot_dims := mkDotDims [3] [0; 1] rhs_contracting_dimensions rhs_batch_dimensions in
  result <- hlo_dot_general probs values dot_dims ;;
  ' (result, n_seqs, n_heads_tp) <-
      (if negb (n_kv_heads =? 0) then
         if shard_over_batch then
           zero <- ConstantZ s32 0 ;;
           let n_seqs_per_nc := n_seqs in
           let n_heads := n_heads_tp in
           let result_sizes := [n_seqs_per_nc; n_heads; n_active_tokens; d_head] in
           result <- hlo_reshape result result_sizes ;;
           tp <- require_int tp_degree ;;
           slice_size <- floordiv n_heads tp ;;
           full_result <- hlo_all_gather result 0 tp ;;
           result <- hlo_dynamic_slice_along full_result 1 slice_size zero ;;
           let n_seqs := n_seqs_per_nc * tp in
           n_heads_tp <- floordiv n_heads tp ;;
           ret (result, n_seqs, n_heads_tp)
         else
           let result_sizes := [n_seqs; n_heads_tp; n_active_tokens; d_head] in
           result <- hlo_reshape result result_sizes ;;
           ret (result, n_seqs, n_heads_tp)
       else ret (result, n_seqs, n_heads_tp)) ;;
  let szs := [n_seqs; n_active_tokens; n_heads_tp; d_head] in
  result <- Transpose dtype_ szs result [0; 2; 1; 3] ;;
  ret result.

End Attention.

(** ** Exact arithmetic

    The laws under which the two context operations can be compared:
    conversions between element types lose nothing, every element type
    computes the same operation as f32, and the operations obey the
    laws of sums, maxima and quotients that floating-point formats only
    approximate. *)

Class ExactArith (T : Type) `{ET : Elem T} := {
  cast_exact : forall dt, ecast dt = fun x => x;
  const_indep : forall dt, econst dt = econst f32;
  add_indep : forall dt, eadd dt = eadd f32;
  sub_indep : forall dt, esub dt = esub f32;
  mul_indep : forall dt, emul dt = emul f32;
  div_indep : forall dt, ediv dt = ediv f32;
  max_indep : forall dt, emax dt = emax f32;
  exp_indep : forall dt, eexp dt = eexp f32;
  add_assoc : forall x y z,
    eadd f32 x (eadd f32 y z) = eadd f32 (eadd f32 x y) z;
  add_zero_l : forall x, eadd f32 (econst f32 (PyInt 0)) x = x;
  add_zero_r : forall x, eadd f32 x (econst f32 (PyInt 0)) = x;
  max_assoc : forall x y z,
    emax f32 x (emax f32 y z) = emax f32 (emax f32 x y) z;
  max_comm : forall x y, emax f32 x y = emax f32 y x;
  max_idem : forall x, emax f32 x x = x;
  div_add_distr : forall x y d,
    ediv f32 (eadd f32 x y) d = eadd f32 (ediv f32 x d) (ediv f32 y d);
  mul_div_l : forall a d v,
    emul f32 (ediv f32 a d) v = ediv f32 (emul f32 a v) d;
  div_zero_l : forall d,
    ediv f32 (econst f32 (PyInt 0)) d = econst f32 (PyInt 0)
}.

(** * What the properties are stated with *)

(** No instruction of the graph divides or introduces a constant. *)
Definition no_scaling (g : Graph) : Prop :=
  forall i, In i g ->
    i_op i <> OpDivide /\ forall c, i_op i <> OpConstant c.

(** The cache layout flag as [fused_kv_update_cache] reads it. *)
Definition bsh_layout (neuron_config : option NeuronConfig) : bool :=
  snd (config_flags neuron_config).

(** A construction that fails with nothing emitted. *)
Definition rejected_before_any_op {A} (m : Build A) : Prop :=
  exists e, run m [] = (inl e, []).

Definition fused (neuron_config : option NeuronConfig) : bool :=
  match neuron_config with
  | Some nc => fuse_qkv nc
  | None => false
  end.

(** The graph holds a reshape. *)
Definition emits_reshape (g : Graph) : Prop :=
  exists i, In i g /\ i_op i = OpReshape.

(** Where a value tensor keeps position [k] of sequence [b], head [h]. *)
Definition value_index (bsh : bool) (k b h d : nat) : list nat :=
  if bsh then [b; k; h; d] else [k; b; h; d].

Definition value_sizes (bsh : bool) (n_positions n_seqs n_kv_heads d_head : nat)
    : list nat :=
  if bsh then [n_seqs; n_positions; n_kv_heads; d_head]
  else [n_positions; n_seqs; n_kv_heads; d_head].

(** The entry of a sparse mask that governs position [[b; h; i; k]] of
    a score tensor. *)
Definition sparse_mask_at (m : Tensor bool) (b i k : nat) : bool :=
  if List.length (sizes m) =? 2 then elem m [b; k] else elem m [b; i; k].

Section Specs.

Context {T : Type} `{ET : Elem T}.

(** The raw dot product of a query row and a key row. *)
Definition dot_qk (dt : DType) (d_head : nat) (q k : nat -> T) : T :=
  fold_left (fun acc c => eadd dt acc (emul dt (q c) (k c)))
            (seq 0 d_head) (econst dt (PyInt 0)).

(** A reduction of the row [row 0 .. row (n-1)] from [init]. *)
Definition row_fold (f : T -> T -> T) (init : T) (n : nat) (row : nat -> T) : T :=
  fold_left f (map row (seq 0 n)) init.

(** The constant that [context] subtracts from the scores of sequence
    [b], head [h] and active token [i]: the larger of the two row
    maxima of the upcast scores. *)
Definition shared_max (past_scores active_score : Tensor T) (b h i : nat) : T :=
  emax f32
    (row_fold (emax f32) (econst f32 PyNegInf) (nth 3 (sizes past_scores) 0)
       (fun k => ecast f32 (elem past_scores [b; h; i; k])))
    (row_fold (emax f32) (econst f32 PyNegInf) (nth 3 (sizes active_score) 0)
       (fun k => ecast f32 (elem active_score [b; h; i; k]))).

(** [updated] is [cache] with the slices of [values] written at the
    positions [ids], the last write to a position winning. *)
Definition overwritten (cache : Tensor T) (ids : Tensor Z) (values updated : Tensor T)
    : Prop :=
  let n := nth 0 (sizes values) 0 in
  forall p w,
    ((forall i, i < n -> elem ids [i] <> Z.of_nat p) ->
     elem updated (p :: w) = elem cache (p :: w)) /\
    (forall i, i < n -> elem ids [i] = Z.of_nat p ->
       (forall j, i < j < n -> elem ids [j] <> Z.of_nat p) ->
       elem updated (p :: w) = elem values (i :: w)).





(** The columns of [s] are those of [past] followed by those of
    [active]. *)
Definition partitioned_scores (s past active : Tensor T) (n_positions : nat) : Prop :=
  forall b h i k,
    (k < n_positions -> elem s [b; h; i; k] = elem past [b; h; i; k]) /\
    elem s [b; h; i; n_positions + k] = elem active [b; h; i; k].

(** The positions of [v] are those of [past] followed by those of
    [active]. *)
Definition partitioned_values (bsh : bool) (v past active : Tensor T)
    (n_positions : nat) : Prop :=
  forall b h d k,
    (k < n_positions ->
     elem v (value_index bsh k b h d) = elem past (value_index bsh k b h d)) /\
    elem v (value_index bsh (n_positions + k) b h d) =
    elem active (value_index bsh k b h d).

End Specs.

(** ** A carrier of exact arithmetic: the reals with minus infinity *)

Module XReal.

Local Open Scope R_scope.

(** [None] stands for minus infinity: it is the unit of the maximum,
    the exponential sends it to zero, a finite number divided by it is
    zero; in every other position it propagates. *)
Definition xreal := option R.

Definition xconst (dt : DType) (c : PyNum) : xreal :=
  match c with
  | PyInt z => Some (IZR z)
  | PyNegInf => None
  | PySqrt n => Some (sqrt (INR n))
  end.

Definition xadd (x y : xreal) : xreal :=
  match x, y with
  | Some a, Some b => Some (a + b)
  | _, _ => None
  end.

Definition xsub (x y : xreal) : xreal :=
  match x, y with
  | Some a, Some b => Some (a - b)
  | _, _ => None
  end.

Definition xmul (x y : xreal) : xreal :=
  match x, y with
  | Some a, Some b => Some (a * b)
  | _, _ => None
  end.

Definition xdiv (x y : xreal) : xreal :=
  match x, y with
  | Some a, Some b => Some (a / b)
  | Some a, None => Some 0
  | None, _ => None
  end.

Definition xmax (x y : xreal) : xreal :=
  match x, y with
  | Some a, Some b => Some (Rmax a b)
  | None, _ => y
  | _, None => x
  end.

Definition xexp (x : xreal) : xreal :=
  match x with
  | Some a => Some (exp a)
  | None => Some 0
  end.

#[export] Instance Elem_xreal : Elem xreal := {
  econst := xconst;
  ecast := fun _ x => x;
  eadd := fun _ => xadd;
  esub := fun _ => xsub;
  emul := fun _ => xmul;
  ediv := fun _ => xdiv;
  emax := fun _ => xmax;
  eexp := fun _ => xexp
}.

(** Collaborators for the concrete runs below: a single shard, whose
    all-gather returns its own tensor, and index helpers that hand the
    cache ids through. *)
#[export] Instance External_xreal : External xreal := {
  ext_all_gather := fun x _ _ => elem x;
  ext_update_indices_decode := fun _ ids _ => ids;
  ext_update_indices_context := fun _ ids _ _ => ids;
  ext_update_indices_speculative := fun _ ids _ _ => ids;
  ext_reshape_and_cache := fun _ _ ck cv _ => (ck, cv)
}.

End XReal.


(** ** Small tensors over the extended reals *)

(** A tensor with the same entry everywhere. *)
Definition constant_tensor (dt : DType) (szs : list nat) (x : R) : Tensor XReal.xreal :=
  mkTensor dt szs (fun _ => Some x).
Arguments constant_tensor _ _ _%_R.

(** A tensor of integers with the same entry everywhere. *)
Definition constant_ids (szs : list nat) (z : Z) : Tensor Z :=
  mkTensor s32 szs (fun _ => z).

(** A mask over two positions that excludes the second. *)
Definition second_excluded : Tensor bool :=
  mkTensor pred [1; 2] (fun idx => negb (nth 1 idx 0 =? 1)).

Definition all_included : Tensor bool :=
  mkTensor pred [1; 1] (fun _ => true).

(** A weight whose entry in column [j] is [offset + j], in every row. *)
Definition column_weight (szs : list nat) (offset : nat) : Tensor XReal.xreal :=
  mkTensor f32 szs (fun idx => Some (INR (offset + nth 1 idx 0))).

(** Scores and values over two positions, the first past and the
    second active. *)
Definition row_tensor (dt : DType) (szs : list nat) (dim : nat) (x y : R)
    : Tensor XReal.xreal :=
  mkTensor dt szs (fun idx => if nth dim idx 0 <? 1 then Some x else Some y).
Arguments row_tensor _ _ _ _%_R _%_R.

(** ** A carrier with a finite range: real numbers that overflow *)

Module Ranged.

(** Real numbers with the special values of a floating-point format.
    Nothing is rounded; a result of an [f16] instruction beyond the
    largest finite [f16] number, 65504, overflows to an infinity.  The
    other element types are taken without a bound. *)
Inductive ranged :=
| Fin (r : R)
| PosInf
| NegInf
| NaN.

Definition overflow (dt : DType) (x : ranged) : ranged :=
  match dt, x with
  | f16, Fin r =>
    if Rlt_dec 65504 r then PosInf
    else if Rlt_dec r (-65504) then NegInf
    else Fin r
  | _, _ => x
  end.

Definition negate (x : ranged) : ranged :=
  match x with
  | Fin r => Fin (- r)
  | PosInf => NegInf
  | NegInf => PosInf
  | NaN => NaN
  end.

(** An infinity [i] times or divided by the finite number [a]. *)
Definition signed (a : R) (i : ranged) : ranged :=
  if Rlt_dec 0 a then i
  else if Rlt_dec a 0 then negate i
  else NaN.

Definition radd (x y : ranged) : ranged :=
  match x, y with
  | Fin a, Fin b => Fin (a + b)
  | NaN, _ | _, NaN => NaN
  | PosInf, NegInf | NegInf, PosInf => NaN
  | PosInf, _ | _, PosInf => PosInf
  | NegInf, _ | _, NegInf => NegInf
  end.

Definition rsub (x y : ranged) : ranged := radd x (negate y).

Definition rmul (x y : ranged) : ranged :=
  match x, y with
  | Fin a, Fin b => Fin (a * b)
  | NaN, _ | _, NaN => NaN
  | Fin a, i | i, Fin a => signed a i
  | PosInf, PosInf | NegInf, NegInf => PosInf
  | PosInf, NegInf | NegInf, PosInf => NegInf
  end.

Definition rdiv (x y : ranged) : ranged :=
  match x, y with
  | Fin a, Fin b =>
    if Req_dec_T b 0 then signed a PosInf else Fin (a / b)
  | NaN, _ | _, NaN => NaN
  | Fin _, _ => Fin 0
  | i, Fin b => if Rlt_dec b 0 then negate i else i
  | _, _ => NaN
  end.

Definition rmax (x y : ranged) : ranged :=
  match x, y with
  | Fin a, Fin b => Fin (Rmax a b)
  | NaN, _ | _, NaN => NaN
  | PosInf, _ | _, PosInf => PosInf
  | NegInf, z | z, NegInf => z
  end.

Definition rexp (x : ranged) : ranged :=
  match x with
  | Fin a => Fin (exp a)
  | PosInf => PosInf
  | NegInf => Fin 0
  | NaN => NaN
  end.

Definition rconst (c : PyNum) : ranged :=
  match c with
  | PyInt z => Fin (IZR z)
  | PyNegInf => NegInf
  | PySqrt n => Fin (sqrt (INR n))
  end.

#[global] Instance Elem_ranged : Elem ranged := {
  econst := fun dt c => overflow dt (rconst c);
  ecast := overflow;
  eadd := fun dt x y => overflow dt (radd x y);
  esub := fun dt x y => overflow dt (rsub x y);
  emul := fun dt x y => overflow dt (rmul x y);
  ediv := fun dt x y => overflow dt (rdiv x y);
  emax := fun dt x y => overflow dt (rmax x y);
  eexp := fun dt x => overflow dt (rexp x)
}.

(** A single shard, as for the extended reals. *)
#[global] Instance External_ranged : External ranged := {
  ext_all_gather := fun x _ _ => elem x;
  ext_update_indices_decode := fun _ ids _ => ids;
  ext_update_indices_context := fun _ ids _ _ => ids;
  ext_update_indices_speculative := fun _ ids _ _ => ids;
  ext_reshape_and_cache := fun _ _ ck cv _ => (ck, cv)
}.

End Ranged.

(** A tensor over the ranged numbers with the same entry everywhere. *)
Definition ranged_tensor (dt : DType) (szs : list nat) (x : R) : Tensor Ranged.ranged :=
  mkTensor dt szs (fun _ => Ranged.Fin x).
Arguments ranged_tensor _ _ _%_R.

(** * The rest of the attention layer *)

(** Modelled from the spec: what [utils.parse_dtype_replica_groups] and
    the sum all-reduce of [hlo.all_reduce_sum] return, neither of which
    is among the sources.  The all-reduce sums across shards, so its
    entries and the element type it is declared with are not known to
    one shard's graph; its shape is that of its operand. *)
Class Reduction (T : Type) := {
  ReplicaGroups : Type;
  ext_parse_dtype_replica_groups :
    option NeuronConfig -> nat -> option DType * ReplicaGroups;
  ext_all_reduce_sum :
    Tensor T -> nat -> option DType -> ReplicaGroups -> DType * (list nat -> T)
}.

Section MoreAttention.

Context {T : Type} `{ET : Elem T} `{RT : Reduction T}.

(** [dtype[sizes].Dot(lhs, rhs, dot_dimension_numbers=dims)]: the
    contraction of [hlo_dot_general], declared with an element type
    and a shape. *)
Definition Dot (dt : DType) (szs : list nat) (lhs rhs : Tensor T)
    (dot_dimension_numbers : DotDims) : Build (Tensor T) :=
  let lb := lhs_batch_dimensions dot_dimension_numbers in
  let lc := lhs_contracting_dimensions dot_dimension_numbers in
  let rb := rhs_batch_dimensions dot_dimension_numbers in
  let rc := rhs_contracting_dimensions dot_dimension_numbers in
  let rl := List.length (sizes lhs) in
  let rr := List.length (sizes rhs) in
  let nb := List.length lb in
  let nlf := List.length (free_dims rl lb lc) in
  emit (mkInstr OpDotGeneral dt szs) ;;;
  ret (mkTensor dt szs
         (fun idx =>
            sum_over dt (map (fun d => nth d (sizes lhs) 0) lc)
              (fun ks =>
                 emul dt
                   (elem lhs (operand_index rl lb lc (firstn nb idx) ks
                                (firstn nlf (skipn nb idx))))
                   (elem rhs (operand_index rr rb rc (firstn nb idx) ks
                                (skipn (nb + nlf) idx)))))).

(** ** [query_key_projection] *)

Definition query_key_projection (query key qk_weight : Tensor T)
    : Build (Tensor T * Tensor T) :=
  let dtype_ := dtype key in
  let active_sizes := sizes key in
  ' (n_active_tokens, n_seqs, n_heads_tp, d_head) <- unpack4 active_sizes ;;
  let active_r_sizes := [n_active_tokens; n_seqs * n_heads_tp; d_head] in
  let dot_dims := mkDotDims [2] [0] [1] [0] in
  query <- Reshape dtype_ active_r_sizes query ;;
  query <- Dot dtype_ active_r_sizes query qk_weight dot_dims ;;
  query <- Reshape dtype_ active_sizes query ;;
  key <- Reshape dtype_ active_r_sizes key ;;
  key <- Dot dtype_ active_r_sizes key qk_weight dot_dims ;;
  key <- Reshape dtype_ active_sizes key ;;
  ret (query, key).

(** ** [output] *)

(** Modelled from the spec: the entries of [hlo.dot10_add1(lhs, rhs,
    bias, scales)], a weighted sum plus bias.  Dimension 1 of the left
    operand is contracted with dimension 0 of the right; the optional
    dequantisation scale and the optional bias run along dimension 1
    of the result. *)
Definition dot10_add1_elem (lhs rhs : Tensor T) (bias scales : option (Tensor T))
    (idx : list nat) : T :=
  let dt := dtype lhs in
  let n := nth 0 idx 0 in
  let j := nth 1 idx 0 in
  let dot := sum_over dt [nth 1 (sizes lhs) 0]
               (fun ks => emul dt (elem lhs [n; nth 0 ks 0])
                                  (elem rhs [nth 0 ks 0; j])) in
  let scaled := match scales with
                | Some s => emul dt dot (elem s [j])
                | None => dot
                end in
  match bias with
  | Some b => eadd dt scaled (elem b [j])
  | None => scaled
  end.

(** Modelled from the spec: [hlo.dot10_add1]. *)
Definition hlo_dot10_add1 (lhs rhs : Tensor T) (bias scales : option (Tensor T))
    (neuron_config : option NeuronConfig) : Build (Tensor T) :=
  let dt := dtype lhs in
  let szs := [nth 0 (sizes lhs) 0; nth 1 (sizes rhs) 0] in
  emit (mkInstr (OpHlo "dot10_add1") dt szs) ;;;
  ret (mkTensor dt szs (dot10_add1_elem lhs rhs bias scales)).

(** Modelled from the spec: [hlo.all_reduce_sum], the sum all-reduce
    across the replica group. *)
Definition hlo_all_reduce_sum (x : Tensor T) (tp_degree : nat)
    (dtype_ : option DType) (replica_groups : ReplicaGroups) : Build (Tensor T) :=
  let r := ext_all_reduce_sum x tp_degree dtype_ replica_groups in
  emit (mkInstr (OpHlo "all_reduce_sum") (fst r) (sizes x)) ;;;
  ret (mkTensor (fst r) (sizes x) (snd r)).

Definition output (context : Tensor T) (out_weight : Tensor T)
    (out_scales out_bias : option (Tensor T)) (tp_degree : nat)
    (neuron_config : option NeuronConfig) : Build (Tensor T) :=
  let dtype_ := dtype context in
  ' (n_seqs, n_active_tokens, n_heads_tp, d_head) <- unpack4 (sizes context) ;;
  ' (_, hidden_size) <- unpack2 (sizes out_weight) ;;
  let hidden_sizes := [n_seqs; n_active_tokens; hidden_size] in
  let result_sizes_2d := [n_seqs * n_active_tokens; n_heads_tp * d_head] in
  result <- Reshape dtype_ result_sizes_2d context ;;
  result <- hlo_dot10_add1 result out_weight out_bias out_scales neuron_config ;;
  result <- Reshape dtype_ hidden_sizes result ;;
  let '(dtype_, replica_groups) :=
    ext_parse_dtype_replica_groups neuron_config tp_degree in
  hlo_all_reduce_sum result tp_degree dtype_ replica_groups.

End MoreAttention.

(** * What the further properties are stated with *)

(** The last of the updates [l] that writes to row [r], if any. *)
Definition last_hit (ix : nat -> Z) (l : list nat) (r : Z) : option nat :=
  fold_left (fun acc i => if Z.eqb (ix i) r then Some i else acc) l None.

(** No update of [ids1] and no update of [ids2] write to the same
    position. *)
Definition disjoint_ids (ids1 ids2 : Tensor Z) (n1 n2 : nat) : Prop :=
  forall i j, i < n1 -> j < n2 -> elem ids1 [i] <> elem ids2 [j].

(** The graph holds an instruction of the helper [name]. *)
Definition emits_helper (name : string) (g : Graph) : Prop :=
  exists i, In i g /\ i_op i = OpHlo name.

(** The graph holds a scatter. *)
Definition emits_scatter (g : Graph) : Prop :=
  exists i c, In i g /\ i_op i = OpScatter c.

(** The instructions of a graph, without their types and shapes. *)
Definition ops_of (g : Graph) : list Op := map i_op g.

Section MoreSpecs.

Context {T : Type} `{ET : Elem T}.

(** An entry of a projection: the dot product of an input row and a
    weight column, times the scale and plus the bias where given. *)
Definition projection_entry (dt : DType) (n : nat) (x w : nat -> T)
    (scale bias : option T) : T :=
  let dot := dot_qk dt n x w in
  let scaled := match scale with
                | Some s => emul dt dot s
                | None => dot
                end in
  match bias with
  | Some b => eadd dt scaled b
  | None => scaled
  end.

(** Entry [j] of an optional vector. *)
Definition entry_of (v : option (Tensor T)) (j : nat) : option T :=
  match v with
  | Some x => Some (elem x [j])
  | None => None
  end.

End MoreSpecs.

(** A single shard for the concrete runs: nothing to parse from the
    configuration, and a sum all-reduce that returns the shard's own
    tensor. *)
#[global] Instance Reduction_xreal : Reduction XReal.xreal := {
  ReplicaGroups := unit;
  ext_parse_dtype_replica_groups := fun _ _ => (None, tt);
  ext_all_reduce_sum := fun x _ dt _ =>
    (match dt with
     | Some d => d
     | None => dtype x
     end, elem x)
}.

(** Grouped-query attention sharded over the batch, in the SBH layout. *)
Definition shard_over_batch_config : option NeuronConfig :=
  Some (mkNeuronConfig false LAYOUT_SBH (Some SHARD_OVER_BATCH)).

(** * Properties *)

(** ** The extended reals compute exactly *)

Import XReal.

Lemma xadd_assoc (x y z : xreal) : xadd x (xadd y z) = xadd (xadd x y) z.
Proof.
  destruct x, y, z; cbn; try reflexivity. f_equal. ring.
Qed.

Lemma xadd_zero_l (x : xreal) : xadd (Some 0%R) x = x.
Proof.
  destruct x; cbn; try reflexivity. f_equal. ring.
Qed.

Lemma xadd_zero_r (x : xreal) : xadd x (Some 0%R) = x.
Proof.
  destruct x; cbn; try reflexivity. f_equal. ring.
Qed.

Lemma xmax_assoc (x y z : xreal) : xmax x (xmax y z) = xmax (xmax x y) z.
Proof.
  destruct x, y, z; cbn; try reflexivity. f_equal. apply Rmax_assoc.
Qed.

Lemma xmax_comm (x y : xreal) : xmax x y = xmax y x.
Proof.
  destruct x, y; cbn; try reflexivity. f_equal. apply Rmax_comm.
Qed.

Lemma xmax_idem (x : xreal) : xmax x x = x.
Proof.
  destruct x; cbn; try reflexivity. f_equal.
  apply Rmax_left. apply Rle_refl.
Qed.

Lemma xdiv_add_distr (x y d : xreal) :
  xdiv (xadd x y) d = xadd (xdiv x d) (xdiv y d).
Proof.
  destruct x, y, d; cbn; try reflexivity; f_equal; unfold Rdiv; ring.
Qed.

Lemma xmul_div_l (a d v : xreal) : xmul (xdiv a d) v = xdiv (xmul a v) d.
Proof.
  destruct a, d, v; cbn; try reflexivity; f_equal; unfold Rdiv; ring.
Qed.

Lemma xdiv_zero_l (d : xreal) : xdiv (Some 0%R) d = Some 0%R.
Proof.
  destruct d; cbn; try reflexivity. f_equal. unfold Rdiv. ring.
Qed.

#[global] Instance ExactArith_xreal : ExactArith xreal.
Proof.
  constructor; cbn; intros; try reflexivity.
  - apply xadd_assoc.
  - apply xadd_zero_l.
  - apply xadd_zero_r.
  - apply xmax_assoc.
  - apply xmax_comm.
  - apply xmax_idem.
  - apply xdiv_add_distr.
  - apply xmul_div_l.
  - apply xdiv_zero_l.
Qed.

Section Properties.

Context {T : Type} `{ET : Elem T} `{XT : External T}.

(** ** Masking *)

(** C8. For every score tensor, mask tensor and fill constant, [mask]
    returns a tensor of the score's element type and shape whose entry
    is the fill constant, as a constant of the score's element type,
    wherever the broadcast mask is false, and the score's entry
    wherever it is true.  A mask of rank two is broadcast along the
    first and last coordinates, any other mask along the first and the
    last two.  The default fill constant is -30000. *)
Theorem mask_fills_where_false
    (score : Tensor T) (m : Tensor bool) (tp_degree : option nat)
    (shard_over_batch : bool) (constant_val : PyNum) (g : Graph) :
  mask_default_constant_val = PyInt (-30000) /\
  exists out g',
    run (mask score m tp_degree shard_over_batch constant_val) g = (inr out, g') /\
    dtype out = dtype score /\
    sizes out = sizes score /\
    forall i0 i1 i2 i3,
      elem out [i0; i1; i2; i3] =
      if (if List.length (sizes m) =? 2
          then elem m [i0; i3]
          else elem m [i0; i2; i3])
      then elem score [i0; i1; i2; i3]
      else econst (dtype score) constant_val.
Proof.
  split; [reflexivity|].
  unfold run, mask.
  destruct (List.length (sizes m) =? 2); cbn;
    eexists _, _; repeat split; reflexivity.
Qed.

(** ** Scaling and scores *)

(** C9. [scale] returns the query with every element divided by the
    constant [d_head ** 0.5]; [score] emits only the key repeat of
    grouped-query attention and one batched contraction, never a
    division or a constant, and each of its entries is the plain dot
    product of a query row and a key row. *)
Theorem scale_divides_score_does_not
    (query keys : Tensor T) (d_head : nat) (tp_degree : option nat)
    (n_kv_heads : nat) (neuron_config : option NeuronConfig)
    (q0 q1 q2 q3 k0 k1 k2 k3 : nat)
    (Hq : sizes query = [q0; q1; q2; q3])
    (Hk : sizes keys = [k0; k1; k2; k3])
    (Hkv : n_kv_heads <> 0 -> k2 <> 0) :
  (exists out g,
     run (scale query d_head) [] = (inr out, g) /\
     dtype out = dtype query /\ sizes out = sizes query /\
     forall idx,
       elem out idx =
       ediv (dtype query) (elem query idx) (econst (dtype query) (PySqrt d_head))) /\
  (exists out g,
     run (score query keys tp_degree n_kv_heads neuron_config) [] = (inr out, g) /\
     no_scaling g /\
     let kv_head h := if n_kv_heads =? 0 then h else h / (q2 / k2) in
     forall b h i j,
       elem out [b; h; i; j] =
       if snd (config_flags neuron_config)
       then dot_qk (dtype query) q3
              (fun c => elem query [b; i; h; c])
              (fun c => elem keys [b; j; kv_head h; c])
       else dot_qk (dtype query) q3
              (fun c => elem query [i; b; h; c])
              (fun c => elem keys [j; b; kv_head h; c])).
Proof.
  split.
  - unfold run, scale. cbn. eexists _, _. repeat split; reflexivity.
  - destruct query as [dq sq eq_], keys as [dk sk ek]. cbn in Hq, Hk. subst sq sk.
    unfold run, score, no_scaling, dot_qk.
    destruct (config_flags neuron_config) as [sob bsh].
    destruct n_kv_heads as [|n]; cbn [Nat.eqb negb].
    + destruct bsh; cbn; eexists _, _; (split; [reflexivity|]); split;
        try (intros i [<-|[]]; cbn; split; [discriminate | intros; discriminate]);
        cbn; intros; reflexivity.
    + assert (Hk2 : k2 <> 0) by (apply Hkv; discriminate).
      destruct k2 as [|k2']; [contradiction|].
      destruct sob, bsh; cbn -[Nat.div Nat.mul]; eexists _, _;
        (split; [reflexivity|]); split;
        try (intros i [<-|[<-|[]]]; cbn; (split; [discriminate | intros; discriminate]));
        cbn -[Nat.div Nat.mul]; intros; reflexivity.
Qed.
(** ** The softmax part of the split context *)

(** C5. In the split context operation, with or without sparse
    masks, the constant subtracted from the upcast past scores and from
    the upcast active scores, per sequence, head and active token, is
    the maximum of the row maximum of the past scores and the row
    maximum of the active scores, both taken after the conversion to
    f32 and before any masking; every entry of the two exponentiated
    tensors that no sparse mask excludes is the exponential of the
    upcast score less that constant; and the denominator is the sum of
    the row sum of the exponentiated past scores and the row sum of the
    exponentiated active scores, as the two tensors stand once the
    sparse masks, where given, have been applied. *)
Theorem context_shared_max_and_denominator
    (past_scores active_score : Tensor T) (dtype_ : DType)
    (sparse_mask active_sparse_mask : option (Tensor bool))
    (n_seqs n_heads_tp n_active_tokens : nat) (g : Graph) :
  exists ss g',
    run (context_softmax past_scores active_score dtype_
           sparse_mask active_sparse_mask
           n_seqs n_heads_tp n_active_tokens (sizes active_score)) g = (inr ss, g') /\
    forall b h i,
      elem (ss_reduce_max ss) [b; h; i] = shared_max past_scores active_score b h i /\
      (forall k,
         match sparse_mask with
         | Some m => sparse_mask_at m b i k = true
         | None => True
         end ->
         elem (ss_exp ss) [b; h; i; k] =
         eexp f32 (esub f32 (ecast f32 (elem past_scores [b; h; i; k]))
                            (shared_max past_scores active_score b h i))) /\
      (forall k,
         match active_sparse_mask with
         | Some m => sparse_mask_at m b i k = true
         | None => True
         end ->
         elem (ss_active_exp ss) [b; h; i; k] =
         eexp f32 (esub f32 (ecast f32 (elem active_score [b; h; i; k]))
                            (shared_max past_scores active_score b h i))) /\
      elem (ss_denom_f32 ss) [b; h; i] =
      eadd f32
        (row_fold (eadd f32) (econst f32 (PyInt 0)) (nth 3 (sizes past_scores) 0)
           (fun k => elem (ss_exp ss) [b; h; i; k]))
        (row_fold (eadd f32) (econst f32 (PyInt 0)) (nth 3 (sizes active_score) 0)
           (fun k => elem (ss_active_exp ss) [b; h; i; k])).
Proof.
  unfold run, context_softmax, mask, sparse_mask_at.
  destruct sparse_mask as [sm|], active_sparse_mask as [am|];
    try destruct (List.length (sizes sm) =? 2);
    try destruct (List.length (sizes am) =? 2);
    cbn; eexists _, _; (split; [reflexivity|]);
    intros b h i; cbn; unfold shared_max, row_fold, lane; cbn;
    repeat split; try reflexivity;
    intros k Hk; try rewrite Hk; reflexivity.
Qed.

(** With sparse masks, the shared maximum is the one computed without
    them, and an excluded position of either exponentiated tensor holds
    the default fill constant of [mask]: the third positional argument
    of the calls [mask(exp, sparse_mask, 0)] is [tp_degree]. *)
Lemma context_softmax_sparse
    (past_scores active_score : Tensor T) (dtype_ : DType)
    (sparse_mask active_sparse_mask : Tensor bool)
    (n_seqs n_heads_tp n_active_tokens : nat) (g : Graph) :
  exists ss g',
    run (context_softmax past_scores active_score dtype_
           (Some sparse_mask) (Some active_sparse_mask)
           n_seqs n_heads_tp n_active_tokens (sizes active_score)) g = (inr ss, g') /\
    forall b h i,
      elem (ss_reduce_max ss) [b; h; i] = shared_max past_scores active_score b h i /\
      (forall k,
         elem (ss_exp ss) [b; h; i; k] =
         if sparse_mask_at sparse_mask b i k
         then eexp f32 (esub f32 (ecast f32 (elem past_scores [b; h; i; k]))
                                 (shared_max past_scores active_score b h i))
         else econst f32 (PyInt (-30000))) /\
      (forall k,
         elem (ss_active_exp ss) [b; h; i; k] =
         if sparse_mask_at active_sparse_mask b i k
         then eexp f32 (esub f32 (ecast f32 (elem active_score [b; h; i; k]))
                                 (shared_max past_scores active_score b h i))
         else econst f32 (PyInt (-30000))).
Proof.
  unfold run, context_softmax, mask, sparse_mask_at.
  destruct (List.length (sizes sparse_mask) =? 2),
           (List.length (sizes active_sparse_mask) =? 2); cbn;
    eexists _, _; (split; [reflexivity|]);
    intros b h i; cbn; unfold shared_max, row_fold, lane; cbn;
    repeat split; reflexivity.
Qed.

(** ** Running a bind *)

Lemma bind_inr {A B} (m : Build A) (k : A -> Build B) (g g' : Graph) (a : A) :
  m g = (inr a, g') -> bind m k g = k a g'.
Proof. intros H. unfold bind. rewrite H. reflexivity. Qed.

(** ** Element type of the context outputs *)

(** The softmax part of [context] cannot fail. *)
Lemma context_softmax_returns
    (past_scores active_score : Tensor T) (dtype_ : DType)
    (sparse_mask active_sparse_mask : option (Tensor bool))
    (n_seqs n_heads_tp n_active_tokens : nat) (active_score_sizes : list nat)
    (g : Graph) :
  exists ss g',
    context_softmax past_scores active_score dtype_ sparse_mask active_sparse_mask
      n_seqs n_heads_tp n_active_tokens active_score_sizes g = (inr ss, g').
Proof.
  unfold context_softmax, mask.
  destruct sparse_mask as [sm|], active_sparse_mask as [am|];
    try destruct (List.length (sizes sm) =? 2);
    try destruct (List.length (sizes am) =? 2);
    cbn; eexists _, _; reflexivity.
Qed.

(** [hlo.softmax] and [mask] cannot fail either. *)
Lemma hlo_softmax_returns (logits : Tensor T) (g : Graph) :
  exists probs g',
    hlo_softmax logits g = (inr probs, g') /\
    sizes probs = sizes logits /\ dtype probs = dtype logits.
Proof.
  unfold hlo_softmax. cbn. eexists _, _. repeat split; reflexivity.
Qed.

Lemma mask_returns (score : Tensor T) (m : Tensor bool) (tp_degree : option nat)
    (shard_over_batch : bool) (constant_val : PyNum) (g : Graph) :
  exists out g',
    mask score m tp_degree shard_over_batch constant_val g = (inr out, g') /\
    sizes out = sizes score /\ dtype out = dtype score.
Proof.
  unfold mask. destruct (List.length (sizes m) =? 2); cbn;
    eexists _, _; repeat split; reflexivity.
Qed.

(** C10. With the [dtype] argument omitted, the split context
    operation returns a tensor of the active score's element type and
    the combined context operation one of the values' element type, so
    that the two differ whenever those element types do. *)
Theorem context_default_dtypes
    (past_scores active_score past_values active_values score values : Tensor T)
    (n_kv_heads : nat) (sparse_mask active_sparse_mask : option (Tensor bool))
    (neuron_config : option NeuronConfig) (tp_degree : option nat)
    (a0 a1 a2 a3 p0 p1 p2 p3 v0 v1 v2 v3 s0 s1 s2 s3 w0 w1 w2 w3 : nat)
    (Hmasks : is_none sparse_mask = is_none active_sparse_mask)
    (Ha : sizes active_score = [a0; a1; a2; a3])
    (Hp : sizes past_scores = [p0; p1; p2; p3])
    (Hv : sizes past_values = [v0; v1; v2; v3])
    (Hs : sizes score = [s0; s1; s2; s3])
    (Hw : sizes values = [w0; w1; w2; w3])
    (Hkv : n_kv_heads <> 0 -> v2 <> 0 /\ w2 <> 0)
    (Htp : n_kv_heads <> 0 -> fst (config_flags neuron_config) = true ->
           exists t, tp_degree = Some (S t)) :
  exists o1 g1 o2 g2,
    run (context past_scores active_score past_values active_values n_kv_heads None
           sparse_mask active_sparse_mask neuron_config tp_degree) [] = (inr o1, g1) /\
    run (context_combined score values tp_degree n_kv_heads None sparse_mask
           neuron_config) [] = (inr o2, g2) /\
    dtype o1 = dtype active_score /\
    dtype o2 = dtype values /\
    (dtype active_score <> dtype values -> dtype o1 <> dtype o2).
Proof.
  assert (Hsplit : exists o1 g1,
    context past_scores active_score past_values active_values n_kv_heads None
      sparse_mask active_sparse_mask neuron_config tp_degree [] = (inr o1, g1) /\
    dtype o1 = dtype active_score).
  { unfold context.
    destruct (config_flags neuron_config) as [sob bsh].
    rewrite Hmasks, Bool.eqb_reflx, Ha, Hp, Hv.
    destruct n_kv_heads as [|n].
    - destruct bsh; cbn -[context_softmax];
        match goal with
        | |- context [context_softmax ?a ?b ?c ?d ?e ?f ?g ?h ?i] =>
          destruct (context_softmax_returns a b c d e f g h i []) as (ss & g' & Hss);
          rewrite (bind_inr _ _ _ _ _ Hss)
        end; cbn; eexists _, _; split; reflexivity.
    - destruct Hkv as [Hv2 _]; [discriminate|].
      destruct v2 as [|v2']; [contradiction|].
      destruct bsh; cbn -[context_softmax Nat.div Nat.mul];
        match goal with
        | |- context [context_softmax ?a ?b ?c ?d ?e ?f ?g ?h ?i] =>
          destruct (context_softmax_returns a b c d e f g h i []) as (ss & g' & Hss);
          rewrite (bind_inr _ _ _ _ _ Hss)
        end; cbn -[Nat.div Nat.mul]; eexists _, _; split; reflexivity. }
  assert (Hcomb : exists o2 g2,
    context_combined score values tp_degree n_kv_heads None sparse_mask
      neuron_config [] = (inr o2, g2) /\
    dtype o2 = dtype values).
  { unfold context_combined.
    destruct (config_flags neuron_config) as [sob bsh] eqn:Hflags.
    destruct (hlo_softmax_returns score []) as (probs & g' & Hsm & Hsz & _).
    unfold bind at 1. rewrite Hsm.
    assert (Hmk : exists probs' g'',
      match sparse_mask with
      | Some sm => mask probs sm None false (PyInt 0)
      | None => ret probs
      end g' = (inr probs', g'') /\ sizes probs' = [s0; s1; s2; s3]).
    { destruct sparse_mask as [sm|].
      - destruct (mask_returns probs sm None false (PyInt 0) g')
          as (o & g'' & Hm & Hsz' & _).
        exists o, g''. split; [exact Hm | congruence].
      - exists probs, g'. split; [reflexivity | congruence]. }
    destruct Hmk as (probs' & g'' & Hmk & Hsz').
    unfold bind at 1. rewrite Hmk, Hsz', Hw.
    unfold bind at 1. cbn [unpack4 ret].
    destruct n_kv_heads as [|n].
    - destruct bsh; cbn; eexists _, _; split; reflexivity.
    - destruct Hkv as [_ Hw2]; [discriminate|].
      destruct w2 as [|w2']; [contradiction|].
      destruct sob.
      + destruct Htp as [t ->]; [discriminate | reflexivity |].
        destruct bsh; cbn -[Nat.div Nat.mul]; eexists _, _; split; reflexivity.
      + destruct bsh; cbn -[Nat.div Nat.mul]; eexists _, _; split; reflexivity. }
  destruct Hsplit as (o1 & g1 & H1 & D1), Hcomb as (o2 & g2 & H2 & D2).
  exists o1, g1, o2, g2. unfold run. repeat split; try assumption.
  congruence.
Qed.

(** ** Cache update *)

(** C7. With two-dimensional cache ids whose token dimension agrees
    with the keys, every combination of sizes that is neither a
    single-token decode, nor a full-context prefill, nor a partial
    speculative write makes [fused_kv_update_cache] raise
    [NotImplementedError], with a message that spells out
    [n_active_tokens], [n_positions], [n_seqs] and [n_active_seqs]; no
    update is returned. *)
Theorem fused_kv_update_cache_unsupported
    (cached_keys cached_vals keys vals : Tensor T) (cache_ids : Tensor Z)
    (start_ids : option (Tensor Z)) (neuron_config : option NeuronConfig)
    (n_positions n_seqs n_kv_heads d_head : nat)
    (n_active_tokens n_active_seqs kh kd c0 : nat)
    (Hids : sizes cache_ids = [c0; n_active_tokens])
    (Hcache : sizes cached_keys =
              if bsh_layout neuron_config
              then [n_seqs; n_positions; n_kv_heads; d_head]
              else [n_positions; n_seqs; n_kv_heads; d_head])
    (Hkeys : sizes keys =
             if bsh_layout neuron_config
             then [n_active_seqs; n_active_tokens; kh; kd]
             else [n_active_tokens; n_active_seqs; kh; kd])
    (Hdecode : ~ (n_active_tokens = 1 /\ n_seqs = n_active_seqs))
    (Hprefill : ~ (n_active_tokens = n_positions /\ n_active_seqs < n_seqs))
    (Hspeculative : ~ (1 < n_active_tokens /\ n_active_tokens < n_positions)) :
  exists g,
    run (fused_kv_update_cache cached_keys cached_vals cache_ids keys vals
           start_ids neuron_config) [] =
    (inl (NotImplementedError
            ("Updating 2D cache_ids is not implemented for n_active_tokens="
             ++ str_nat n_active_tokens ++ ", n_positions=" ++ str_nat n_positions
             ++ ", n_seqs=" ++ str_nat n_seqs
             ++ ", n_active_seqs=" ++ str_nat n_active_seqs ++ ".")), g).
Proof.
  assert (B1 : (n_active_tokens =? 1) && (n_seqs =? n_active_seqs) = false).
  { destruct (Nat.eqb_spec n_active_tokens 1), (Nat.eqb_spec n_seqs n_active_seqs);
      try reflexivity. exfalso. apply Hdecode. split; assumption. }
  assert (B2 : (n_active_tokens =? n_positions) && (n_active_seqs <? n_seqs) = false).
  { destruct (Nat.eqb_spec n_active_tokens n_positions),
             (Nat.ltb_spec n_active_seqs n_seqs);
      try reflexivity. exfalso. apply Hprefill. split; assumption. }
  assert (B3 : (1 <? n_active_tokens) && (n_active_tokens <? n_positions) = false).
  { destruct (Nat.ltb_spec 1 n_active_tokens),
             (Nat.ltb_spec n_active_tokens n_positions);
      try reflexivity. exfalso. apply Hspeculative. split; assumption. }
  destruct cache_ids as [di si ei], cached_keys as [dc sc ec], keys as [dk sk ek].
  unfold run, fused_kv_update_cache, bsh_layout, config_flags in *.
  cbn in Hids, Hcache, Hkeys. subst si.
  assert (H2d : (1 <? List.length [c0; n_active_tokens]) = true) by reflexivity.
  destruct neuron_config as [[fq [|] gq]|]; cbn in Hcache, Hkeys; subst sc sk;
    cbn [sizes]; rewrite H2d;
    cbn -[not_implemented_msg Nat.mul String.append str_nat str_sizes Nat.ltb];
    rewrite Nat.eqb_refl;
    cbn -[not_implemented_msg Nat.mul String.append str_nat str_sizes Nat.ltb];
    rewrite B1, B2, B3; eexists; reflexivity.
Qed.

Lemma scatter_fold_untouched (f : T -> T -> T) (ix : nat -> Z) (u : nat -> T)
    (r : Z) (l : list nat) (a : T) :
  (forall i, In i l -> ix i <> r) ->
  fold_left (fun acc i => if Z.eqb (ix i) r then f acc (u i) else acc) l a = a.
Proof.
  revert a. induction l as [|i l IH]; intros a H; cbn; [reflexivity|].
  destruct (Z.eqb_spec (ix i) r) as [E|_].
  - exfalso. apply (H i); [left; reflexivity | exact E].
  - apply IH. intros j Hj. apply H. right. exact Hj.
Qed.

Lemma scatter_fold_last (ix : nat -> Z) (u : nat -> T) (r : Z)
    (l1 l2 : list nat) (i : nat) (a : T) :
  ix i = r ->
  (forall j, In j l2 -> ix j <> r) ->
  fold_left (fun acc j => if Z.eqb (ix j) r then u j else acc) (l1 ++ i :: l2) a = u i.
Proof.
  intros Hi Hl2. rewrite fold_left_app. cbn.
  rewrite Hi, Z.eqb_refl.
  apply (scatter_fold_untouched (fun _ new => new)). exact Hl2.
Qed.

Lemma seq_split_at (i n : nat) :
  i < n -> seq 0 n = seq 0 i ++ i :: seq (S i) (n - S i).
Proof.
  intros H. replace n with (i + S (n - S i)) at 1 by lia.
  rewrite seq_app. reflexivity.
Qed.

Lemma update_cache_overwrites (cache values : Tensor T) (ids : Tensor Z) (g : Graph) :
  List.length (sizes ids) = 1 ->
  exists updated,
    update_cache cache ids values g =
    (inr updated, g ++ [mkInstr (OpScatter "assign") (dtype values) (sizes cache)]) /\
    dtype updated = dtype values /\
    sizes updated = sizes cache /\
    overwritten cache ids values updated.
Proof.
  intros Hrank.
  destruct ids as [di [|s0 [|s1 si]] ei]; cbn in Hrank; try discriminate.
  unfold update_cache, Scatter. cbn.
  eexists. split; [reflexivity|]. cbn. repeat split.
  - intros Hno. unfold scatter_index. cbn.
    apply (scatter_fold_untouched (fun _ new => new)).
    intros i Hi. apply Hno. apply in_seq in Hi. lia.
  - intros i Hi Hp Hlast. unfold scatter_index. cbn.
    set (n := nth 0 (sizes values) 0) in *.
    rewrite (seq_split_at i n Hi).
    apply scatter_fold_last; [exact Hp|].
    intros j Hj. apply Hlast. apply in_seq in Hj. lia.
Qed.

(** C6, as the code has it.  For one-dimensional cache ids,
    [fused_kv_update_cache] emits exactly two instructions: one scatter
    for the keys and one for the values, each applied to the cache in
    its own four-dimensional shape, indexed along its first dimension
    by the cache ids as given, with the overwrite combiner.  Each
    result is the cache with the new slices in place, the last write to
    a position winning. *)
Theorem fused_kv_update_cache_1d_scatters
    (cached_keys cached_vals keys vals : Tensor T) (cache_ids : Tensor Z)
    (start_ids : option (Tensor Z)) (neuron_config : option NeuronConfig)
    (H1d : List.length (sizes cache_ids) = 1) :
  exists updated_keys updated_vals,
    run (fused_kv_update_cache cached_keys cached_vals cache_ids keys vals
           start_ids neuron_config) [] =
    (inr (updated_keys, updated_vals),
     [mkInstr (OpScatter "assign") (dtype keys) (sizes cached_keys);
      mkInstr (OpScatter "assign") (dtype vals) (sizes cached_vals)]) /\
    sizes updated_keys = sizes cached_keys /\
    sizes updated_vals = sizes cached_vals /\
    overwritten cached_keys cache_ids keys updated_keys /\
    overwritten cached_vals cache_ids vals updated_vals.
Proof.
  unfold run, fused_kv_update_cache. rewrite H1d. cbn [Nat.ltb Nat.leb negb].
  destruct (update_cache_overwrites cached_keys keys cache_ids [] H1d)
    as (uk & Hk & _ & Hsk & Hok).
  rewrite (bind_inr _ _ _ _ _ Hk).
  destruct (update_cache_overwrites cached_vals vals cache_ids
              ([] ++ [mkInstr (OpScatter "assign") (dtype keys) (sizes cached_keys)]) H1d)
    as (uv & Hv & _ & Hsv & Hov).
  rewrite (bind_inr _ _ _ _ _ Hv).
  exists uk, uv. cbn. auto.
Qed.

(** ** Rejection of indivisible head counts *)

(** C3, as the code has it.  In shard-over-head mode with unfused
    weights, a per-shard query-head count that is not a multiple of the
    repeat factor [hidden_size_tp // kv_hidden_size_tp] makes
    [query_key_value] fail at construction time: with an assertion
    error when the repeat factor is at least one, with a division by
    zero when it is zero or cannot be formed (no key columns, or more
    key columns than query columns).  By then the transpose and reshape
    of the hidden state and the three projections are in the graph, and
    nothing is emitted after them. *)
Theorem query_key_value_rejects_indivisible
    (hidden q_weight k_weight v_weight : Tensor T)
    (q_scales q_bias k_scales k_bias v_scales v_bias : option (Tensor T))
    (d_head : nat) (tp_degree : option nat) (neuron_config : option NeuronConfig)
    (n_head : option nat) (n_kv_head : nat)
    (n_seqs n_active_tokens hs hidden_size hidden_size_tp kv0 kv_hidden_size_tp : nat)
    (Hh : sizes hidden = [n_seqs; n_active_tokens; hs])
    (Hq : sizes q_weight = [hidden_size; hidden_size_tp])
    (Hk : sizes k_weight = [kv0; kv_hidden_size_tp])
    (Hfuse : fused neuron_config = false)
    (Hd : d_head <> 0)
    (Hbad : hidden_size_tp / kv_hidden_size_tp = 0 \/
            (hidden_size_tp / d_head) mod (hidden_size_tp / kv_hidden_size_tp) <> 0) :
  exists e,
    run (query_key_value hidden q_weight q_scales q_bias
           (Some k_weight) k_scales k_bias (Some v_weight) v_scales v_bias
           d_head tp_degree neuron_config false n_head n_kv_head) [] =
    (inl e,
     [mkInstr (OpHlo "transpose210") (dtype hidden) [hs; n_active_tokens; n_seqs];
      mkInstr OpReshape (dtype hidden) [hidden_size; n_active_tokens * n_seqs];
      mkInstr (OpHlo "dot00_add1") (dtype hidden)
              [n_active_tokens * n_seqs; hidden_size_tp];
      mkInstr (OpHlo "dot00_add1") (dtype hidden)
              [n_active_tokens * n_seqs; kv_hidden_size_tp];
      mkInstr (OpHlo "dot00_add1") (dtype hidden)
              [n_active_tokens * n_seqs; nth 1 (sizes v_weight) 0]]) /\
    (hidden_size_tp / kv_hidden_size_tp <> 0 -> exists msg, e = AssertionError msg) /\
    (hidden_size_tp / kv_hidden_size_tp = 0 -> e = ZeroDivisionError).
Proof.
  destruct hidden as [dh sh eh], q_weight as [dq sq eq_], k_weight as [dk sk ek].
  cbn in Hh, Hq, Hk. subst sh sq sk.
  unfold run, query_key_value, qkv_project. fold (fused neuron_config).
  rewrite Hfuse.
  destruct d_head as [|d']; [contradiction|].
  destruct kv_hidden_size_tp as [|kv'].
  - cbn -[Nat.div Nat.modulo Nat.mul str_nat String.append].
    eexists. split; [reflexivity|]. split.
    + intros H. exfalso. apply H. reflexivity.
    + reflexivity.
  - cbn -[Nat.div Nat.modulo Nat.mul str_nat String.append].
    destruct (hidden_size_tp / S kv') as [|r] eqn:Er.
    + cbn -[Nat.div Nat.modulo Nat.mul str_nat String.append].
      eexists. split; [reflexivity|]. split.
      * intros H. exfalso. apply H. reflexivity.
      * reflexivity.
    + destruct Hbad as [H0|Hbad]; [discriminate H0|].
      cbn -[Nat.div Nat.modulo Nat.mul str_nat String.append Nat.leb].
      destruct (S r <=? hidden_size_tp / S d') eqn:Ele;
        cbn -[Nat.div Nat.modulo Nat.mul str_nat String.append Nat.leb].
      * destruct (Nat.eqb_spec (hidden_size_tp / S d' mod S r) 0) as [E|_];
          [contradiction|].
        cbn -[Nat.div Nat.modulo Nat.mul str_nat String.append].
        eexists. split; [reflexivity|]. split.
        -- intros _. eexists. reflexivity.
        -- intros H. discriminate H.
      * eexists. split; [reflexivity|]. split.
        -- intros _. eexists. reflexivity.
        -- intros H. discriminate H.
Qed.

(** ** Fused and unfused projections *)

Lemma fold_left_ext_in {A B} (f g : A -> B -> A) (l : list B) (a : A) :
  (forall acc k, In k l -> f acc k = g acc k) ->
  fold_left f l a = fold_left g l a.
Proof.
  revert a. induction l as [|x l IH]; intros a H; cbn; [reflexivity|].
  rewrite (H a x) by (left; reflexivity).
  apply IH. intros acc k Hk. apply H. right. exact Hk.
Qed.






(** ** Split and combined context *)

Lemma fold_left_map_fun {A B C} (f : A -> B -> A) (g : C -> B) (l : list C) (a : A) :
  fold_left f (map g l) a = fold_left (fun acc k => f acc (g k)) l a.
Proof.
  revert a. induction l as [|x l IH]; intros a; cbn; [reflexivity | apply IH].
Qed.

Lemma fold_seq_shift {A} (f : A -> nat -> A) (n m : nat) (a : A) :
  fold_left f (seq n m) a = fold_left (fun acc k => f acc (n + k)) (seq 0 m) a.
Proof.
  rewrite <- (Nat.add_0_r n) at 1. generalize 0 as o.
  revert a. induction m as [|m IH]; intros a o; cbn; [reflexivity|].
  rewrite <- IH. f_equal. rewrite Nat.add_succ_r. reflexivity.
Qed.

(** A fold over a row that consists of a past and an active segment
    runs over the past segment first and goes on over the active one. *)
Lemma fold_seq_partition {A} (op : A -> T -> A) (t tp ta : nat -> T)
    (np na : nat) (z : A) :
  (forall k, k < np -> t k = tp k) ->
  (forall k, t (np + k) = ta k) ->
  fold_left (fun acc k => op acc (t k)) (seq 0 (np + na)) z =
  fold_left (fun acc k => op acc (ta k)) (seq 0 na)
            (fold_left (fun acc k => op acc (tp k)) (seq 0 np) z).
Proof.
  intros Hp Ha. rewrite seq_app, fold_left_app. cbn [Nat.add].
  rewrite (fold_seq_shift (fun acc k => op acc (t k)) np na).
  rewrite (fold_left_ext_in (fun acc k => op acc (t k)) (fun acc k => op acc (tp k)))
    by (intros acc k Hk; apply in_seq in Hk; rewrite Hp by lia; reflexivity).
  apply fold_left_ext_in. intros acc k _. rewrite Ha. reflexivity.
Qed.

Section Exact.

Context `{EA : !ExactArith T}.

Lemma fold_max_acc (t : nat -> T) (l : list nat) (a c : T) :
  fold_left (fun acc k => emax f32 acc (t k)) l (emax f32 a c) =
  emax f32 a (fold_left (fun acc k => emax f32 acc (t k)) l c).
Proof.
  revert c. induction l as [|x l IH]; intros c; cbn; [reflexivity|].
  rewrite <- max_assoc. apply IH.
Qed.

Lemma fold_max_merge (t u : nat -> T) (l1 l2 : list nat) (z : T) :
  fold_left (fun acc k => emax f32 acc (u k)) l2
            (fold_left (fun acc k => emax f32 acc (t k)) l1 z) =
  emax f32 (fold_left (fun acc k => emax f32 acc (t k)) l1 z)
           (fold_left (fun acc k => emax f32 acc (u k)) l2 z).
Proof.
  set (F := fold_left (fun acc k => emax f32 acc (t k)) l1 z).
  assert (HF : emax f32 F z = F).
  { unfold F. rewrite max_comm, <- fold_max_acc, max_idem. reflexivity. }
  rewrite <- HF at 1. apply fold_max_acc.
Qed.

Lemma fold_add_acc (t : nat -> T) (l : list nat) (a c : T) :
  fold_left (fun acc k => eadd f32 acc (t k)) l (eadd f32 a c) =
  eadd f32 a (fold_left (fun acc k => eadd f32 acc (t k)) l c).
Proof.
  revert c. induction l as [|x l IH]; intros c; cbn; [reflexivity|].
  rewrite <- add_assoc. apply IH.
Qed.

Lemma fold_add_merge (t u : nat -> T) (l1 l2 : list nat) :
  fold_left (fun acc k => eadd f32 acc (u k)) l2
            (fold_left (fun acc k => eadd f32 acc (t k)) l1 (econst f32 (PyInt 0))) =
  eadd f32 (fold_left (fun acc k => eadd f32 acc (t k)) l1 (econst f32 (PyInt 0)))
           (fold_left (fun acc k => eadd f32 acc (u k)) l2 (econst f32 (PyInt 0))).
Proof.
  rewrite <- fold_add_acc, add_zero_r. reflexivity.
Qed.

(** Dividing every weight by [D] divides the weighted sum by [D]. *)
Lemma fold_weighted_div (e v : nat -> T) (D : T) (l : list nat) (a : T) :
  fold_left (fun acc k => eadd f32 acc (emul f32 (ediv f32 (e k) D) (v k))) l
            (ediv f32 a D) =
  ediv f32 (fold_left (fun acc k => eadd f32 acc (emul f32 (e k) (v k))) l a) D.
Proof.
  revert a. induction l as [|x l IH]; intros a; cbn; [reflexivity|].
  rewrite mul_div_l, <- div_add_distr. apply IH.
Qed.

Lemma fold_weighted_div_zero (e v : nat -> T) (D : T) (l : list nat) :
  fold_left (fun acc k => eadd f32 acc (emul f32 (ediv f32 (e k) D) (v k))) l
            (econst f32 (PyInt 0)) =
  ediv f32 (fold_left (fun acc k => eadd f32 acc (emul f32 (e k) (v k))) l
                      (econst f32 (PyInt 0))) D.
Proof.
  rewrite <- (div_zero_l D) at 1. apply fold_weighted_div.
Qed.

(** One entry of the attention output, computed the split way and the
    combined way, over a score row [s] made of [sp] then [sa] and value
    rows [v] made of [vp] then [va]. *)
Lemma attention_row_equiv (sp sa s vp va v : nat -> T) (np na : nat) :
  (forall k, k < np -> s k = sp k) ->
  (forall k, s (np + k) = sa k) ->
  (forall k, k < np -> v k = vp k) ->
  (forall k, v (np + k) = va k) ->
  ediv f32
    (eadd f32
       (fold_left
          (fun acc k =>
             eadd f32 acc
               (emul f32
                  (eexp f32 (esub f32 (sp k)
                     (emax f32
                        (fold_left (emax f32) (map sp (seq 0 np)) (econst f32 PyNegInf))
                        (fold_left (emax f32) (map sa (seq 0 na)) (econst f32 PyNegInf)))))
                  (vp k)))
          (seq 0 np) (econst f32 (PyInt 0)))
       (fold_left
          (fun acc k =>
             eadd f32 acc
               (emul f32
                  (eexp f32 (esub f32 (sa k)
                     (emax f32
                        (fold_left (emax f32) (map sp (seq 0 np)) (econst f32 PyNegInf))
                        (fold_left (emax f32) (map sa (seq 0 na)) (econst f32 PyNegInf)))))
                  (va k)))
          (seq 0 na) (econst f32 (PyInt 0))))
    (eadd f32
       (fold_left (eadd f32)
          (map (fun k =>
                  eexp f32 (esub f32 (sp k)
                    (emax f32
                       (fold_left (emax f32) (map sp (seq 0 np)) (econst f32 PyNegInf))
                       (fold_left (emax f32) (map sa (seq 0 na)) (econst f32 PyNegInf)))))
               (seq 0 np))
          (econst f32 (PyInt 0)))
       (fold_left (eadd f32)
          (map (fun k =>
                  eexp f32 (esub f32 (sa k)
                    (emax f32
                       (fold_left (emax f32) (map sp (seq 0 np)) (econst f32 PyNegInf))
                       (fold_left (emax f32) (map sa (seq 0 na)) (econst f32 PyNegInf)))))
               (seq 0 na))
          (econst f32 (PyInt 0)))) =
  fold_left
    (fun acc k =>
       eadd f32 acc
         (emul f32
            (ediv f32
               (eexp f32 (esub f32 (s k)
                  (fold_left (emax f32) (map s (seq 0 (np + na))) (econst f32 PyNegInf))))
               (fold_left (eadd f32)
                  (map (fun k0 =>
                          eexp f32 (esub f32 (s k0)
                            (fold_left (emax f32) (map s (seq 0 (np + na)))
                                       (econst f32 PyNegInf))))
                       (seq 0 (np + na)))
                  (econst f32 (PyInt 0))))
            (v k)))
    (seq 0 (np + na)) (econst f32 (PyInt 0)).
Proof.
  intros Hsp Hsa Hvp Hva.
  assert (HM : fold_left (emax f32) (map s (seq 0 (np + na))) (econst f32 PyNegInf) =
               emax f32
                 (fold_left (emax f32) (map sp (seq 0 np)) (econst f32 PyNegInf))
                 (fold_left (emax f32) (map sa (seq 0 na)) (econst f32 PyNegInf))).
  { rewrite !fold_left_map_fun.
    rewrite (fold_seq_partition (emax f32) s sp sa np na _ Hsp Hsa).
    apply fold_max_merge. }
  rewrite HM.
  set (M := emax f32 _ _).
  rewrite !fold_left_map_fun.
  rewrite (fold_seq_partition (eadd f32)
             (fun k => eexp f32 (esub f32 (s k) M))
             (fun k => eexp f32 (esub f32 (sp k) M))
             (fun k => eexp f32 (esub f32 (sa k) M)) np na)
    by (intros k; try intros Hk; rewrite ?Hsa, ?Hsp by assumption; reflexivity).
  rewrite fold_add_merge.
  match goal with |- ediv f32 _ ?d = _ => set (D := d) end.
  rewrite (fold_weighted_div_zero (fun k => eexp f32 (esub f32 (s k) M)) v D).
  f_equal.
  rewrite (fold_seq_partition (eadd f32)
             (fun k => emul f32 (eexp f32 (esub f32 (s k) M)) (v k))
             (fun k => emul f32 (eexp f32 (esub f32 (sp k) M)) (vp k))
             (fun k => emul f32 (eexp f32 (esub f32 (sa k) M)) (va k)) np na)
    by (intros k; try intros Hk;
        rewrite ?Hsa, ?Hva, ?Hsp, ?Hvp by assumption; reflexivity).
  rewrite fold_add_merge. reflexivity.
Qed.

(** Every element type computes in f32 and conversions are exact. *)
Ltac exact_arith :=
  repeat match goal with
         | |- context [ecast ?d] => rewrite (cast_exact d)
         | |- context [econst ?d] =>
           lazymatch d with f32 => fail | _ => rewrite (const_indep d) end
         | |- context [eadd ?d] =>
           lazymatch d with f32 => fail | _ => rewrite (add_indep d) end
         | |- context [esub ?d] =>
           lazymatch d with f32 => fail | _ => rewrite (sub_indep d) end
         | |- context [emul ?d] =>
           lazymatch d with f32 => fail | _ => rewrite (mul_indep d) end
         | |- context [ediv ?d] =>
           lazymatch d with f32 => fail | _ => rewrite (div_indep d) end
         | |- context [emax ?d] =>
           lazymatch d with f32 => fail | _ => rewrite (max_indep d) end
         | |- context [eexp ?d] =>
           lazymatch d with f32 => fail | _ => rewrite (exp_indep d) end
         end;
  cbv beta.

Lemma divmod_step (q s i : nat) :
  i < s -> (q * s + i) mod s = i /\ (q * s + i) / s = q.
Proof.
  intros H. split.
  - rewrite Nat.add_comm, Nat.Div0.mod_add. apply Nat.mod_small. exact H.
  - rewrite Nat.div_add_l by lia. rewrite Nat.div_small by exact H. lia.
Qed.

(** Reshaping a rank-four tensor to its own shape leaves every entry
    within bounds where it is. *)
Lemma unravel_ravel4 (s0 s1 s2 s3 a b c d : nat) :
  a < s0 -> b < s1 -> c < s2 -> d < s3 ->
  unravel [s0; s1; s2; s3] (ravel [s0; s1; s2; s3] [a; b; c; d]) = [a; b; c; d].
Proof.
  intros Ha Hb Hc Hd. unfold unravel, ravel. cbn -[Nat.div Nat.modulo Nat.mul].
  destruct (divmod_step ((a * s1 + b) * s2 + c) s3 d Hd) as [M3 D3].
  destruct (divmod_step (a * s1 + b) s2 c Hc) as [M2 D2].
  destruct (divmod_step a s1 b Hb) as [M1 D1].
  rewrite Nat.mul_0_l, Nat.add_0_l.
  rewrite M3, D3, M2, D2, M1, D1.
  rewrite (Nat.mod_small a s0 Ha). reflexivity.
Qed.

(** C1, as the code has it.  Let the score tensor consist of the past
    scores followed by the active scores along the last dimension, and
    the value tensor of the past values followed by the active values
    along the position dimension.  Without sparse masks, and unless the
    combined operation re-shards its result (grouped-query attention
    sharded over the batch), the split context operation on the parts
    and the combined context operation on the whole return tensors of
    the same shape whose entries agree in exact arithmetic, rounding
    and overflow aside: both are softmax(S) @ V. *)
Theorem split_context_equals_combined
    (past_scores active_score score past_values active_values values : Tensor T)
    (n_kv_heads : nat) (dtype_ : option DType)
    (neuron_config : option NeuronConfig) (tp_degree : option nat)
    (n_seqs n_heads_tp n_active_tokens n_positions n_kv_heads_tp d_head : nat)
    (Hsp : sizes past_scores = [n_seqs; n_heads_tp; n_active_tokens; n_positions])
    (Hsa : sizes active_score = [n_seqs; n_heads_tp; n_active_tokens; n_active_tokens])
    (Hs : sizes score =
          [n_seqs; n_heads_tp; n_active_tokens; n_positions + n_active_tokens])
    (Hvp : sizes past_values =
           value_sizes (bsh_layout neuron_config) n_positions n_seqs n_kv_heads_tp d_head)
    (Hva : sizes active_values =
           value_sizes (bsh_layout neuron_config) n_active_tokens n_seqs
                       n_kv_heads_tp d_head)
    (Hv : sizes values =
          value_sizes (bsh_layout neuron_config) (n_positions + n_active_tokens)
                      n_seqs n_kv_heads_tp d_head)
    (Hscores : partitioned_scores score past_scores active_score n_positions)
    (Hvalues : partitioned_values (bsh_layout neuron_config) values past_values
                 active_values n_positions)
    (Hkv : n_kv_heads <> 0 -> n_kv_heads_tp <> 0)
    (Hshard : n_kv_heads <> 0 -> fst (config_flags neuron_config) = false) :
  exists o1 g1 o2 g2,
    run (context past_scores active_score past_values active_values n_kv_heads
           dtype_ None None neuron_config tp_degree) [] = (inr o1, g1) /\
    run (context_combined score values tp_degree n_kv_heads dtype_ None
           neuron_config) [] = (inr o2, g2) /\
    sizes o1 = sizes o2 /\
    forall b i h d,
      b < n_seqs -> i < n_active_tokens -> h < n_heads_tp -> d < d_head ->
      elem o1 [b; i; h; d] = elem o2 [b; i; h; d].
Proof.
  destruct past_scores as [dsp ssp esp], active_score as [dsa ssa esa],
           score as [ds ss es], past_values as [dvp svp evp],
           active_values as [dva sva eva], values as [dv sv ev].
  unfold bsh_layout, partitioned_scores, partitioned_values in *.
  cbn [sizes elem] in *.
  unfold run, context, context_combined.
  destruct (config_flags neuron_config) as [sob bsh].
  cbn [fst snd] in *. subst.
  destruct n_kv_heads as [|nkv].
  - destruct bsh; cbn -[Nat.div Nat.mul unravel ravel];
      eexists _, _, _, _; (split; [reflexivity|]); (split; [reflexivity|]);
      (split; [reflexivity|]); intros b i h d Hb Hi Hh Hd;
      cbn -[Nat.div Nat.mul unravel ravel]; exact_arith.
    + apply (attention_row_equiv
               (fun k => esp [b; h; i; k]) (fun k => esa [b; h; i; k])
               (fun k => es [b; h; i; k])
               (fun k => evp [b; k; h; d]) (fun k => eva [b; k; h; d])
               (fun k => ev [b; k; h; d]));
        intros; first [apply Hscores | apply (Hvalues b h d)]; assumption.
    + apply (attention_row_equiv
               (fun k => esp [b; h; i; k]) (fun k => esa [b; h; i; k])
               (fun k => es [b; h; i; k])
               (fun k => evp [k; b; h; d]) (fun k => eva [k; b; h; d])
               (fun k => ev [k; b; h; d]));
        intros; first [apply Hscores | apply (Hvalues b h d)]; assumption.
  - rewrite Hshard in * by discriminate.
    assert (Hk0 : n_kv_heads_tp <> 0) by (apply Hkv; discriminate).
    destruct n_kv_heads_tp as [|kv']; [contradiction|].
    destruct bsh; cbn -[Nat.div Nat.mul unravel ravel];
      eexists _, _, _, _; (split; [reflexivity|]); (split; [reflexivity|]);
      (split; [reflexivity|]); intros b i h d Hb Hi Hh Hd;
      cbn -[Nat.div Nat.mul unravel ravel];
      rewrite (unravel_ravel4 _ _ _ _ b h i d Hb Hh Hi Hd);
      cbn -[Nat.div Nat.mul]; exact_arith.
    + apply (attention_row_equiv
               (fun k => esp [b; h; i; k]) (fun k => esa [b; h; i; k])
               (fun k => es [b; h; i; k])
               (fun k => evp [b; k; h / (n_heads_tp / S kv'); d])
               (fun k => eva [b; k; h / (n_heads_tp / S kv'); d])
               (fun k => ev [b; k; h / (n_heads_tp / S kv'); d]));
        intros; first [apply Hscores | apply (Hvalues b _ d)]; assumption.
    + apply (attention_row_equiv
               (fun k => esp [b; h; i; k]) (fun k => esa [b; h; i; k])
               (fun k => es [b; h; i; k])
               (fun k => evp [k; b; h / (n_heads_tp / S kv'); d])
               (fun k => eva [k; b; h / (n_heads_tp / S kv'); d])
               (fun k => ev [k; b; h / (n_heads_tp / S kv'); d]));
        intros; first [apply Hscores | apply (Hvalues b _ d)]; assumption.
Qed.

End Exact.
End Properties.

(** * Concrete runs

    The theorems above, applied to small tensors over the extended
    reals, and the two places where the code departs from a uniform
    reading of its description. *)

(** ** Scores, scaling and element types *)

Lemma scale_divides_score_does_not_witness :
  (exists out g,
     run (scale (constant_tensor f16 [3; 1; 1; 2] 1) 2) [] = (inr out, g) /\
     dtype out = f16 /\ sizes out = [3; 1; 1; 2] /\
     forall idx, elem out idx = Some (1 / sqrt (INR 2))%R) /\
  (exists out g,
     run (score (constant_tensor f16 [3; 1; 1; 2] 1)
                (constant_tensor f16 [4; 1; 1; 2] 5) None 0 None) [] = (inr out, g) /\
     no_scaling g).
Proof.
  destruct (scale_divides_score_does_not
              (constant_tensor f16 [3; 1; 1; 2] 1) (constant_tensor f16 [4; 1; 1; 2] 5)
              2 None 0 None 3 1 1 2 4 1 1 2 eq_refl eq_refl)
    as [(o1 & g1 & R1 & D1 & S1 & E1) (o2 & g2 & R2 & N2 & _)].
  - intros H. exfalso. apply H. reflexivity.
  - split.
    + exists o1, g1. repeat split; assumption.
    + exists o2, g2. split; assumption.
Defined.

Lemma context_default_dtypes_witness :
  exists o1 g1 o2 g2,
    run (context (constant_tensor f32 [1; 1; 1; 2] 0) (constant_tensor f32 [1; 1; 1; 1] 0)
                 (constant_tensor bf16 [2; 1; 1; 1] 1) (constant_tensor bf16 [1; 1; 1; 1] 1)
                 0 None None None None None) [] = (inr o1, g1) /\
    run (context_combined (constant_tensor f32 [1; 1; 1; 3] 0)
                          (constant_tensor bf16 [3; 1; 1; 1] 1)
                          None 0 None None None) [] = (inr o2, g2) /\
    dtype o1 = f32 /\ dtype o2 = bf16 /\ dtype o1 <> dtype o2.
Proof.
  destruct (context_default_dtypes
              (constant_tensor f32 [1; 1; 1; 2] 0) (constant_tensor f32 [1; 1; 1; 1] 0)
              (constant_tensor bf16 [2; 1; 1; 1] 1) (constant_tensor bf16 [1; 1; 1; 1] 1)
              (constant_tensor f32 [1; 1; 1; 3] 0) (constant_tensor bf16 [3; 1; 1; 1] 1)
              0 None None None None
              1 1 1 1 1 1 1 2 2 1 1 1 1 1 1 3 3 1 1 1
              eq_refl eq_refl eq_refl eq_refl eq_refl eq_refl)
    as (o1 & g1 & o2 & g2 & R1 & R2 & D1 & D2 & Hne).
  - intros H. exfalso. apply H. reflexivity.
  - intros H. exfalso. apply H. reflexivity.
  - exists o1, g1, o2, g2. repeat split; try assumption.
    apply Hne. cbn. discriminate.
Defined.

Lemma context_shared_max_and_denominator_witness :
  exists ss g,
    run (context_softmax (constant_tensor f32 [1; 1; 1; 2] 0)
                         (constant_tensor f32 [1; 1; 1; 1] 0) f32
                         (Some second_excluded) (Some all_included)
                         1 1 1 [1; 1; 1; 1]) [] = (inr ss, g) /\
    elem (ss_reduce_max ss) [0; 0; 0] =
      shared_max (constant_tensor f32 [1; 1; 1; 2] 0)
                 (constant_tensor f32 [1; 1; 1; 1] 0) 0 0 0 /\
    elem (ss_exp ss) [0; 0; 0; 0] =
      eexp f32 (esub f32 (Some 0%R)
                  (shared_max (constant_tensor f32 [1; 1; 1; 2] 0)
                              (constant_tensor f32 [1; 1; 1; 1] 0) 0 0 0)) /\
    elem (ss_denom_f32 ss) [0; 0; 0] =
      eadd f32
        (row_fold (eadd f32) (econst f32 (PyInt 0)) 2
           (fun k => elem (ss_exp ss) [0; 0; 0; k]))
        (row_fold (eadd f32) (econst f32 (PyInt 0)) 1
           (fun k => elem (ss_active_exp ss) [0; 0; 0; k])).
Proof.
  destruct (context_shared_max_and_denominator
              (constant_tensor f32 [1; 1; 1; 2] 0) (constant_tensor f32 [1; 1; 1; 1] 0)
              f32 (Some second_excluded) (Some all_included) 1 1 1 [])
    as (ss & g & Hrun & Hss).
  destruct (Hss 0 0 0) as (Hmax & Hexp & _ & Hden).
  exists ss, g. split; [exact Hrun|]. split; [exact Hmax|]. split.
  - apply (Hexp 0). reflexivity.
  - exact Hden.
Defined.

(** ** Sparse masks in the split context *)

(** C2, at a failing input.  With a sparse mask that excludes the
    second of two past positions, the entry of the exponentiated past
    scores at that position is -30000 and not zero: [context] calls
    [mask(exp, sparse_mask, 0)], which binds 0 to [tp_degree] and leaves
    [constant_val] at its default.  The shared maximum is the one
    computed from the unmasked scores.  With all scores 0, value 1 at
    the two included positions and 0 at the excluded one, [context]
    returns 2 / (2 - 30000), where a zero fill would give 2 / 2. *)
Theorem context_sparse_mask_fill_is_not_zero :
  (exists ss g,
     run (context_softmax (constant_tensor f32 [1; 1; 1; 2] 0)
                          (constant_tensor f32 [1; 1; 1; 1] 0) f32
                          (Some second_excluded) (Some all_included)
                          1 1 1 [1; 1; 1; 1]) [] = (inr ss, g) /\
     elem (ss_reduce_max ss) [0; 0; 0] =
       shared_max (constant_tensor f32 [1; 1; 1; 2] 0)
                  (constant_tensor f32 [1; 1; 1; 1] 0) 0 0 0 /\
     elem (ss_exp ss) [0; 0; 0; 1] = Some (-30000)%R /\
     elem (ss_exp ss) [0; 0; 0; 1] <> econst f32 (PyInt 0)) /\
  (exists out g,
     run (context (constant_tensor f32 [1; 1; 1; 2] 0)
                  (constant_tensor f32 [1; 1; 1; 1] 0)
                  (row_tensor f32 [2; 1; 1; 1] 0 1 0)
                  (constant_tensor f32 [1; 1; 1; 1] 1)
                  0 None (Some second_excluded) (Some all_included)
                  None None) [] = (inr out, g) /\
     elem out [0; 0; 0; 0] = Some (2 / (2 - 30000))%R /\
     elem out [0; 0; 0; 0] <> Some (2 / 2)%R).
Proof.
  split.
  - destruct (context_softmax_sparse
                (constant_tensor f32 [1; 1; 1; 2] 0) (constant_tensor f32 [1; 1; 1; 1] 0)
                f32 second_excluded all_included 1 1 1 [])
      as (ss & g & Hrun & Hss).
    destruct (Hss 0 0 0) as (Hmax & Hexp & _).
    exists ss, g. split; [exact Hrun|]. split; [exact Hmax|].
    rewrite (Hexp 1). cbn. split; [reflexivity|].
    intros H. injection H as H. lra.
  - eexists _, _. split; [cbn; reflexivity|].
    cbn. unfold Rmax. repeat destruct (Rle_dec _ _); try lra.
    all: replace (0 - 0)%R with 0%R by ring; rewrite exp_0.
    all: (split; [f_equal; lra | intros H; injection H as H; lra]).
Qed.

(** ** Cache update *)

Lemma fused_kv_update_cache_unsupported_witness :
  exists g,
    run (fused_kv_update_cache
           (constant_tensor f32 [4; 2; 1; 1] 0) (constant_tensor f32 [4; 2; 1; 1] 0)
           (constant_ids [1; 1] 3)
           (constant_tensor f32 [1; 1; 1; 1] 7) (constant_tensor f32 [1; 1; 1; 1] 8)
           None None) [] =
    (inl (NotImplementedError
            "Updating 2D cache_ids is not implemented for n_active_tokens=1, n_positions=4, n_seqs=2, n_active_seqs=1."),
     g).
Proof.
  apply (fused_kv_update_cache_unsupported
           (constant_tensor f32 [4; 2; 1; 1] 0) (constant_tensor f32 [4; 2; 1; 1] 0)
           (constant_tensor f32 [1; 1; 1; 1] 7) (constant_tensor f32 [1; 1; 1; 1] 8)
           (constant_ids [1; 1] 3) None None 4 2 1 1 1 1 1 1 1);
    first [reflexivity | lia].
Defined.

(** C6 does not hold as stated: with one-dimensional cache ids nothing
    is reshaped, the two scatters are all that is emitted. *)
Lemma fused_kv_update_cache_1d_no_reshape :
  ~ emits_reshape
      (snd (run (fused_kv_update_cache
                   (constant_tensor f32 [4; 2; 1; 1] 0)
                   (constant_tensor f32 [4; 2; 1; 1] 0)
                   (constant_ids [1] 3)
                   (constant_tensor f32 [1; 2; 1; 1] 7)
                   (constant_tensor f32 [1; 2; 1; 1] 8)
                   None None) [])).
Proof.
  intros (i & Hin & Hop). cbn in Hin.
  destruct Hin as [<-|[<-|[]]]; discriminate Hop.
Qed.

Lemma fused_kv_update_cache_1d_scatters_witness :
  exists updated_keys updated_vals,
    run (fused_kv_update_cache
           (constant_tensor f32 [4; 2; 1; 1] 0) (constant_tensor f32 [4; 2; 1; 1] 0)
           (constant_ids [1] 3)
           (constant_tensor f32 [1; 2; 1; 1] 7) (constant_tensor f32 [1; 2; 1; 1] 8)
           None None) [] =
    (inr (updated_keys, updated_vals),
     [mkInstr (OpScatter "assign") f32 [4; 2; 1; 1];
      mkInstr (OpScatter "assign") f32 [4; 2; 1; 1]]) /\
    elem updated_keys [3; 1; 0; 0] = Some 7%R /\
    elem updated_keys [2; 1; 0; 0] = Some 0%R.
Proof.
  destruct (fused_kv_update_cache_1d_scatters
              (constant_tensor f32 [4; 2; 1; 1] 0) (constant_tensor f32 [4; 2; 1; 1] 0)
              (constant_tensor f32 [1; 2; 1; 1] 7) (constant_tensor f32 [1; 2; 1; 1] 8)
              (constant_ids [1] 3) None None eq_refl)
    as (uk & uv & Hrun & _ & _ & Hk & _).
  exists uk, uv. split; [exact Hrun|]. split.
  - destruct (Hk 3 [1; 0; 0]) as [_ Hhit].
    apply (Hhit 0); cbn; [lia | reflexivity | intros j Hj; lia].
  - destruct (Hk 2 [1; 0; 0]) as [Hmiss _].
    apply Hmiss. cbn. intros i _. discriminate.
Defined.

(** ** Projections *)

(** C3 does not hold as stated.  Five query heads per shard and a
    repeat factor of two are rejected in shard-over-head mode, but only
    after the transpose, the reshape and the three projections have
    been emitted; in shard-over-batch mode the same sizes are not
    rejected at all. *)
Lemma query_key_value_emits_before_rejecting :
  (10 / 2) mod (10 / 4) <> 0 /\
  ~ rejected_before_any_op
      (query_key_value (constant_tensor f32 [1; 1; 2] 1)
         (column_weight [2; 10] 0) None None
         (Some (column_weight [2; 4] 0)) None None
         (Some (column_weight [2; 4] 0)) None None
         2 None None false None 0) /\
  exists out g,
    run (query_key_value (constant_tensor f32 [1; 1; 2] 1)
           (column_weight [2; 10] 0) None None
           (Some (column_weight [2; 4] 0)) None None
           (Some (column_weight [2; 4] 0)) None None
           2 None None true (Some 5) 2) [] = (inr out, g).
Proof.
  split; [discriminate|]. split.
  - intros (e & H). cbv in H. discriminate H.
  - eexists _, _. cbn. reflexivity.
Qed.

Lemma query_key_value_rejects_indivisible_witness :
  exists msg g,
    run (query_key_value (constant_tensor f32 [1; 1; 2] 1)
           (column_weight [2; 10] 0) None None
           (Some (column_weight [2; 4] 0)) None None
           (Some (column_weight [2; 4] 0)) None None
           2 None None false None 0) [] = (inl (AssertionError msg), g) /\
    List.length g = 5%nat.
Proof.
  destruct (query_key_value_rejects_indivisible
              (constant_tensor f32 [1; 1; 2] 1)
              (column_weight [2; 10] 0) (column_weight [2; 4] 0) (column_weight [2; 4] 0)
              None None None None None None 2 None None None 0
              1 1 2 2 10 2 4 eq_refl eq_refl eq_refl eq_refl)
    as (e & Hrun & Hassert & _).
  - discriminate.
  - right. discriminate.
  - destruct Hassert as [msg ->]; [discriminate|].
    exists msg. eexists. split; [exact Hrun | reflexivity].
Defined.


(** ** Split and combined context *)

Lemma split_context_equals_combined_witness :
  exists o1 g1 o2 g2,
    run (context (constant_tensor f32 [1; 1; 1; 1] 1) (constant_tensor f32 [1; 1; 1; 1] 2)
                 (constant_tensor f32 [1; 1; 1; 1] 3) (constant_tensor f32 [1; 1; 1; 1] 4)
                 0 None None None None None) [] = (inr o1, g1) /\
    run (context_combined (row_tensor f32 [1; 1; 1; 2] 3 1 2)
                          (row_tensor f32 [2; 1; 1; 1] 0 3 4)
                          None 0 None None None) [] = (inr o2, g2) /\
    sizes o1 = sizes o2 /\
    elem o1 [0; 0; 0; 0] = elem o2 [0; 0; 0; 0].
Proof.
  destruct (split_context_equals_combined
              (constant_tensor f32 [1; 1; 1; 1] 1) (constant_tensor f32 [1; 1; 1; 1] 2)
              (row_tensor f32 [1; 1; 1; 2] 3 1 2)
              (constant_tensor f32 [1; 1; 1; 1] 3) (constant_tensor f32 [1; 1; 1; 1] 4)
              (row_tensor f32 [2; 1; 1; 1] 0 3 4)
              0 None None None 1 1 1 1 1 1
              eq_refl eq_refl eq_refl eq_refl eq_refl eq_refl)
    as (o1 & g1 & o2 & g2 & R1 & R2 & Hs & He).
  - intros b h i k. split.
    + intros Hk. destruct k; [reflexivity | lia].
    + reflexivity.
  - intros b h d k. split.
    + intros Hk. destruct k; [reflexivity | lia].
    + reflexivity.
  - discriminate.
  - intros H. exfalso. apply H. reflexivity.
  - exists o1, g1, o2, g2. repeat split; try assumption.
    apply He; lia.
Defined.

(** ** Arithmetic of the ranged numbers at finite operands *)

Lemma ranged_const_int (dt : DType) (z : Z) :
  (-65504 <= IZR z <= 65504)%R -> econst dt (PyInt z) = Ranged.Fin (IZR z).
Proof.
  intros H. destruct dt; cbn; try reflexivity.
  destruct (Rlt_dec 65504 (IZR z)); [lra|].
  destruct (Rlt_dec (IZR z) (-65504)); [lra | reflexivity].
Qed.

Lemma ranged_const_neg_inf (dt : DType) : econst dt PyNegInf = Ranged.NegInf.
Proof. destruct dt; reflexivity. Qed.

Lemma ranged_overflow_fin (dt : DType) (a : R) :
  (-65504 <= a <= 65504)%R -> Ranged.overflow dt (Ranged.Fin a) = Ranged.Fin a.
Proof.
  intros H. destruct dt; cbn; try reflexivity.
  destruct (Rlt_dec 65504 a); [lra|].
  destruct (Rlt_dec a (-65504)); [lra | reflexivity].
Qed.

Lemma ranged_cast_fin (dt : DType) (a : R) :
  (-65504 <= a <= 65504)%R -> ecast dt (Ranged.Fin a) = Ranged.Fin a.
Proof. apply ranged_overflow_fin. Qed.

Lemma ranged_add_fin (dt : DType) (a b : R) :
  (-65504 <= a + b <= 65504)%R ->
  eadd dt (Ranged.Fin a) (Ranged.Fin b) = Ranged.Fin (a + b).
Proof. apply ranged_overflow_fin. Qed.

Lemma ranged_add_overflows (a b : R) :
  (65504 < a + b)%R -> eadd f16 (Ranged.Fin a) (Ranged.Fin b) = Ranged.PosInf.
Proof.
  intros H. cbn. destruct (Rlt_dec 65504 (a + b)); [reflexivity | lra].
Qed.

Lemma ranged_add_inf (dt : DType) (b : R) :
  eadd dt Ranged.PosInf (Ranged.Fin b) = Ranged.PosInf.
Proof. destruct dt; reflexivity. Qed.

Lemma ranged_sub_same (dt : DType) (a : R) :
  esub dt (Ranged.Fin a) (Ranged.Fin a) = Ranged.Fin 0.
Proof.
  cbn. replace (a + - a)%R with 0%R by ring. apply ranged_overflow_fin. lra.
Qed.

Lemma ranged_mul_fin (dt : DType) (a b : R) :
  (-65504 <= a * b <= 65504)%R ->
  emul dt (Ranged.Fin a) (Ranged.Fin b) = Ranged.Fin (a * b).
Proof. apply ranged_overflow_fin. Qed.

Lemma ranged_div_fin (dt : DType) (a b : R) :
  (0 < b)%R -> (-65504 <= a / b <= 65504)%R ->
  ediv dt (Ranged.Fin a) (Ranged.Fin b) = Ranged.Fin (a / b).
Proof.
  intros Hb H. cbn. destruct (Req_dec_T b 0); [lra|].
  apply ranged_overflow_fin. exact H.
Qed.

Lemma ranged_div_inf (dt : DType) (b : R) :
  (0 < b)%R -> ediv dt Ranged.PosInf (Ranged.Fin b) = Ranged.PosInf.
Proof.
  intros H. cbn. destruct (Rlt_dec b 0); [lra|]. destruct dt; reflexivity.
Qed.

Lemma ranged_max_same (dt : DType) (a : R) :
  (-65504 <= a <= 65504)%R ->
  emax dt (Ranged.Fin a) (Ranged.Fin a) = Ranged.Fin a.
Proof.
  intros Ha. cbn. rewrite Rmax_left by lra. apply ranged_overflow_fin. exact Ha.
Qed.

Lemma ranged_max_neg_inf (dt : DType) (b : R) :
  (-65504 <= b <= 65504)%R ->
  emax dt Ranged.NegInf (Ranged.Fin b) = Ranged.Fin b.
Proof. apply ranged_overflow_fin. Qed.

Lemma ranged_exp_zero (dt : DType) : eexp dt (Ranged.Fin 0) = Ranged.Fin 1.
Proof. cbn. rewrite exp_0. apply ranged_overflow_fin. lra. Qed.

(** One step of a computation on finite operands within range, or
    past it. *)
Ltac ranged_step :=
  first
    [ rewrite ranged_const_neg_inf
    | rewrite ranged_const_int by lra
    | rewrite ranged_cast_fin by lra
    | rewrite ranged_max_neg_inf by lra
    | rewrite ranged_max_same by lra
    | rewrite ranged_sub_same
    | rewrite ranged_exp_zero
    | rewrite ranged_mul_fin by lra
    | rewrite ranged_add_fin by lra
    | rewrite ranged_add_overflows by lra
    | rewrite ranged_add_inf
    | rewrite ranged_div_fin by lra
    | rewrite ranged_div_inf by lra ].

(** C1 does not hold as stated, in two ways.  With grouped-query
    attention sharded over the batch, [context_combined] re-shards its
    result across the [tp_degree] shards and [context] does not: on
    scores and values that are the same, partitioned into a past and an
    active position, the two operations return tensors of different
    shapes.  And in an arithmetic with the finite range of f16, the
    split operation, which adds up the unnormalised products before it
    divides, overflows where the combined operation, which normalises
    first, does not: with equal scores over three positions and the
    value 60000 at each, the split operation returns an infinity and
    the combined one 60000. *)
Lemma split_context_differs_from_combined :
  (partitioned_scores (constant_tensor f32 [1; 2; 1; 2] 0)
     (constant_tensor f32 [1; 2; 1; 1] 0) (constant_tensor f32 [1; 2; 1; 1] 0) 1 /\
   partitioned_values false (constant_tensor f32 [2; 1; 1; 1] 1)
     (constant_tensor f32 [1; 1; 1; 1] 1) (constant_tensor f32 [1; 1; 1; 1] 1) 1 /\
   exists o1 g1 o2 g2,
     run (context (constant_tensor f32 [1; 2; 1; 1] 0)
                  (constant_tensor f32 [1; 2; 1; 1] 0)
                  (constant_tensor f32 [1; 1; 1; 1] 1)
                  (constant_tensor f32 [1; 1; 1; 1] 1)
                  1 None None None
                  (Some (mkNeuronConfig false LAYOUT_SBH (Some SHARD_OVER_BATCH)))
                  (Some 2)) [] = (inr o1, g1) /\
     run (context_combined (constant_tensor f32 [1; 2; 1; 2] 0)
                           (constant_tensor f32 [2; 1; 1; 1] 1)
                           (Some 2) 1 None None
                           (Some (mkNeuronConfig false LAYOUT_SBH (Some SHARD_OVER_BATCH))))
         [] = (inr o2, g2) /\
     sizes o1 = [1; 1; 2; 1] /\
     sizes o2 = [2; 1; 1; 1] /\
     sizes o1 <> sizes o2) /\
  (partitioned_scores (ranged_tensor f32 [1; 1; 1; 3] 0)
     (ranged_tensor f32 [1; 1; 1; 2] 0) (ranged_tensor f32 [1; 1; 1; 1] 0) 2 /\
   partitioned_values false (ranged_tensor f16 [3; 1; 1; 1] 60000)
     (ranged_tensor f16 [2; 1; 1; 1] 60000) (ranged_tensor f16 [1; 1; 1; 1] 60000) 2 /\
   exists o1 g1 o2 g2,
     run (context (ranged_tensor f32 [1; 1; 1; 2] 0) (ranged_tensor f32 [1; 1; 1; 1] 0)
                  (ranged_tensor f16 [2; 1; 1; 1] 60000)
                  (ranged_tensor f16 [1; 1; 1; 1] 60000)
                  0 (Some f16) None None None None) [] = (inr o1, g1) /\
     run (context_combined (ranged_tensor f32 [1; 1; 1; 3] 0)
                           (ranged_tensor f16 [3; 1; 1; 1] 60000)
                           None 0 (Some f16) None None) [] = (inr o2, g2) /\
     sizes o1 = sizes o2 /\
     elem o1 [0; 0; 0; 0] = Ranged.PosInf /\
     elem o2 [0; 0; 0; 0] = Ranged.Fin 60000 /\
     elem o1 [0; 0; 0; 0] <> elem o2 [0; 0; 0; 0]).
Proof.
  split.
  - split; [intros b h i k; split; reflexivity|].
    split; [intros b h d k; split; reflexivity|].
    eexists _, _, _, _.
    split; [cbn; reflexivity|]. split; [cbn; reflexivity|].
    cbn. repeat split. discriminate.
  - split; [intros b h i k; split; reflexivity|].
    split; [intros b h d k; split; reflexivity|].
    eexists _, _, _, _.
    split; [cbn -[eadd esub emul ediv emax eexp ecast econst]; reflexivity|].
    split; [cbn -[eadd esub emul ediv emax eexp ecast econst]; reflexivity|].
    split; [reflexivity|].
    cbn -[eadd esub emul ediv emax eexp ecast econst].
    repeat ranged_step.
    assert (E : (0 + 1 / (0 + 1 + 1 + 1) * 60000 + 1 / (0 + 1 + 1 + 1) * 60000 +
                 1 / (0 + 1 + 1 + 1) * 60000 = 60000)%R) by lra.
    rewrite E. repeat split. discriminate.
Qed.

(** * Further properties *)

Section Further.

Context {T : Type} `{ET : Elem T} `{XT : External T} `{RT : Reduction T}.

(** ** [update_cache] *)

Lemma last_hit_fold (ix : nat -> Z) (u : nat -> T) (r : Z) (l : list nat)
    (o : option nat) (a : T) :
  fold_left (fun acc i => if Z.eqb (ix i) r then u i else acc) l
            (match o with Some i => u i | None => a end) =
  match fold_left (fun acc i => if Z.eqb (ix i) r then Some i else acc) l o with
  | Some i => u i
  | None => a
  end.
Proof.
  revert o. induction l as [|x l IH]; intros o; cbn; [reflexivity|].
  destruct (Z.eqb (ix x) r).
  - apply (IH (Some x)).
  - apply IH.
Qed.

Lemma last_hit_from_some (ix : nat -> Z) (r : Z) (l : list nat) (o : option nat)
    (i : nat) :
  fold_left (fun acc j => if Z.eqb (ix j) r then Some j else acc) l o = Some i ->
  (In i l /\ ix i = r) \/ o = Some i.
Proof.
  revert o. induction l as [|x l IH]; intros o H; cbn in H; [right; exact H|].
  destruct (IH _ H) as [[Hin Hix]|Ho].
  - left. split; [right; exact Hin | exact Hix].
  - destruct (Z.eqb_spec (ix x) r) as [E|_].
    + injection Ho as <-. left. split; [left; reflexivity | exact E].
    + right. exact Ho.
Qed.

Lemma last_hit_some (ix : nat -> Z) (r : Z) (l : list nat) (i : nat) :
  last_hit ix l r = Some i -> In i l /\ ix i = r.
Proof.
  intros H. destruct (last_hit_from_some ix r l None i H) as [H'|H'];
    [exact H' | discriminate H'].
Qed.

(** Every entry of an updated cache: the slice of the last update that
    writes to its position, or the entry of the cache. *)
Lemma update_cache_entries (cache values : Tensor T) (ids : Tensor Z) (g : Graph) :
  List.length (sizes ids) = 1 ->
  exists updated,
    update_cache cache ids values g =
    (inr updated, g ++ [mkInstr (OpScatter "assign") (dtype values) (sizes cache)]) /\
    dtype updated = dtype values /\
    sizes updated = sizes cache /\
    elem updated [] = elem cache [] /\
    forall p w,
      elem updated (p :: w) =
      match last_hit (fun i => elem ids [i]) (seq 0 (nth 0 (sizes values) 0))
                     (Z.of_nat p) with
      | Some i => elem values (i :: w)
      | None => elem cache (p :: w)
      end.
Proof.
  intros Hrank.
  destruct ids as [di [|s0 [|s1 si]] ei]; cbn in Hrank; try discriminate.
  unfold update_cache, Scatter. cbn.
  eexists. split; [reflexivity|]. cbn. repeat split.
  intros p w. unfold scatter_index, last_hit. cbn.
  apply (last_hit_fold (fun i => ei [i]) (fun i => elem values (i :: w))
           (Z.of_nat p) _ None).
Qed.

(** X1. Two updates of a cache through one-dimensional ids that write
    to disjoint positions give the same entries in either order. *)
Theorem update_cache_disjoint_commute
    (cache values1 values2 : Tensor T) (ids1 ids2 : Tensor Z)
    (H1 : List.length (sizes ids1) = 1)
    (H2 : List.length (sizes ids2) = 1)
    (Hdisjoint : disjoint_ids ids1 ids2 (nth 0 (sizes values1) 0)
                   (nth 0 (sizes values2) 0)) :
  exists a b ga gb,
    run (c <- update_cache cache ids1 values1 ;; update_cache c ids2 values2) [] =
      (inr a, ga) /\
    run (c <- update_cache cache ids2 values2 ;; update_cache c ids1 values1) [] =
      (inr b, gb) /\
    sizes a = sizes b /\
    forall idx, elem a idx = elem b idx.
Proof.
  unfold run.
  destruct (update_cache_entries cache values1 ids1 [] H1)
    as (c1 & R1 & _ & S1 & E1 & P1).
  destruct (update_cache_entries c1 values2 ids2
              ([] ++ [mkInstr (OpScatter "assign") (dtype values1) (sizes cache)]) H2)
    as (a & Ra & _ & Sa & Ea & Pa).
  destruct (update_cache_entries cache values2 ids2 [] H2)
    as (c2 & R2 & _ & S2 & E2 & P2).
  destruct (update_cache_entries c2 values1 ids1
              ([] ++ [mkInstr (OpScatter "assign") (dtype values2) (sizes cache)]) H1)
    as (b & Rb & _ & Sb & Eb & Pb).
  rewrite (bind_inr _ _ _ _ _ R1), (bind_inr _ _ _ _ _ R2).
  exists a, b. eexists _, _. split; [exact Ra|]. split; [exact Rb|].
  split; [congruence|].
  intros [|p w]; [congruence|].
  rewrite Pa, Pb, P1, P2.
  destruct (last_hit (fun i => elem ids1 [i]) _ (Z.of_nat p)) as [i|] eqn:L1,
           (last_hit (fun i => elem ids2 [i]) _ (Z.of_nat p)) as [j|] eqn:L2;
    try reflexivity.
  exfalso.
  apply last_hit_some in L1, L2.
  destruct L1 as [I1 X1], L2 as [I2 X2].
  apply in_seq in I1, I2.
  apply (Hdisjoint i j); [lia | lia | congruence].
Qed.

(** X2. Applying the same update twice gives the entries of applying
    it once. *)
Theorem update_cache_idempotent
    (cache values : Tensor T) (ids : Tensor Z)
    (H1 : List.length (sizes ids) = 1) :
  exists once twice g1 g2,
    run (update_cache cache ids values) [] = (inr once, g1) /\
    run (c <- update_cache cache ids values ;; update_cache c ids values) [] =
      (inr twice, g2) /\
    sizes twice = sizes once /\
    forall idx, elem twice idx = elem once idx.
Proof.
  unfold run.
  destruct (update_cache_entries cache values ids [] H1)
    as (c1 & R1 & _ & S1 & E1 & P1).
  destruct (update_cache_entries c1 values ids
              ([] ++ [mkInstr (OpScatter "assign") (dtype values) (sizes cache)]) H1)
    as (c2 & R2 & _ & S2 & E2 & P2).
  rewrite (bind_inr _ _ _ _ _ R1).
  exists c1, c2. eexists _, _. split; [exact R1|]. split; [exact R2|].
  split; [congruence|].
  intros [|p w]; [congruence|].
  rewrite P2, P1.
  destruct (last_hit _ _ _); reflexivity.
Qed.


(** ** [fused_kv_update_cache] with two-dimensional cache ids *)

(** Every entry of a scatter with the overwrite combiner. *)
Lemma scatter_assign_entries (operand updates : Tensor T) (indices : Tensor Z)
    (dims : ScatterDims) (dt : DType) (r : nat) (w : list nat) :
  scatter_elem operand indices updates dims (gen_assign_func dt) (r :: w) =
  match last_hit (scatter_index indices dims) (seq 0 (nth 0 (sizes updates) 0))
                 (Z.of_nat r) with
  | Some i => elem updates (i :: w)
  | None => elem operand (r :: w)
  end.
Proof.
  unfold scatter_elem, last_hit. cbn.
  apply (last_hit_fold (scatter_index indices dims) (fun i => elem updates (i :: w))
           (Z.of_nat r) _ None).
Qed.

(** X3. With a cache and keys of rank four and two-dimensional cache
    ids whose second dimension is not the number of active tokens of
    the keys, [fused_kv_update_cache] raises an assertion error; the
    transpose of the cache ids is the only instruction emitted by
    then. *)
Theorem fused_kv_update_cache_inconsistent_ids
    (cached_keys cached_vals keys vals : Tensor T) (cache_ids : Tensor Z)
    (start_ids : option (Tensor Z)) (neuron_config : option NeuronConfig)
    (c0 c1 n0 n1 n2 n3 k0 k1 k2 k3 : nat)
    (Hids : sizes cache_ids = [c0; c1])
    (Hcache : sizes cached_keys = [n0; n1; n2; n3])
    (Hkeys : sizes keys = [k0; k1; k2; k3])
    (Hbad : c1 <> if bsh_layout neuron_config then k1 else k0) :
  exists msg,
    run (fused_kv_update_cache cached_keys cached_vals cache_ids keys vals
           start_ids neuron_config) [] =
    (inl (AssertionError msg),
     [mkInstr (OpHlo "transpose") (dtype cache_ids) [c1; c0]]).
Proof.
  destruct cache_ids as [di si ei], cached_keys as [dc sc ec], keys as [dk sk ek].
  unfold run, fused_kv_update_cache, bsh_layout, config_flags in *.
  cbn [sizes dtype] in *. subst si sc sk.
  assert (H2d : (1 <? List.length [c0; c1]) = true) by reflexivity.
  destruct neuron_config as [[fq [|] gq]|]; cbn in Hbad;
    rewrite H2d; cbn -[Nat.mul String.append str_nat str_sizes Nat.ltb];
    match goal with
    | |- context [c1 =? ?k] => destruct (Nat.eqb_spec c1 k) as [E|_]; [contradiction|]
    end;
    cbn; eexists; reflexivity.
Qed.

(** X4. A prefill through two-dimensional cache ids (as many active
    tokens as the cache has positions, fewer active sequences than the
    cache has) with a number of active sequences other than one raises
    the assertion error of line 236.  The four reshapes and the index
    helper are in the graph by then; no scatter is. *)
Theorem fused_kv_update_cache_prefill_one_sequence
    (cached_keys cached_vals keys vals : Tensor T) (cache_ids : Tensor Z)
    (start_ids : option (Tensor Z)) (neuron_config : option NeuronConfig)
    (n_positions n_seqs n_kv_heads d_head n_active_seqs kh kd c0 : nat)
    (Hids : sizes cache_ids = [c0; n_positions])
    (Hcache : sizes cached_keys =
              if bsh_layout neuron_config
              then [n_seqs; n_positions; n_kv_heads; d_head]
              else [n_positions; n_seqs; n_kv_heads; d_head])
    (Hkeys : sizes keys =
             if bsh_layout neuron_config
             then [n_active_seqs; n_positions; kh; kd]
             else [n_positions; n_active_seqs; kh; kd])
    (Hfewer : n_active_seqs < n_seqs)
    (Hmany : n_active_seqs <> 1) :
  exists g,
    run (fused_kv_update_cache cached_keys cached_vals cache_ids keys vals
           start_ids neuron_config) [] =
    (inl (AssertionError "n_active_seqs is expected to be 1 for 2D cache_ids"), g) /\
    ops_of g = [OpHlo "transpose"; OpReshape; OpReshape; OpReshape; OpReshape;
                OpHlo "update_indices_context"] /\
    ~ emits_scatter g.
Proof.
  assert (B1 : (n_positions =? 1) && (n_seqs =? n_active_seqs) = false).
  { destruct (Nat.eqb_spec n_seqs n_active_seqs) as [E|_];
      [lia | apply andb_false_r]. }
  assert (B2 : (n_active_seqs <? n_seqs) = true).
  { apply Nat.ltb_lt. exact Hfewer. }
  assert (B3 : (n_active_seqs =? 1) = false) by (apply Nat.eqb_neq; exact Hmany).
  destruct cache_ids as [di si ei], cached_keys as [dc sc ec], keys as [dk sk ek].
  unfold run, fused_kv_update_cache, bsh_layout, config_flags in *.
  cbn [sizes dtype] in *. subst si.
  assert (H2d : (1 <? List.length [c0; n_positions]) = true) by reflexivity.
  destruct neuron_config as [[fq [|] gq]|]; cbn in Hcache, Hkeys; subst sc sk;
    rewrite H2d;
    cbn -[Nat.mul String.append str_nat str_sizes Nat.ltb];
    rewrite Nat.eqb_refl;
    cbn -[Nat.mul String.append str_nat str_sizes Nat.ltb];
    rewrite B1, B2;
    cbn -[Nat.mul String.append str_nat str_sizes Nat.ltb];
    rewrite B3; cbn -[Nat.mul];
    (eexists; split; [reflexivity|]; split; [reflexivity|]);
    intros (i & c & Hin & Hop); cbn in Hin;
    repeat (destruct Hin as [<-|Hin]; [discriminate Hop|]); exact Hin.
Qed.

(** X5. A single-token decode through two-dimensional cache ids (one
    active token, as many active sequences as the cache has) returns
    both caches in the flattened shape [[n_positions * n_seqs;
    n_kv_heads * d_head]], not in the shape they came in.  One index
    tensor serves both scatters: a row of the flattened key cache is
    overwritten by row [i] of the flattened keys exactly when the same
    row of the flattened value cache is overwritten by row [i] of the
    flattened values, the last write to a row winning. *)
Theorem fused_kv_update_cache_decode
    (cached_keys cached_vals keys vals : Tensor T) (cache_ids : Tensor Z)
    (start_ids : option (Tensor Z)) (neuron_config : option NeuronConfig)
    (n_positions n_seqs n_kv_heads d_head kh kd c0 : nat)
    (Hids : sizes cache_ids = [c0; 1])
    (Hcache : sizes cached_keys =
              if bsh_layout neuron_config
              then [n_seqs; n_positions; n_kv_heads; d_head]
              else [n_positions; n_seqs; n_kv_heads; d_head])
    (Hkeys : sizes keys =
             if bsh_layout neuron_config
             then [n_seqs; 1; kh; kd]
             else [1; n_seqs; kh; kd]) :
  exists updated_keys updated_vals g (ix : nat -> Z),
    run (fused_kv_update_cache cached_keys cached_vals cache_ids keys vals
           start_ids neuron_config) [] = (inr (updated_keys, updated_vals), g) /\
    ops_of g = [OpHlo "transpose"; OpReshape; OpReshape; OpReshape; OpReshape;
                OpHlo "update_indices_decode"; OpHlo "transpose";
                OpScatter "assign"; OpScatter "assign"] /\
    sizes updated_keys = [n_positions * n_seqs; n_kv_heads * d_head] /\
    sizes updated_vals = [n_positions * n_seqs; n_kv_heads * d_head] /\
    dtype updated_keys = dtype cached_keys /\
    dtype updated_vals = dtype cached_vals /\
    forall r c,
      elem updated_keys [r; c] =
        match last_hit ix (seq 0 n_seqs) (Z.of_nat r) with
        | Some i =>
          elem keys (unravel (sizes keys) (ravel [n_seqs; n_kv_heads * d_head] [i; c]))
        | None =>
          elem cached_keys
            (unravel (sizes cached_keys)
               (ravel [n_positions * n_seqs; n_kv_heads * d_head] [r; c]))
        end /\
      elem updated_vals [r; c] =
        match last_hit ix (seq 0 n_seqs) (Z.of_nat r) with
        | Some i =>
          elem vals (unravel (sizes vals) (ravel [n_seqs; n_kv_heads * d_head] [i; c]))
        | None =>
          elem cached_vals
            (unravel (sizes cached_vals)
               (ravel [n_positions * n_seqs; n_kv_heads * d_head] [r; c]))
        end.
Proof.
  destruct cache_ids as [di si ei], cached_keys as [dc sc ec], keys as [dk sk ek].
  unfold run, fused_kv_update_cache, bsh_layout, config_flags in *.
  cbn [sizes dtype] in *. subst si.
  assert (H2d : (1 <? List.length [c0; 1]) = true) by reflexivity.
  destruct neuron_config as [[fq [|] gq]|]; cbn in Hcache, Hkeys; subst sc sk;
    rewrite H2d;
    cbn -[Nat.mul String.append str_nat str_sizes Nat.ltb unravel ravel
          scatter_elem];
    rewrite (Nat.eqb_refl n_seqs);
    cbn -[Nat.mul String.append str_nat str_sizes Nat.ltb unravel ravel
          scatter_elem];
    eexists _, _, _, _; (split; [reflexivity|]); (split; [reflexivity|]);
    cbn -[Nat.mul unravel ravel scatter_elem];
    repeat (split; [reflexivity|]);
    intros r c; rewrite !scatter_assign_entries; cbn [sizes nth];
    split; reflexivity.
Qed.

(** X6. A prefill of one sequence through two-dimensional cache ids
    scatters the flattened keys and values, row by row, into the
    flattened caches through one index tensor, and returns the caches in
    their flattened shape. *)
Theorem fused_kv_update_cache_prefill
    (cached_keys cached_vals keys vals : Tensor T) (cache_ids : Tensor Z)
    (start_ids : option (Tensor Z)) (neuron_config : option NeuronConfig)
    (n_positions n_seqs n_kv_heads d_head kh kd c0 : nat)
    (Hids : sizes cache_ids = [c0; n_positions])
    (Hcache : sizes cached_keys =
              if bsh_layout neuron_config
              then [n_seqs; n_positions; n_kv_heads; d_head]
              else [n_positions; n_seqs; n_kv_heads; d_head])
    (Hkeys : sizes keys =
             if bsh_layout neuron_config
             then [1; n_positions; kh; kd]
             else [n_positions; 1; kh; kd])
    (Hseqs : 1 < n_seqs) :
  exists updated_keys updated_vals g (ix : nat -> Z),
    run (fused_kv_update_cache cached_keys cached_vals cache_ids keys vals
           start_ids neuron_config) [] = (inr (updated_keys, updated_vals), g) /\
    ops_of g = [OpHlo "transpose"; OpReshape; OpReshape; OpReshape; OpReshape;
                OpHlo "update_indices_context";
                OpScatter "assign"; OpScatter "assign"] /\
    sizes updated_keys = [n_positions * n_seqs; n_kv_heads * d_head] /\
    sizes updated_vals = [n_positions * n_seqs; n_kv_heads * d_head] /\
    forall r c,
      elem updated_keys [r; c] =
        match last_hit ix (seq 0 n_positions) (Z.of_nat r) with
        | Some i =>
          elem keys
            (unravel (sizes keys) (ravel [n_positions; n_kv_heads * d_head] [i; c]))
        | None =>
          elem cached_keys
            (unravel (sizes cached_keys)
               (ravel [n_positions * n_seqs; n_kv_heads * d_head] [r; c]))
        end /\
      elem updated_vals [r; c] =
        match last_hit ix (seq 0 n_positions) (Z.of_nat r) with
        | Some i =>
          elem vals
            (unravel (sizes vals) (ravel [n_positions; n_kv_heads * d_head] [i; c]))
        | None =>
          elem cached_vals
            (unravel (sizes cached_vals)
               (ravel [n_positions * n_seqs; n_kv_heads * d_head] [r; c]))
        end.
Proof.
  assert (B1 : (n_positions =? 1) && (n_seqs =? 1) = false).
  { destruct (Nat.eqb_spec n_seqs 1) as [E|_]; [lia | apply andb_false_r]. }
  assert (B2 : (1 <? n_seqs) = true).
  { apply Nat.ltb_lt. exact Hseqs. }
  destruct cache_ids as [di si ei], cached_keys as [dc sc ec], keys as [dk sk ek].
  unfold run, fused_kv_update_cache, bsh_layout, config_flags in *.
  cbn [sizes dtype] in *. subst si.
  assert (H2d : (1 <? List.length [c0; n_positions]) = true) by reflexivity.
  destruct neuron_config as [[fq [|] gq]|]; cbn in Hcache, Hkeys; subst sc sk;
    rewrite H2d;
    cbn -[Nat.mul String.append str_nat str_sizes Nat.ltb unravel ravel
          scatter_elem];
    rewrite (Nat.eqb_refl n_positions);
    cbn -[Nat.mul String.append str_nat str_sizes Nat.ltb unravel ravel
          scatter_elem];
    rewrite B1, B2;
    cbn -[Nat.mul String.append str_nat str_sizes Nat.ltb unravel ravel
          scatter_elem];
    eexists _, _, _, _; (split; [reflexivity|]); (split; [reflexivity|]);
    cbn -[Nat.mul unravel ravel scatter_elem];
    repeat (split; [reflexivity|]);
    intros r c; rewrite !scatter_assign_entries; cbn [sizes nth];
    split; reflexivity.
Qed.


(** ** [query_key_value] *)

(** X8. A hidden state that is not of rank three makes
    [query_key_value] fail on the unpacking of its sizes, with nothing
    emitted. *)
Theorem query_key_value_rejects_hidden_rank
    (hidden q_weight : Tensor T)
    (q_scales q_bias k_weight k_scales k_bias v_weight v_scales v_bias :
       option (Tensor T))
    (d_head : nat) (tp_degree : option nat) (neuron_config : option NeuronConfig)
    (shard_over_batch : bool) (n_head : option nat) (n_kv_head : nat)
    (Hrank : List.length (sizes hidden) <> 3) :
  exists msg,
    run (query_key_value hidden q_weight q_scales q_bias k_weight k_scales k_bias
           v_weight v_scales v_bias d_head tp_degree neuron_config
           shard_over_batch n_head n_kv_head) [] = (inl (ValueError msg), []).
Proof.
  unfold run, query_key_value, qkv_project.
  destruct (sizes hidden) as [|a [|b [|c [|d l]]]]; cbn in *;
    try (exfalso; apply Hrank; reflexivity); eexists; reflexivity.
Qed.

Lemma ravel4_as_2 (a b c e t s h d : nat) :
  ravel [a; b; c; e] [t; s; h; d] = (t * b + s) * (c * e) + (h * e + d).
Proof. unfold ravel. cbn. ring. Qed.

(** A rank-four index read in the two-dimensional shape that merges
    the first two and the last two dimensions. *)
Lemma unravel2_ravel4 (a b c e t s h d : nat) :
  t < a -> s < b -> h < c -> d < e ->
  unravel [a * b; c * e] (ravel [a; b; c; e] [t; s; h; d]) = [t * b + s; h * e + d].
Proof.
  intros Ht Hs Hh Hd. rewrite ravel4_as_2.
  assert (Hlow : h * e + d < c * e) by nia.
  destruct (divmod_step (t * b + s) (c * e) (h * e + d) Hlow) as [M D].
  unfold unravel. cbn -[Nat.div Nat.modulo Nat.mul].
  rewrite M, D. rewrite Nat.mod_small by nia. reflexivity.
Qed.

(** A rank-two index of the flattened, transposed hidden state read
    in the transposed shape. *)
Lemma unravel3_ravel2 (hs na ns k t s : nat) :
  k < hs -> t < na -> s < ns ->
  unravel [hs; na; ns] (ravel [hs; na * ns] [k; t * ns + s]) = [k; t; s].
Proof.
  intros Hk Ht Hs.
  assert (E : ravel [hs; na * ns] [k; t * ns + s] = (k * na + t) * ns + s)
    by (unfold ravel; cbn; ring).
  rewrite E.
  destruct (divmod_step (k * na + t) ns s Hs) as [M1 D1].
  destruct (divmod_step k na t Ht) as [M2 D2].
  unfold unravel. cbn -[Nat.div Nat.modulo Nat.mul].
  rewrite M1, D1, M2, D2. rewrite Nat.mod_small by exact Hk. reflexivity.
Qed.

(** Head [h], component [d] of a projection of the hidden state, as
    [query_key_value] computes and reshapes it. *)
Lemma projected_head_entry (hidden w : Tensor T) (bias scales : option (Tensor T))
    (n_seqs n_active_tokens hidden_size n_heads d_head t s h d : nat) :
  t < n_active_tokens -> s < n_seqs -> h < n_heads -> d < d_head ->
  dot00_add1_elem
    (mkTensor (dtype hidden) [hidden_size; n_active_tokens * n_seqs]
       (fun idx =>
          elem hidden
            (rev (unravel [hidden_size; n_active_tokens; n_seqs]
                    (ravel [hidden_size; n_active_tokens * n_seqs] idx)))))
    w bias scales
    (unravel [n_active_tokens * n_seqs; n_heads * d_head]
       (ravel [n_active_tokens; n_seqs; n_heads; d_head] [t; s; h; d])) =
  projection_entry (dtype hidden) hidden_size
    (fun k => elem hidden [s; t; k])
    (fun k => elem w [k; h * d_head + d])
    (entry_of scales (h * d_head + d)) (entry_of bias (h * d_head + d)).
Proof.
  intros Ht Hs Hh Hd.
  rewrite (unravel2_ravel4 _ _ _ _ t s h d Ht Hs Hh Hd).
  unfold dot00_add1_elem, projection_entry, dot_qk, entry_of.
  cbn -[Nat.mul unravel ravel].
  assert (E : forall a,
    fold_left
      (fun acc k =>
         eadd (dtype hidden) acc
           (emul (dtype hidden)
              (elem hidden
                 (rev (unravel [hidden_size; n_active_tokens; n_seqs]
                         (ravel [hidden_size; n_active_tokens * n_seqs]
                            [k; t * n_seqs + s]))))
              (elem w [k; h * d_head + d])))
      (seq 0 hidden_size) a =
    fold_left
      (fun acc k =>
         eadd (dtype hidden) acc
           (emul (dtype hidden) (elem hidden [s; t; k]) (elem w [k; h * d_head + d])))
      (seq 0 hidden_size) a).
  { intros a. apply fold_left_ext_in. intros acc k Hk. apply in_seq in Hk.
    rewrite unravel3_ravel2 by lia. reflexivity. }
  rewrite E. destruct scales, bias; reflexivity.
Qed.

(** X9. In shard-over-head mode with unfused weights of [n_kv_heads_tp
    * n_repeats] query heads and [n_kv_heads_tp] key/value heads per
    shard, [query_key_value] emits the transpose, one reshape, three
    projections and three reshapes, and returns the query with shape
    [[n_active_tokens; n_seqs; n_kv_heads_tp * n_repeats; d_head]] and
    the key and value with shape [[n_active_tokens; n_seqs;
    n_kv_heads_tp; d_head]], whatever [n_head] and [n_kv_head] are.
    Component [d] of head [h] at token [t] of sequence [s] is the dot
    product of the hidden state at [[s; t]] with column [h * d_head +
    d] of the weight, scaled and biased where scales and bias are
    given. *)
Theorem query_key_value_shard_over_head
    (hidden q_weight k_weight v_weight : Tensor T)
    (q_scales q_bias k_scales k_bias v_scales v_bias : option (Tensor T))
    (d_head : nat) (tp_degree : option nat) (neuron_config : option NeuronConfig)
    (n_head : option nat) (n_kv_head : nat)
    (n_seqs n_active_tokens hidden_size n_kv_heads_tp n_repeats kv0 v0 : nat)
    (Hh : sizes hidden = [n_seqs; n_active_tokens; hidden_size])
    (Hq : sizes q_weight = [hidden_size; n_kv_heads_tp * n_repeats * d_head])
    (Hk : sizes k_weight = [kv0; n_kv_heads_tp * d_head])
    (Hv : sizes v_weight = [v0; n_kv_heads_tp * d_head])
    (Hfuse : fused neuron_config = false)
    (Hd : d_head <> 0)
    (Hkv : n_kv_heads_tp <> 0)
    (Hrep : n_repeats <> 0) :
  exists q k v g,
    run (query_key_value hidden q_weight q_scales q_bias
           (Some k_weight) k_scales k_bias (Some v_weight) v_scales v_bias
           d_head tp_degree neuron_config false n_head n_kv_head) [] =
      (inr (q, k, v), g) /\
    ops_of g = [OpHlo "transpose210"; OpReshape;
                OpHlo "dot00_add1"; OpHlo "dot00_add1"; OpHlo "dot00_add1";
                OpReshape; OpReshape; OpReshape] /\
    sizes q = [n_active_tokens; n_seqs; n_kv_heads_tp * n_repeats; d_head] /\
    sizes k = [n_active_tokens; n_seqs; n_kv_heads_tp; d_head] /\
    sizes v = [n_active_tokens; n_seqs; n_kv_heads_tp; d_head] /\
    forall t s h d,
      t < n_active_tokens -> s < n_seqs -> d < d_head ->
      (h < n_kv_heads_tp * n_repeats ->
       elem q [t; s; h; d] =
       projection_entry (dtype hidden) hidden_size
         (fun c => elem hidden [s; t; c])
         (fun c => elem q_weight [c; h * d_head + d])
         (entry_of q_scales (h * d_head + d)) (entry_of q_bias (h * d_head + d))) /\
      (h < n_kv_heads_tp ->
       elem k [t; s; h; d] =
       projection_entry (dtype hidden) hidden_size
         (fun c => elem hidden [s; t; c])
         (fun c => elem k_weight [c; h * d_head + d])
         (entry_of k_scales (h * d_head + d)) (entry_of k_bias (h * d_head + d)) /\
       elem v [t; s; h; d] =
       projection_entry (dtype hidden) hidden_size
         (fun c => elem hidden [s; t; c])
         (fun c => elem v_weight [c; h * d_head + d])
         (entry_of v_scales (h * d_head + d)) (entry_of v_bias (h * d_head + d))).
Proof.
  destruct hidden as [dh sh eh], q_weight as [dq sq eq_], k_weight as [dk sk ek],
           v_weight as [dv sv ev].
  cbn [sizes dtype elem] in *. subst sh sq sk sv.
  unfold run, query_key_value, qkv_project. fold (fused neuron_config).
  rewrite Hfuse.
  remember (n_kv_heads_tp * n_repeats * d_head) as htp eqn:Hhtp.
  remember (n_kv_heads_tp * d_head) as kvtp eqn:Hkvtp.
  assert (E1 : htp / d_head = n_kv_heads_tp * n_repeats)
    by (rewrite Hhtp; apply Nat.div_mul; exact Hd).
  assert (E2 : htp / kvtp = n_repeats).
  { rewrite Hhtp, Hkvtp.
    replace (n_kv_heads_tp * n_repeats * d_head)
      with (n_repeats * (n_kv_heads_tp * d_head)) by ring.
    apply Nat.div_mul. nia. }
  assert (E3 : (n_kv_heads_tp * n_repeats) mod n_repeats = 0)
    by (apply Nat.Div0.mod_mul).
  assert (E4 : n_kv_heads_tp * n_repeats / n_repeats = n_kv_heads_tp)
    by (apply Nat.div_mul; exact Hrep).
  assert (E5 : (n_repeats <=? n_kv_heads_tp * n_repeats) = true)
    by (apply Nat.leb_le; nia).
  assert (Hkv0 : kvtp <> 0) by (rewrite Hkvtp; nia).
  destruct d_head as [|d']; [contradiction|].
  destruct kvtp as [|kv']; [contradiction|].
  cbn -[Nat.div Nat.modulo Nat.mul str_nat String.append Nat.leb unravel ravel
        dot00_add1_elem].
  rewrite E1, E2.
  destruct n_repeats as [|r]; [contradiction|].
  cbn -[Nat.div Nat.modulo Nat.mul str_nat String.append Nat.leb unravel ravel
        dot00_add1_elem].
  rewrite E5.
  cbn -[Nat.div Nat.modulo Nat.mul str_nat String.append Nat.leb unravel ravel
        dot00_add1_elem].
  rewrite E3.
  cbn -[Nat.div Nat.modulo Nat.mul str_nat String.append Nat.leb unravel ravel
        dot00_add1_elem].
  rewrite E4.
  eexists _, _, _, _. split; [reflexivity|]. split; [reflexivity|].
  cbn -[Nat.div Nat.modulo Nat.mul unravel ravel dot00_add1_elem].
  repeat (split; [reflexivity|]).
  intros t s h d Ht Hs Hdd. rewrite Hhtp, Hkvtp. split.
  - intros Hhh.
    apply (projected_head_entry (mkTensor dh [n_seqs; n_active_tokens; hidden_size] eh)
             (mkTensor dq [hidden_size; n_kv_heads_tp * S r * S d'] eq_) q_bias q_scales
             n_seqs n_active_tokens hidden_size (n_kv_heads_tp * S r) (S d')
             t s h d Ht Hs Hhh Hdd).
  - intros Hhh. split.
    + apply (projected_head_entry (mkTensor dh [n_seqs; n_active_tokens; hidden_size] eh)
               (mkTensor dk [kv0; n_kv_heads_tp * S d'] ek) k_bias k_scales
               n_seqs n_active_tokens hidden_size n_kv_heads_tp (S d')
               t s h d Ht Hs Hhh Hdd).
    + apply (projected_head_entry (mkTensor dh [n_seqs; n_active_tokens; hidden_size] eh)
               (mkTensor dv [v0; n_kv_heads_tp * S d'] ev) v_bias v_scales
               n_seqs n_active_tokens hidden_size n_kv_heads_tp (S d')
               t s h d Ht Hs Hhh Hdd).
Qed.

(** X10. In shard-over-batch mode without [n_head],
    [query_key_value] raises the assertion error of line 87.  The
    projections and the integer constant are in the graph by then; no
    all-gather is. *)
Theorem query_key_value_shard_over_batch_needs_n_head
    (hidden q_weight k_weight v_weight : Tensor T)
    (q_scales q_bias k_scales k_bias v_scales v_bias : option (Tensor T))
    (d_head : nat) (tp_degree : option nat) (neuron_config : option NeuronConfig)
    (n_kv_head : nat)
    (n_seqs n_active_tokens hs hidden_size hidden_size_tp kv0 kv_hidden_size_tp : nat)
    (Hh : sizes hidden = [n_seqs; n_active_tokens; hs])
    (Hq : sizes q_weight = [hidden_size; hidden_size_tp])
    (Hk : sizes k_weight = [kv0; kv_hidden_size_tp])
    (Hfuse : fused neuron_config = false)
    (Hd : d_head <> 0) :
  exists g,
    run (query_key_value hidden q_weight q_scales q_bias
           (Some k_weight) k_scales k_bias (Some v_weight) v_scales v_bias
           d_head tp_degree neuron_config true None n_kv_head) [] =
      (inl (AssertionError "invalid n_head (None)"), g) /\
    ops_of g = [OpHlo "transpose210"; OpReshape;
                OpHlo "dot00_add1"; OpHlo "dot00_add1"; OpHlo "dot00_add1";
                OpConstant (PyInt 0)] /\
    ~ emits_helper "all_gather" g.
Proof.
  destruct hidden as [dh sh eh], q_weight as [dq sq eq_], k_weight as [dk sk ek].
  cbn [sizes dtype elem] in *. subst sh sq sk.
  unfold run, query_key_value, qkv_project. fold (fused neuron_config).
  rewrite Hfuse.
  destruct d_head as [|d']; [contradiction|].
  cbn -[Nat.div Nat.modulo Nat.mul dot00_add1_elem].
  eexists. split; [reflexivity|]. split; [reflexivity|].
  intros (i & Hin & Hop). cbn in Hin.
  repeat (destruct Hin as [<-|Hin]; [discriminate Hop|]). exact Hin.
Qed.

(** X11. In shard-over-batch mode with unfused weights and [n_head]
    heads before padding, [query_key_value] takes the degree [n_head //
    n_heads_tp], emits three all-gathers and three slices after the
    projections, and returns the query with all [n_head] heads and with
    the batch divided by the degree; the key and the value get
    [n_kv_head] heads, or [n_head] when [n_kv_head] is zero.  Neither
    division is checked for a remainder. *)
Theorem query_key_value_shard_over_batch
    (hidden q_weight k_weight v_weight : Tensor T)
    (q_scales q_bias k_scales k_bias v_scales v_bias : option (Tensor T))
    (d_head : nat) (tp_degree : option nat) (neuron_config : option NeuronConfig)
    (n_head n_kv_head : nat)
    (n_seqs n_active_tokens hs hidden_size hidden_size_tp kv0 kv_hidden_size_tp : nat)
    (Hh : sizes hidden = [n_seqs; n_active_tokens; hs])
    (Hq : sizes q_weight = [hidden_size; hidden_size_tp])
    (Hk : sizes k_weight = [kv0; kv_hidden_size_tp])
    (Hfuse : fused neuron_config = false)
    (Hd : d_head <> 0)
    (Hheads : hidden_size_tp / d_head <> 0)
    (Hdegree : n_head / (hidden_size_tp / d_head) <> 0) :
  exists q k v g,
    run (query_key_value hidden q_weight q_scales q_bias
           (Some k_weight) k_scales k_bias (Some v_weight) v_scales v_bias
           d_head tp_degree neuron_config true (Some n_head) n_kv_head) [] =
      (inr (q, k, v), g) /\
    ops_of g = [OpHlo "transpose210"; OpReshape;
                OpHlo "dot00_add1"; OpHlo "dot00_add1"; OpHlo "dot00_add1";
                OpConstant (PyInt 0);
                OpHlo "all_gather"; OpHlo "all_gather"; OpHlo "all_gather";
                OpHlo "dynamic_slice_along"; OpHlo "dynamic_slice_along";
                OpHlo "dynamic_slice_along";
                OpReshape; OpReshape; OpReshape] /\
    let degree := n_head / (hidden_size_tp / d_head) in
    let kv_heads := if 0 <? n_kv_head then n_kv_head else n_head in
    sizes q = [n_active_tokens; n_seqs / degree; n_head; d_head] /\
    sizes k = [n_active_tokens; n_seqs / degree; kv_heads; d_head] /\
    sizes v = [n_active_tokens; n_seqs / degree; kv_heads; d_head].
Proof.
  destruct hidden as [dh sh eh], q_weight as [dq sq eq_], k_weight as [dk sk ek].
  cbn [sizes dtype elem] in *. subst sh sq sk.
  unfold run, query_key_value, qkv_project. fold (fused neuron_config).
  rewrite Hfuse.
  destruct d_head as [|d']; [contradiction|].
  cbn -[Nat.div Nat.modulo Nat.mul Nat.ltb dot00_add1_elem unravel ravel].
  destruct (hidden_size_tp / S d') as [|m] eqn:Em; [contradiction|].
  cbn -[Nat.div Nat.modulo Nat.mul Nat.ltb dot00_add1_elem unravel ravel].
  destruct (n_head / S m) as [|tp] eqn:Etp; [contradiction|].
  cbn -[Nat.div Nat.modulo Nat.mul Nat.ltb dot00_add1_elem unravel ravel].
  destruct (0 <? n_kv_head);
    cbn -[Nat.div Nat.modulo Nat.mul dot00_add1_elem unravel ravel];
    eexists _, _, _, _; (split; [reflexivity|]); (split; [reflexivity|]);
    cbn -[Nat.div Nat.modulo Nat.mul]; repeat split; reflexivity.
Qed.

(** ** [score] and [mask] *)

(** X12. [score] returns a tensor of the query's element type and of
    shape [[n_seqs; n_heads; n_active_tokens; n_positions]] in both
    cache layouts; it emits the contraction alone, preceded by the key
    repeat when [n_kv_heads] is not zero. *)
Theorem score_shape
    (query keys : Tensor T) (tp_degree : option nat) (n_kv_heads : nat)
    (neuron_config : option NeuronConfig)
    (n_seqs n_heads n_active_tokens n_positions n_kv_heads_tp d_head kd : nat)
    (Hq : sizes query =
          if bsh_layout neuron_config
          then [n_seqs; n_active_tokens; n_heads; d_head]
          else [n_active_tokens; n_seqs; n_heads; d_head])
    (Hk : sizes keys =
          if bsh_layout neuron_config
          then [n_seqs; n_positions; n_kv_heads_tp; kd]
          else [n_positions; n_seqs; n_kv_heads_tp; kd])
    (Hkv : n_kv_heads <> 0 -> n_kv_heads_tp <> 0) :
  exists out g,
    run (score query keys tp_degree n_kv_heads neuron_config) [] = (inr out, g) /\
    ops_of g = (if n_kv_heads =? 0 then [] else [OpHlo "repeat_kv"])
               ++ [OpDotGeneral] /\
    dtype out = dtype query /\
    sizes out = [n_seqs; n_heads; n_active_tokens; n_positions].
Proof.
  destruct query as [dq sq eq_], keys as [dk sk ek].
  unfold run, score, bsh_layout in *. cbn [sizes dtype] in *.
  destruct (config_flags neuron_config) as [sob bsh]. cbn [snd] in *.
  destruct n_kv_heads as [|n]; cbn [Nat.eqb negb].
  - destruct bsh; subst sq sk; cbn; eexists _, _; repeat split; reflexivity.
  - assert (Hk2 : n_kv_heads_tp <> 0) by (apply Hkv; discriminate).
    destruct n_kv_heads_tp as [|k2']; [contradiction|].
    destruct sob, bsh; subst sq sk; cbn -[Nat.div Nat.mul];
      eexists _, _; repeat split; reflexivity.
Qed.

(** X13. [score] depends on the configuration through the cache
    layout alone: neither [tp_degree] nor the grouped-query sharding
    mode nor the fused-weight flag changes the graph or the result. *)
Theorem score_ignores_sharding
    (query keys : Tensor T) (tp_degree tp_degree' : option nat) (n_kv_heads : nat)
    (neuron_config neuron_config' : option NeuronConfig) (g : Graph)
    (Hlayout : bsh_layout neuron_config = bsh_layout neuron_config') :
  run (score query keys tp_degree n_kv_heads neuron_config) g =
  run (score query keys tp_degree' n_kv_heads neuron_config') g.
Proof.
  unfold run, score, bsh_layout in *.
  destruct (config_flags neuron_config) as [sob bsh],
           (config_flags neuron_config') as [sob' bsh'].
  cbn [snd] in Hlayout. subst bsh'.
  destruct sob, sob'; reflexivity.
Qed.

(** X14. Masking with two masks and one fill constant does not
    depend on the order of the masks: the result keeps the score where
    both broadcast masks are true and holds the constant elsewhere.
    The arguments [tp_degree] and [shard_over_batch] play no part. *)
Theorem mask_order_irrelevant
    (score : Tensor T) (m1 m2 : Tensor bool) (tp1 tp2 : option nat)
    (sob1 sob2 : bool) (constant_val : PyNum) :
  exists a b ga gb,
    run (s <- mask score m1 tp1 sob1 constant_val ;;
         mask s m2 tp2 sob2 constant_val) [] = (inr a, ga) /\
    run (s <- mask score m2 tp2 sob2 constant_val ;;
         mask s m1 tp1 sob1 constant_val) [] = (inr b, gb) /\
    dtype a = dtype b /\
    sizes a = sizes b /\
    (forall idx, elem a idx = elem b idx) /\
    forall i0 i1 i2 i3,
      elem a [i0; i1; i2; i3] =
      if sparse_mask_at m1 i0 i2 i3 && sparse_mask_at m2 i0 i2 i3
      then elem score [i0; i1; i2; i3]
      else econst (dtype score) constant_val.
Proof.
  unfold run, mask, sparse_mask_at.
  destruct (List.length (sizes m1) =? 2), (List.length (sizes m2) =? 2); cbn;
    eexists _, _, _, _; (split; [reflexivity|]); (split; [reflexivity|]);
    (split; [reflexivity|]); (split; [reflexivity|]); cbn; split; intros;
    repeat match goal with
           | |- context [@elem bool ?m ?i] => destruct (@elem bool m i)
           end; reflexivity.
Qed.

(** X15. Masking twice with the same mask and fill constant gives
    the entries of masking once. *)
Theorem mask_idempotent
    (score : Tensor T) (m : Tensor bool) (tp1 tp2 : option nat)
    (sob1 sob2 : bool) (constant_val : PyNum) :
  exists once twice g1 g2,
    run (mask score m tp1 sob1 constant_val) [] = (inr once, g1) /\
    run (s <- mask score m tp1 sob1 constant_val ;;
         mask s m tp2 sob2 constant_val) [] = (inr twice, g2) /\
    dtype twice = dtype once /\
    sizes twice = sizes once /\
    forall idx, elem twice idx = elem once idx.
Proof.
  unfold run, mask.
  destruct (List.length (sizes m) =? 2); cbn;
    eexists _, _, _, _; (split; [reflexivity|]); (split; [reflexivity|]);
    (split; [reflexivity|]); (split; [reflexivity|]); cbn; intros;
    repeat match goal with
           | |- context [@elem bool ?m ?i] => destruct (@elem bool m i)
           end; reflexivity.
Qed.

(** ** [context] and [context_combined] *)

Lemma emits_helper_ops (name : string) (g : Graph) :
  emits_helper name g <-> In (OpHlo name) (ops_of g).
Proof.
  unfold emits_helper, ops_of. rewrite in_map_iff. split.
  - intros (i & Hin & Hop). exists i. split; assumption.
  - intros (i & Hop & Hin). exists i. split; assumption.
Qed.

(** X16. With exactly one of the two sparse masks given, [context]
    raises an assertion error before anything is emitted. *)
Theorem context_rejects_unpaired_sparse_mask
    (past_scores active_score past_values active_values : Tensor T)
    (n_kv_heads : nat) (dtype_ : option DType)
    (sparse_mask active_sparse_mask : option (Tensor bool))
    (neuron_config : option NeuronConfig) (tp_degree : option nat)
    (Hunpaired : is_none sparse_mask <> is_none active_sparse_mask) :
  run (context past_scores active_score past_values active_values n_kv_heads
         dtype_ sparse_mask active_sparse_mask neuron_config tp_degree) [] =
  (inl (AssertionError "Both sparse masks must be valid to use sparse attention!"),
   []).
Proof.
  unfold run, context.
  destruct (config_flags neuron_config) as [sob bsh].
  destruct sparse_mask, active_sparse_mask; cbn in *;
    try (exfalso; apply Hunpaired; reflexivity); reflexivity.
Qed.

(** X17. [context] depends on the configuration through the cache
    layout alone: the grouped-query sharding mode, which it reads, and
    [tp_degree] change neither the graph nor the result. *)
Theorem context_ignores_sharding
    (past_scores active_score past_values active_values : Tensor T)
    (n_kv_heads : nat) (dtype_ : option DType)
    (sparse_mask active_sparse_mask : option (Tensor bool))
    (neuron_config neuron_config' : option NeuronConfig)
    (tp_degree tp_degree' : option nat) (g : Graph)
    (Hlayout : bsh_layout neuron_config = bsh_layout neuron_config') :
  run (context past_scores active_score past_values active_values n_kv_heads
         dtype_ sparse_mask active_sparse_mask neuron_config tp_degree) g =
  run (context past_scores active_score past_values active_values n_kv_heads
         dtype_ sparse_mask active_sparse_mask neuron_config' tp_degree') g.
Proof.
  unfold run, context, bsh_layout in *.
  destruct (config_flags neuron_config) as [sob bsh],
           (config_flags neuron_config') as [sob' bsh'].
  cbn [snd] in Hlayout. subst bsh'. reflexivity.
Qed.

(** X18. [context] declares its result with the number of sequences
    and the head size of the past values and with the numbers of heads
    and of active tokens of the past scores, in token-major order; the
    element type is the one asked for, or the active score's.  It never
    gathers across shards. *)
Theorem context_shape
    (past_scores active_score past_values active_values : Tensor T)
    (n_kv_heads : nat) (dtype_ : option DType)
    (sparse_mask active_sparse_mask : option (Tensor bool))
    (neuron_config : option NeuronConfig) (tp_degree : option nat)
    (a0 a1 a2 a3 p0 p1 p2 p3 n_positions n_seqs n_kv_heads_tp d_head : nat)
    (Hmasks : is_none sparse_mask = is_none active_sparse_mask)
    (Ha : sizes active_score = [a0; a1; a2; a3])
    (Hp : sizes past_scores = [p0; p1; p2; p3])
    (Hv : sizes past_values =
          value_sizes (bsh_layout neuron_config) n_positions n_seqs n_kv_heads_tp d_head)
    (Hkv : n_kv_heads <> 0 -> n_kv_heads_tp <> 0) :
  exists out g,
    run (context past_scores active_score past_values active_values n_kv_heads
           dtype_ sparse_mask active_sparse_mask neuron_config tp_degree) [] =
      (inr out, g) /\
    sizes out = [n_seqs; p2; p1; d_head] /\
    dtype out = match dtype_ with
                | Some dt => dt
                | None => dtype active_score
                end /\
    ~ emits_helper "all_gather" g.
Proof.
  destruct past_scores as [dsp ssp esp], active_score as [dsa ssa esa],
           past_values as [dvp svp evp].
  unfold bsh_layout, value_sizes in *. cbn [sizes dtype] in *.
  unfold run, context.
  destruct (config_flags neuron_config) as [sob bsh]. cbn [snd] in *.
  subst ssp ssa.
  assert (Hdone : forall (m : Build (Tensor T)),
    (exists out g, m [] = (inr out, g) /\
       sizes out = [n_seqs; p2; p1; d_head] /\
       dtype out = match dtype_ with Some dt => dt | None => dsa end /\
       ~ In (OpHlo "all_gather") (ops_of g)) ->
    exists out g, m [] = (inr out, g) /\
       sizes out = [n_seqs; p2; p1; d_head] /\
       dtype out = match dtype_ with Some dt => dt | None => dsa end /\
       ~ emits_helper "all_gather" g).
  { intros m (out & g & R & S & D & N). exists out, g.
    rewrite emits_helper_ops. auto. }
  apply Hdone. clear Hdone.
  unfold context_softmax, mask.
  destruct sparse_mask as [sm|], active_sparse_mask as [am|];
    try discriminate Hmasks;
    try destruct (List.length (sizes sm) =? 2);
    try destruct (List.length (sizes am) =? 2);
    (destruct n_kv_heads as [|n];
     [| assert (Hk0 : n_kv_heads_tp <> 0) by (apply Hkv; discriminate);
        destruct n_kv_heads_tp as [|kv']; [contradiction|]]);
    destruct bsh; subst svp; cbn -[Nat.div Nat.mul];
    eexists _, _; (split; [reflexivity|]); (split; [reflexivity|]);
    (split; [reflexivity|]);
    cbn; intros Hin;
    repeat (destruct Hin as [Hin|Hin]; [discriminate Hin|]); exact Hin.
Qed.

(** X19. With grouped-query attention sharded over the batch,
    [context_combined] re-shards its result: it gathers across the
    [tp_degree] shards along the batch and keeps [n_heads // tp_degree]
    heads, so that the result has [tp_degree] times the sequences of the
    values and the heads of the scores divided by [tp_degree]. *)
Theorem context_combined_shard_over_batch
    (score values : Tensor T) (tp_degree n_kv_heads : nat)
    (dtype_ : option DType) (sparse_mask : option (Tensor bool))
    (neuron_config : option NeuronConfig)
    (s0 s1 s2 s3 n_positions n_seqs n_kv_heads_tp d_head : nat)
    (Hs : sizes score = [s0; s1; s2; s3])
    (Hv : sizes values =
          value_sizes (bsh_layout neuron_config) n_positions n_seqs n_kv_heads_tp d_head)
    (Hgqa : n_kv_heads <> 0)
    (Hshard : fst (config_flags neuron_config) = true)
    (Hkv : n_kv_heads_tp <> 0)
    (Htp : tp_degree <> 0) :
  exists out g,
    run (context_combined score values (Some tp_degree) n_kv_heads dtype_
           sparse_mask neuron_config) [] = (inr out, g) /\
    sizes out = [n_seqs * tp_degree; s2; s1 / tp_degree; d_head] /\
    emits_helper "all_gather" g /\
    emits_helper "dynamic_slice_along" g.
Proof.
  destruct score as [ds ss es], values as [dv sv ev].
  unfold bsh_layout, value_sizes in *. cbn [sizes dtype] in *.
  unfold run, context_combined.
  destruct (config_flags neuron_config) as [sob bsh]. cbn [fst snd] in *.
  subst ss sob.
  destruct n_kv_heads as [|n]; [contradiction|].
  destruct n_kv_heads_tp as [|kv']; [contradiction|].
  destruct tp_degree as [|tp]; [contradiction|].
  setoid_rewrite emits_helper_ops.
  unfold hlo_softmax, mask.
  destruct sparse_mask as [sm|];
    try destruct (List.length (sizes sm) =? 2);
    destruct bsh; subst sv; cbn -[Nat.div Nat.mul];
    eexists _, _; (split; [reflexivity|]); (split; [reflexivity|]);
    cbn -[Nat.div Nat.mul]; split;
    repeat (first [left; reflexivity | right]).
Qed.

(** X20. With grouped-query attention sharded over the batch and no
    [tp_degree], [context_combined] fails on the division by it, after
    the contraction and before any gather. *)
Theorem context_combined_needs_tp_degree
    (score values : Tensor T) (n_kv_heads : nat)
    (dtype_ : option DType) (sparse_mask : option (Tensor bool))
    (neuron_config : option NeuronConfig)
    (s0 s1 s2 s3 n_positions n_seqs n_kv_heads_tp d_head : nat)
    (Hs : sizes score = [s0; s1; s2; s3])
    (Hv : sizes values =
          value_sizes (bsh_layout neuron_config) n_positions n_seqs n_kv_heads_tp d_head)
    (Hgqa : n_kv_heads <> 0)
    (Hshard : fst (config_flags neuron_config) = true)
    (Hkv : n_kv_heads_tp <> 0) :
  exists msg g,
    run (context_combined score values None n_kv_heads dtype_
           sparse_mask neuron_config) [] = (inl (TypeError msg), g) /\
    In OpDotGeneral (ops_of g) /\
    ~ emits_helper "all_gather" g.
Proof.
  destruct score as [ds ss es], values as [dv sv ev].
  unfold bsh_layout, value_sizes in *. cbn [sizes dtype] in *.
  unfold run, context_combined.
  destruct (config_flags neuron_config) as [sob bsh]. cbn [fst snd] in *.
  subst ss sob.
  destruct n_kv_heads as [|n]; [contradiction|].
  destruct n_kv_heads_tp as [|kv']; [contradiction|].
  setoid_rewrite emits_helper_ops.
  unfold hlo_softmax, mask.
  destruct sparse_mask as [sm|];
    try destruct (List.length (sizes sm) =? 2);
    destruct bsh; subst sv; cbn -[Nat.div Nat.mul];
    eexists _, _; (split; [reflexivity|]);
    cbn -[Nat.div Nat.mul];
    (split; [repeat (first [left; reflexivity | right])|]);
    intros Hin;
    repeat (destruct Hin as [Hin|Hin]; [discriminate Hin|]); exact Hin.
Qed.

(** A mask that is true everywhere is the constant function. *)
Lemma all_true_mask (m : Tensor bool) :
  (forall idx, elem m idx = true) ->
  m = mkTensor (dtype m) (sizes m) (fun _ => true).
Proof.
  intros H. destruct m as [d s e]. cbn in *. f_equal.
  apply Stdlib.Logic.FunctionalExtensionality.functional_extensionality. exact H.
Qed.

(** X27. Sparse masks that exclude nothing change nothing: with two
    masks that are true everywhere, [context] returns a tensor of the
    element type, shape and entries it returns without sparse masks. *)
Theorem context_all_true_sparse_masks
    (past_scores active_score past_values active_values : Tensor T)
    (n_kv_heads : nat) (dtype_ : option DType)
    (sparse_mask active_sparse_mask : Tensor bool)
    (neuron_config : option NeuronConfig) (tp_degree : option nat)
    (a0 a1 a2 a3 p0 p1 p2 p3 v0 v1 v2 v3 : nat)
    (Ha : sizes active_score = [a0; a1; a2; a3])
    (Hp : sizes past_scores = [p0; p1; p2; p3])
    (Hv : sizes past_values = [v0; v1; v2; v3])
    (Hkv : n_kv_heads <> 0 -> v2 <> 0)
    (Hsm : forall idx, elem sparse_mask idx = true)
    (Ham : forall idx, elem active_sparse_mask idx = true) :
  exists masked g plain g',
    run (context past_scores active_score past_values active_values n_kv_heads
           dtype_ (Some sparse_mask) (Some active_sparse_mask)
           neuron_config tp_degree) [] = (inr masked, g) /\
    run (context past_scores active_score past_values active_values n_kv_heads
           dtype_ None None neuron_config tp_degree) [] = (inr plain, g') /\
    dtype masked = dtype plain /\
    sizes masked = sizes plain /\
    forall idx, elem masked idx = elem plain idx.
Proof.
  rewrite (all_true_mask sparse_mask Hsm), (all_true_mask active_sparse_mask Ham).
  destruct past_scores as [dsp ssp esp], active_score as [dsa ssa esa],
           past_values as [dvp svp evp].
  cbn [sizes dtype] in *. subst ssp ssa svp.
  unfold run, context, context_softmax, mask.
  destruct (config_flags neuron_config) as [sob bsh].
  cbn [sizes dtype].
  destruct (List.length (sizes sparse_mask) =? 2),
           (List.length (sizes active_sparse_mask) =? 2);
    (destruct n_kv_heads as [|n];
     [| assert (Hk0 : v2 <> 0) by (apply Hkv; discriminate);
        destruct v2 as [|v2']; [contradiction|]]);
    destruct bsh; cbn -[Nat.div Nat.mul];
    eexists _, _, _, _; (split; [reflexivity|]); (split; [reflexivity|]);
    repeat split; reflexivity.
Qed.

(** X28. The same for [context_combined]: a sparse mask that is true
    everywhere leaves the element type, shape and entries of the result
    as they are without one. *)
Theorem context_combined_all_true_sparse_mask
    (score values : Tensor T) (tp_degree : option nat) (n_kv_heads : nat)
    (dtype_ : option DType) (sparse_mask : Tensor bool)
    (neuron_config : option NeuronConfig)
    (s0 s1 s2 s3 w0 w1 w2 w3 : nat)
    (Hs : sizes score = [s0; s1; s2; s3])
    (Hw : sizes values = [w0; w1; w2; w3])
    (Hkv : n_kv_heads <> 0 -> w2 <> 0)
    (Htp : n_kv_heads <> 0 -> fst (config_flags neuron_config) = true ->
           exists t, tp_degree = Some (S t))
    (Hsm : forall idx, elem sparse_mask idx = true) :
  exists masked g plain g',
    run (context_combined score values tp_degree n_kv_heads dtype_
           (Some sparse_mask) neuron_config) [] = (inr masked, g) /\
    run (context_combined score values tp_degree n_kv_heads dtype_
           None neuron_config) [] = (inr plain, g') /\
    dtype masked = dtype plain /\
    sizes masked = sizes plain /\
    forall idx, elem masked idx = elem plain idx.
Proof.
  rewrite (all_true_mask sparse_mask Hsm).
  destruct score as [ds ss es], values as [dv sv ev].
  cbn [sizes dtype] in *. subst ss sv.
  unfold run, context_combined, hlo_softmax, mask.
  destruct (config_flags neuron_config) as [sob bsh]. cbn [fst] in Htp.
  cbn [sizes dtype].
  destruct n_kv_heads as [|n].
  - destruct (List.length (sizes sparse_mask) =? 2), bsh; cbn;
      eexists _, _, _, _; (split; [reflexivity|]); (split; [reflexivity|]);
      repeat split; reflexivity.
  - assert (Hk0 : w2 <> 0) by (apply Hkv; discriminate).
    destruct w2 as [|w2']; [contradiction|].
    destruct sob.
    + destruct Htp as [t ->]; [discriminate | reflexivity |].
      destruct (List.length (sizes sparse_mask) =? 2), bsh; cbn -[Nat.div Nat.mul];
        eexists _, _, _, _; (split; [reflexivity|]); (split; [reflexivity|]);
        repeat split; reflexivity.
    + destruct (List.length (sizes sparse_mask) =? 2), bsh; cbn -[Nat.div Nat.mul];
        eexists _, _, _, _; (split; [reflexivity|]); (split; [reflexivity|]);
        repeat split; reflexivity.
Qed.

(** ** [query_key_projection] *)

(** X21. A key that is not of rank four makes [query_key_projection]
    fail on the unpacking of its sizes, with nothing emitted. *)
Theorem query_key_projection_rejects_key_rank
    (query key qk_weight : Tensor T)
    (Hrank : List.length (sizes key) <> 4) :
  exists msg,
    run (query_key_projection query key qk_weight) [] = (inl (ValueError msg), []).
Proof.
  unfold run, query_key_projection.
  destruct (sizes key) as [|a [|b [|c [|d [|e l]]]]]; cbn in *;
    try (exfalso; apply Hrank; reflexivity); eexists; reflexivity.
Qed.

(** X22. [query_key_projection] declares both results with the
    element type and the shape of the key; the element type and the
    shape of the query are never read.  It emits a reshape, a
    contraction and a reshape for the query, then the same for the
    key. *)
Theorem query_key_projection_shapes
    (query key qk_weight : Tensor T) (n_active_tokens n_seqs n_heads_tp d_head : nat)
    (Hk : sizes key = [n_active_tokens; n_seqs; n_heads_tp; d_head]) :
  exists q k,
    run (query_key_projection query key qk_weight) [] =
      (inr (q, k),
       [mkInstr OpReshape (dtype key) [n_active_tokens; n_seqs * n_heads_tp; d_head];
        mkInstr OpDotGeneral (dtype key) [n_active_tokens; n_seqs * n_heads_tp; d_head];
        mkInstr OpReshape (dtype key) (sizes key);
        mkInstr OpReshape (dtype key) [n_active_tokens; n_seqs * n_heads_tp; d_head];
        mkInstr OpDotGeneral (dtype key) [n_active_tokens; n_seqs * n_heads_tp; d_head];
        mkInstr OpReshape (dtype key) (sizes key)]) /\
    dtype q = dtype key /\ sizes q = sizes key /\
    dtype k = dtype key /\ sizes k = sizes key.
Proof.
  destruct key as [dk sk ek]. cbn [sizes dtype] in *. subst sk.
  unfold run, query_key_projection. cbn -[Nat.mul unravel ravel sum_over].
  eexists _, _. repeat split; reflexivity.
Qed.

(** A rank-four index read in the shape that merges the two middle
    dimensions, and back. *)
Lemma unravel3_ravel4 (a b c e t s h d : nat) :
  t < a -> s < b -> h < c -> d < e ->
  unravel [a; b * c; e] (ravel [a; b; c; e] [t; s; h; d]) = [t; s * c + h; d].
Proof.
  intros Ht Hs Hh Hd.
  assert (E : ravel [a; b; c; e] [t; s; h; d] = (t * (b * c) + (s * c + h)) * e + d)
    by (unfold ravel; cbn; ring).
  rewrite E.
  assert (Hm : s * c + h < b * c) by nia.
  destruct (divmod_step (t * (b * c) + (s * c + h)) e d Hd) as [M1 D1].
  destruct (divmod_step t (b * c) (s * c + h) Hm) as [M2 D2].
  unfold unravel. cbn -[Nat.div Nat.modulo Nat.mul].
  rewrite M1, D1, M2, D2. rewrite Nat.mod_small by exact Ht. reflexivity.
Qed.

Lemma unravel4_ravel3 (a b c e t s h d : nat) :
  t < a -> s < b -> h < c -> d < e ->
  unravel [a; b; c; e] (ravel [a; b * c; e] [t; s * c + h; d]) = [t; s; h; d].
Proof.
  intros Ht Hs Hh Hd.
  assert (E : ravel [a; b * c; e] [t; s * c + h; d] = ravel [a; b; c; e] [t; s; h; d])
    by (unfold ravel; cbn; ring).
  rewrite E. apply unravel_ravel4; assumption.
Qed.

(** X23. For a query of the key's shape and a weight of rank three,
    every entry within bounds of either result of
    [query_key_projection] is the dot product of a head's vector with a
    column of the weight of its token: Q = Q @ W and K = K @ W, head by
    head, both computed in the key's element type. *)
Theorem query_key_projection_entries
    (query key qk_weight : Tensor T)
    (n_active_tokens n_seqs n_heads_tp d_head w0 w1 w2 : nat)
    (Hk : sizes key = [n_active_tokens; n_seqs; n_heads_tp; d_head])
    (Hq : sizes query = [n_active_tokens; n_seqs; n_heads_tp; d_head])
    (Hw : sizes qk_weight = [w0; w1; w2]) :
  exists q k g,
    run (query_key_projection query key qk_weight) [] = (inr (q, k), g) /\
    forall t s h e,
      t < n_active_tokens -> s < n_seqs -> h < n_heads_tp -> e < d_head ->
      elem q [t; s; h; e] =
        dot_qk (dtype key) d_head
          (fun d => elem query [t; s; h; d]) (fun d => elem qk_weight [t; d; e]) /\
      elem k [t; s; h; e] =
        dot_qk (dtype key) d_head
          (fun d => elem key [t; s; h; d]) (fun d => elem qk_weight [t; d; e]).
Proof.
  destruct key as [dk sk ek], query as [dq sq eq_], qk_weight as [dw sw ew].
  cbn [sizes dtype elem] in *. subst sk sq sw.
  unfold run, query_key_projection. cbn -[Nat.mul unravel ravel sum_over].
  eexists _, _, _. split; [reflexivity|].
  intros t s h e Ht Hs Hh He.
  cbn -[Nat.mul unravel ravel sum_over].
  rewrite (unravel3_ravel4 _ _ _ _ t s h e Ht Hs Hh He).
  unfold dot_qk. cbn -[Nat.mul unravel ravel].
  split; apply fold_left_ext_in; intros acc k Hin; apply in_seq in Hin;
    rewrite unravel4_ravel3 by (assumption || lia); reflexivity.
Qed.

(** ** [output] *)

(** X24. A context that is not of rank four, or a weight that is not
    of rank two, makes [output] fail on the unpacking of the sizes,
    with nothing emitted. *)
Theorem output_rejects_ranks
    (context out_weight : Tensor T) (out_scales out_bias : option (Tensor T))
    (tp_degree : nat) (neuron_config : option NeuronConfig)
    (Hrank : List.length (sizes context) <> 4 \/ List.length (sizes out_weight) <> 2) :
  exists msg,
    run (output context out_weight out_scales out_bias tp_degree neuron_config) [] =
    (inl (ValueError msg), []).
Proof.
  unfold run, output.
  destruct (sizes context) as [|a [|b [|c [|d [|e l]]]]];
    try (eexists; reflexivity);
    destruct (sizes out_weight) as [|w0 [|w1 [|w2 l']]];
    try (eexists; reflexivity).
  exfalso. destruct Hrank as [H|H]; apply H; reflexivity.
Qed.

(** A row and a column of the flattened context read in the
    context's own shape. *)
Lemma unravel4_ravel2 (ns na nh dh s t c : nat) :
  s < ns -> t < na -> c < nh * dh ->
  unravel [ns; na; nh; dh] (ravel [ns * na; nh * dh] [s * na + t; c]) =
  [s; t; c / dh; c mod dh].
Proof.
  intros Hs Ht Hc.
  assert (Hdh : dh <> 0) by nia.
  assert (Hmod : c mod dh < dh) by (apply Nat.mod_upper_bound; exact Hdh).
  assert (Hdiv : c / dh < nh) by (apply Nat.Div0.div_lt_upper_bound; nia).
  assert (E : ravel [ns * na; nh * dh] [s * na + t; c] =
              ravel [ns; na; nh; dh] [s; t; c / dh; c mod dh]).
  { unfold ravel. cbn -[Nat.div Nat.modulo].
    rewrite (Nat.div_mod_eq c dh) at 1. ring. }
  rewrite E. apply unravel_ravel4; assumption.
Qed.

(** An index of the result read in the flattened shape. *)
Lemma unravel2_ravel3 (ns na hs s t j : nat) :
  s < ns -> t < na -> j < hs ->
  unravel [ns * na; hs] (ravel [ns; na; hs] [s; t; j]) = [s * na + t; j].
Proof.
  intros Hs Ht Hj.
  assert (E : ravel [ns; na; hs] [s; t; j] = (s * na + t) * hs + j)
    by (unfold ravel; cbn; ring).
  rewrite E.
  destruct (divmod_step (s * na + t) hs j Hj) as [M D].
  unfold unravel. cbn -[Nat.div Nat.modulo Nat.mul].
  rewrite M, D. rewrite Nat.mod_small by nia. reflexivity.
Qed.

(** X25. [output] emits a reshape, the projection, a reshape and the
    sum all-reduce, and returns a tensor of shape [[n_seqs;
    n_active_tokens; hidden_size]]: the all-reduce of this shard's
    projection, whose entry for sequence [s], token [t] and output
    column [j] is the dot product of the context of [[s; t]], heads
    laid end to end, with column [j] of the weight, scaled and biased
    where scales and bias are given. *)
Theorem output_projects_then_reduces
    (context out_weight : Tensor T) (out_scales out_bias : option (Tensor T))
    (tp_degree : nat) (neuron_config : option NeuronConfig)
    (n_seqs n_active_tokens n_heads_tp d_head w0 hidden_size : nat)
    (Hc : sizes context = [n_seqs; n_active_tokens; n_heads_tp; d_head])
    (Hw : sizes out_weight = [w0; hidden_size]) :
  exists local out g,
    run (output context out_weight out_scales out_bias tp_degree neuron_config) [] =
      (inr out, g) /\
    ops_of g = [OpReshape; OpHlo "dot10_add1"; OpReshape; OpHlo "all_reduce_sum"] /\
    sizes out = [n_seqs; n_active_tokens; hidden_size] /\
    elem out =
      snd (ext_all_reduce_sum local tp_degree
             (fst (ext_parse_dtype_replica_groups neuron_config tp_degree))
             (snd (ext_parse_dtype_replica_groups neuron_config tp_degree))) /\
    dtype local = dtype context /\
    sizes local = [n_seqs; n_active_tokens; hidden_size] /\
    forall s t j,
      s < n_seqs -> t < n_active_tokens -> j < hidden_size ->
      elem local [s; t; j] =
      projection_entry (dtype context) (n_heads_tp * d_head)
        (fun c => elem context [s; t; c / d_head; c mod d_head])
        (fun c => elem out_weight [c; j])
        (entry_of out_scales j) (entry_of out_bias j).
Proof.
  destruct context as [dc sc ec], out_weight as [dw sw ew].
  cbn [sizes dtype elem] in *. subst sc sw.
  unfold run, output.
  destruct (ext_parse_dtype_replica_groups neuron_config tp_degree) as [dt rg].
  cbn -[Nat.mul Nat.div Nat.modulo unravel ravel dot10_add1_elem].
  eexists _, _, _. split; [reflexivity|]. split; [reflexivity|].
  cbn -[Nat.mul Nat.div Nat.modulo unravel ravel dot10_add1_elem].
  split; [reflexivity|]. split; [reflexivity|].
  split; [reflexivity|]. split; [reflexivity|].
  intros s t j Hs Ht Hj.
  cbn -[Nat.mul Nat.div Nat.modulo unravel ravel dot10_add1_elem].
  rewrite (unravel2_ravel3 _ _ _ s t j Hs Ht Hj).
  unfold dot10_add1_elem, projection_entry, dot_qk, entry_of.
  cbn -[Nat.mul Nat.div Nat.modulo unravel ravel].
  assert (E : forall a,
    fold_left
      (fun acc k =>
         eadd dc acc
           (emul dc
              (ec (unravel [n_seqs; n_active_tokens; n_heads_tp; d_head]
                     (ravel [n_seqs * n_active_tokens; n_heads_tp * d_head]
                        [s * n_active_tokens + t; k])))
              (ew [k; j])))
      (seq 0 (n_heads_tp * d_head)) a =
    fold_left
      (fun acc k =>
         eadd dc acc (emul dc (ec [s; t; k / d_head; k mod d_head]) (ew [k; j])))
      (seq 0 (n_heads_tp * d_head)) a).
  { intros a. apply fold_left_ext_in. intros acc k Hk. apply in_seq in Hk.
    rewrite unravel4_ravel2 by (assumption || lia). reflexivity. }
  rewrite E. destruct out_scales, out_bias; reflexivity.
Qed.

(** ** Scaling before the score, in exact arithmetic *)

Section FurtherExact.

Context `{EA : !ExactArith T}.

(** X26. In exact arithmetic, the score of the scaled query is the
    score of the query divided by [d_head ** 0.5]: scaling before the
    contraction and after it are the same. *)
Theorem score_of_scaled_query
    (query keys : Tensor T) (d_head : nat) (tp_degree : option nat)
    (n_kv_heads : nat) (neuron_config : option NeuronConfig)
    (q0 q1 q2 q3 k0 k1 k2 k3 : nat)
    (Hq : sizes query = [q0; q1; q2; q3])
    (Hk : sizes keys = [k0; k1; k2; k3])
    (Hkv : n_kv_heads <> 0 -> k2 <> 0) :
  exists s1 g1 s2 g2,
    run (q <- scale query d_head ;;
         score q keys tp_degree n_kv_heads neuron_config) [] = (inr s1, g1) /\
    run (score query keys tp_degree n_kv_heads neuron_config) [] = (inr s2, g2) /\
    sizes s1 = sizes s2 /\
    forall b h i j,
      elem s1 [b; h; i; j] =
      ediv (dtype query) (elem s2 [b; h; i; j])
           (econst (dtype query) (PySqrt d_head)).
Proof.
  destruct query as [dq sq eq_], keys as [dk sk ek]. cbn [sizes dtype] in *.
  subst sq sk.
  unfold run, scale, score.
  destruct (config_flags neuron_config) as [sob bsh].
  destruct n_kv_heads as [|n]; cbn [Nat.eqb negb].
  - destruct bsh; cbn; eexists _, _, _, _;
      (split; [reflexivity|]); (split; [reflexivity|]); (split; [reflexivity|]);
      intros b h i j; cbn;
      rewrite (add_indep dq), (mul_indep dq), (div_indep dq), (const_indep dq);
      match goal with
      | |- fold_left (fun acc k => eadd f32 acc (emul f32 (ediv f32 (@?e k) ?D) (@?v k)))
                     ?l _ = _ =>
        apply (fold_weighted_div_zero e v D l)
      end.
  - assert (Hk2 : k2 <> 0) by (apply Hkv; discriminate).
    destruct k2 as [|k2']; [contradiction|].
    destruct sob, bsh; cbn -[Nat.div Nat.mul]; eexists _, _, _, _;
      (split; [reflexivity|]); (split; [reflexivity|]); (split; [reflexivity|]);
      intros b h i j; cbn -[Nat.div Nat.mul];
      rewrite (add_indep dq), (mul_indep dq), (div_indep dq), (const_indep dq);
      match goal with
      | |- fold_left (fun acc k => eadd f32 acc (emul f32 (ediv f32 (@?e k) ?D) (@?v k)))
                     ?l _ = _ =>
        apply (fold_weighted_div_zero e v D l)
      end.
Qed.

End FurtherExact.
End Further.

(** * Concrete runs of the further properties *)

(** ** Cache updates *)

Lemma update_cache_disjoint_commute_witness :
  exists a b ga gb,
    run (c <- update_cache (constant_tensor f32 [4; 1; 1; 1] 0) (constant_ids [1] 1)
                           (constant_tensor f32 [1; 1; 1; 1] 7) ;;
         update_cache c (constant_ids [1] 2) (constant_tensor f32 [1; 1; 1; 1] 8)) [] =
      (inr a, ga) /\
    run (c <- update_cache (constant_tensor f32 [4; 1; 1; 1] 0) (constant_ids [1] 2)
                           (constant_tensor f32 [1; 1; 1; 1] 8) ;;
         update_cache c (constant_ids [1] 1) (constant_tensor f32 [1; 1; 1; 1] 7)) [] =
      (inr b, gb) /\
    sizes a = sizes b /\
    forall idx, elem a idx = elem b idx.
Proof.
  apply (update_cache_disjoint_commute
           (constant_tensor f32 [4; 1; 1; 1] 0)
           (constant_tensor f32 [1; 1; 1; 1] 7) (constant_tensor f32 [1; 1; 1; 1] 8)
           (constant_ids [1] 1) (constant_ids [1] 2)).
  - reflexivity.
  - reflexivity.
  - intros i j _ _. cbn. discriminate.
Defined.

Lemma update_cache_idempotent_witness :
  exists once twice g1 g2,
    run (update_cache (constant_tensor f32 [4; 1; 1; 1] 0) (constant_ids [1] 1)
                      (constant_tensor f32 [1; 1; 1; 1] 7)) [] = (inr once, g1) /\
    run (c <- update_cache (constant_tensor f32 [4; 1; 1; 1] 0) (constant_ids [1] 1)
                           (constant_tensor f32 [1; 1; 1; 1] 7) ;;
         update_cache c (constant_ids [1] 1) (constant_tensor f32 [1; 1; 1; 1] 7)) [] =
      (inr twice, g2) /\
    sizes twice = sizes once /\
    forall idx, elem twice idx = elem once idx.
Proof.
  apply (update_cache_idempotent
           (constant_tensor f32 [4; 1; 1; 1] 0) (constant_tensor f32 [1; 1; 1; 1] 7)
           (constant_ids [1] 1)).
  reflexivity.
Defined.

Lemma fused_kv_update_cache_inconsistent_ids_witness :
  exists msg,
    run (fused_kv_update_cache
           (constant_tensor f32 [4; 2; 1; 1] 0) (constant_tensor f32 [4; 2; 1; 1] 0)
           (constant_ids [1; 2] 3)
           (constant_tensor f32 [1; 2; 1; 1] 7) (constant_tensor f32 [1; 2; 1; 1] 8)
           None None) [] =
    (inl (AssertionError msg), [mkInstr (OpHlo "transpose") s32 [2; 1]]).
Proof.
  apply (fused_kv_update_cache_inconsistent_ids
           (constant_tensor f32 [4; 2; 1; 1] 0) (constant_tensor f32 [4; 2; 1; 1] 0)
           (constant_tensor f32 [1; 2; 1; 1] 7) (constant_tensor f32 [1; 2; 1; 1] 8)
           (constant_ids [1; 2] 3) None None 1 2 4 2 1 1 1 2 1 1);
    first [reflexivity | cbn; lia].
Defined.

Lemma fused_kv_update_cache_prefill_one_sequence_witness :
  exists g,
    run (fused_kv_update_cache
           (constant_tensor f32 [2; 3; 1; 1] 0) (constant_tensor f32 [2; 3; 1; 1] 0)
           (constant_ids [1; 2] 0)
           (constant_tensor f32 [2; 2; 1; 1] 7) (constant_tensor f32 [2; 2; 1; 1] 8)
           None None) [] =
    (inl (AssertionError "n_active_seqs is expected to be 1 for 2D cache_ids"), g) /\
    ~ emits_scatter g.
Proof.
  destruct (fused_kv_update_cache_prefill_one_sequence
              (constant_tensor f32 [2; 3; 1; 1] 0) (constant_tensor f32 [2; 3; 1; 1] 0)
              (constant_tensor f32 [2; 2; 1; 1] 7) (constant_tensor f32 [2; 2; 1; 1] 8)
              (constant_ids [1; 2] 0) None None 2 3 1 1 2 1 1 1)
    as (g & Hrun & _ & Hno); first [reflexivity | lia | idtac].
  exists g. split; assumption.
Defined.

Lemma fused_kv_update_cache_decode_witness :
  exists updated_keys updated_vals g,
    run (fused_kv_update_cache
           (constant_tensor f32 [4; 2; 1; 1] 0) (constant_tensor f32 [4; 2; 1; 1] 0)
           (constant_ids [2; 1] 3)
           (constant_tensor f32 [1; 2; 1; 1] 7) (constant_tensor f32 [1; 2; 1; 1] 8)
           None None) [] = (inr (updated_keys, updated_vals), g) /\
    sizes updated_keys = [8; 1] /\
    sizes updated_vals = [8; 1].
Proof.
  destruct (fused_kv_update_cache_decode
              (constant_tensor f32 [4; 2; 1; 1] 0) (constant_tensor f32 [4; 2; 1; 1] 0)
              (constant_tensor f32 [1; 2; 1; 1] 7) (constant_tensor f32 [1; 2; 1; 1] 8)
              (constant_ids [2; 1] 3) None None 4 2 1 1 1 1 2)
    as (uk & uv & g & ix & Hrun & _ & Sk & Sv & _); try reflexivity.
  exists uk, uv, g. repeat split; assumption.
Defined.

Lemma fused_kv_update_cache_prefill_witness :
  exists updated_keys updated_vals g,
    run (fused_kv_update_cache
           (constant_tensor f32 [2; 3; 1; 1] 0) (constant_tensor f32 [2; 3; 1; 1] 0)
           (constant_ids [1; 2] 0)
           (constant_tensor f32 [2; 1; 1; 1] 7) (constant_tensor f32 [2; 1; 1; 1] 8)
           None None) [] = (inr (updated_keys, updated_vals), g) /\
    sizes updated_keys = [6; 1] /\
    sizes updated_vals = [6; 1].
Proof.
  destruct (fused_kv_update_cache_prefill
              (constant_tensor f32 [2; 3; 1; 1] 0) (constant_tensor f32 [2; 3; 1; 1] 0)
              (constant_tensor f32 [2; 1; 1; 1] 7) (constant_tensor f32 [2; 1; 1; 1] 8)
              (constant_ids [1; 2] 0) None None 2 3 1 1 1 1 1)
    as (uk & uv & g & ix & Hrun & _ & Sk & Sv & _); first [reflexivity | lia | idtac].
  exists uk, uv, g. repeat split; assumption.
Defined.


(** ** Projections *)

Lemma query_key_value_rejects_hidden_rank_witness :
  exists msg,
    run (query_key_value (constant_tensor f32 [1; 2] 1)
           (column_weight [2; 4] 0) None None
           (Some (column_weight [2; 2] 0)) None None
           (Some (column_weight [2; 2] 0)) None None
           2 None None false None 0) [] = (inl (ValueError msg), []).
Proof.
  apply (query_key_value_rejects_hidden_rank (constant_tensor f32 [1; 2] 1)).
  cbn. lia.
Defined.

Lemma query_key_value_shard_over_head_witness :
  exists q k v g,
    run (query_key_value (constant_tensor f32 [1; 1; 2] 1)
           (column_weight [2; 4] 0) None None
           (Some (column_weight [2; 2] 0)) None None
           (Some (column_weight [2; 2] 0)) None None
           2 None None false None 0) [] = (inr (q, k, v), g) /\
    sizes q = [1; 1; 2; 2] /\
    sizes k = [1; 1; 1; 2] /\
    sizes v = [1; 1; 1; 2].
Proof.
  destruct (query_key_value_shard_over_head
              (constant_tensor f32 [1; 1; 2] 1)
              (column_weight [2; 4] 0) (column_weight [2; 2] 0) (column_weight [2; 2] 0)
              None None None None None None 2 None None None 0
              1 1 2 1 2 2 2)
    as (q & k & v & g & Hrun & _ & Sq & Sk & Sv & _);
    first [reflexivity | lia | idtac].
  exists q, k, v, g. repeat split; assumption.
Defined.

Lemma query_key_value_shard_over_batch_needs_n_head_witness :
  exists g,
    run (query_key_value (constant_tensor f32 [1; 1; 2] 1)
           (column_weight [2; 4] 0) None None
           (Some (column_weight [2; 2] 0)) None None
           (Some (column_weight [2; 2] 0)) None None
           2 None None true None 0) [] =
    (inl (AssertionError "invalid n_head (None)"), g).
Proof.
  destruct (query_key_value_shard_over_batch_needs_n_head
              (constant_tensor f32 [1; 1; 2] 1)
              (column_weight [2; 4] 0) (column_weight [2; 2] 0) (column_weight [2; 2] 0)
              None None None None None None 2 None None 0
              1 1 2 2 4 2 2)
    as (g & Hrun & _); first [reflexivity | lia | idtac].
  exists g. exact Hrun.
Defined.

Lemma query_key_value_shard_over_batch_witness :
  exists q k v g,
    run (query_key_value (constant_tensor f32 [2; 1; 2] 1)
           (column_weight [2; 4] 0) None None
           (Some (column_weight [2; 2] 0)) None None
           (Some (column_weight [2; 2] 0)) None None
           2 None None true (Some 4) 0) [] = (inr (q, k, v), g) /\
    sizes q = [1; 1; 4; 2] /\
    sizes k = [1; 1; 4; 2].
Proof.
  destruct (query_key_value_shard_over_batch
              (constant_tensor f32 [2; 1; 2] 1)
              (column_weight [2; 4] 0) (column_weight [2; 2] 0) (column_weight [2; 2] 0)
              None None None None None None 2 None None 4 0
              2 1 2 2 4 2 2)
    as (q & k & v & g & Hrun & _ & Sq & Sk & _);
    first [reflexivity | cbn; lia | idtac].
  exists q, k, v, g. repeat split; assumption.
Defined.

Lemma query_key_projection_rejects_key_rank_witness :
  exists msg,
    run (query_key_projection (constant_tensor f32 [1; 1; 1; 2] 1)
           (constant_tensor f32 [1; 2] 1) (constant_tensor f32 [1; 2; 2] 1)) [] =
    (inl (ValueError msg), []).
Proof.
  apply (query_key_projection_rejects_key_rank
           (constant_tensor f32 [1; 1; 1; 2] 1) (constant_tensor f32 [1; 2] 1)
           (constant_tensor f32 [1; 2; 2] 1)).
  cbn. lia.
Defined.

Lemma query_key_projection_shapes_witness :
  exists q k g,
    run (query_key_projection (constant_tensor f16 [5] 1)
           (constant_tensor f32 [1; 1; 1; 2] 1) (constant_tensor f32 [1; 2; 2] 1)) [] =
      (inr (q, k), g) /\
    dtype q = f32 /\ sizes q = [1; 1; 1; 2].
Proof.
  destruct (query_key_projection_shapes
              (constant_tensor f16 [5] 1)
              (constant_tensor f32 [1; 1; 1; 2] 1) (constant_tensor f32 [1; 2; 2] 1)
              1 1 1 2 eq_refl)
    as (q & k & Hrun & Dq & Sq & _).
  exists q, k. eexists. repeat split; [exact Hrun | exact Dq | exact Sq].
Defined.

Lemma query_key_projection_entries_witness :
  exists q k g,
    run (query_key_projection (constant_tensor f32 [1; 1; 1; 2] 3)
           (constant_tensor f32 [1; 1; 1; 2] 1) (constant_tensor f32 [1; 2; 2] 1)) [] =
      (inr (q, k), g) /\
    elem q [0; 0; 0; 1] =
      dot_qk f32 2 (fun _ => Some 3%R) (fun _ => Some 1%R).
Proof.
  destruct (query_key_projection_entries
              (constant_tensor f32 [1; 1; 1; 2] 3)
              (constant_tensor f32 [1; 1; 1; 2] 1) (constant_tensor f32 [1; 2; 2] 1)
              1 1 1 2 1 2 2 eq_refl eq_refl eq_refl)
    as (q & k & g & Hrun & He).
  exists q, k, g. split; [exact Hrun|].
  destruct (He 0 0 0 1) as [Hq _]; [lia | lia | lia | lia |]. exact Hq.
Defined.

Lemma output_rejects_ranks_witness :
  exists msg,
    run (output (constant_tensor f32 [1; 2] 1) (column_weight [2; 3] 0)
           None None 1 None) [] = (inl (ValueError msg), []).
Proof.
  apply (output_rejects_ranks (constant_tensor f32 [1; 2] 1) (column_weight [2; 3] 0)).
  left. cbn. lia.
Defined.

Lemma output_projects_then_reduces_witness :
  exists out g,
    run (output (constant_tensor f32 [1; 1; 1; 2] 1) (column_weight [2; 3] 0)
           None None 1 None) [] = (inr out, g) /\
    ops_of g = [OpReshape; OpHlo "dot10_add1"; OpReshape; OpHlo "all_reduce_sum"] /\
    sizes out = [1; 1; 3].
Proof.
  destruct (output_projects_then_reduces
              (constant_tensor f32 [1; 1; 1; 2] 1) (column_weight [2; 3] 0)
              None None 1 None 1 1 1 2 2 3 eq_refl eq_refl)
    as (local & out & g & Hrun & Hops & Hs & _).
  exists out, g. repeat split; assumption.
Defined.

(** ** Scores *)

Lemma score_shape_witness :
  exists out g,
    run (score (constant_tensor f16 [3; 1; 1; 2] 1)
               (constant_tensor f16 [4; 1; 1; 2] 5) None 0 None) [] = (inr out, g) /\
    sizes out = [1; 1; 3; 4].
Proof.
  destruct (score_shape
              (constant_tensor f16 [3; 1; 1; 2] 1) (constant_tensor f16 [4; 1; 1; 2] 5)
              None 0 None 1 1 3 4 1 2 2 eq_refl eq_refl)
    as (out & g & Hrun & _ & _ & Hs).
  - intros H. exfalso. apply H. reflexivity.
  - exists out, g. split; assumption.
Defined.

Lemma score_ignores_sharding_witness :
  run (score (constant_tensor f16 [3; 1; 2; 2] 1) (constant_tensor f16 [4; 1; 1; 2] 5)
             (Some 2) 1 shard_over_batch_config) [] =
  run (score (constant_tensor f16 [3; 1; 2; 2] 1) (constant_tensor f16 [4; 1; 1; 2] 5)
             None 1 None) [].
Proof.
  apply (score_ignores_sharding
           (constant_tensor f16 [3; 1; 2; 2] 1) (constant_tensor f16 [4; 1; 1; 2] 5)
           (Some 2) None 1 shard_over_batch_config None []).
  reflexivity.
Defined.

Lemma score_of_scaled_query_witness :
  exists s1 g1 s2 g2,
    run (q <- scale (constant_tensor f16 [3; 1; 1; 2] 1) 2 ;;
         score q (constant_tensor f16 [4; 1; 1; 2] 5) None 0 None) [] = (inr s1, g1) /\
    run (score (constant_tensor f16 [3; 1; 1; 2] 1)
               (constant_tensor f16 [4; 1; 1; 2] 5) None 0 None) [] = (inr s2, g2) /\
    elem s1 [0; 0; 0; 0] = XReal.xdiv (elem s2 [0; 0; 0; 0]) (Some (sqrt (INR 2))).
Proof.
  destruct (score_of_scaled_query
              (constant_tensor f16 [3; 1; 1; 2] 1) (constant_tensor f16 [4; 1; 1; 2] 5)
              2 None 0 None 3 1 1 2 4 1 1 2 eq_refl eq_refl)
    as (s1 & g1 & s2 & g2 & R1 & R2 & _ & He).
  - intros H. exfalso. apply H. reflexivity.
  - exists s1, g1, s2, g2. split; [exact R1|]. split; [exact R2|]. apply He.
Defined.

(** ** Context *)

Lemma context_rejects_unpaired_sparse_mask_witness :
  run (context (constant_tensor f32 [1; 1; 1; 2] 0) (constant_tensor f32 [1; 1; 1; 1] 0)
               (constant_tensor f32 [2; 1; 1; 1] 1) (constant_tensor f32 [1; 1; 1; 1] 1)
               0 None (Some second_excluded) None None None) [] =
  (inl (AssertionError "Both sparse masks must be valid to use sparse attention!"),
   []).
Proof.
  apply (context_rejects_unpaired_sparse_mask
           (constant_tensor f32 [1; 1; 1; 2] 0) (constant_tensor f32 [1; 1; 1; 1] 0)
           (constant_tensor f32 [2; 1; 1; 1] 1) (constant_tensor f32 [1; 1; 1; 1] 1)
           0 None (Some second_excluded) None None None).
  cbn. discriminate.
Defined.

Lemma context_ignores_sharding_witness :
  run (context (constant_tensor f32 [1; 1; 1; 2] 0) (constant_tensor f32 [1; 1; 1; 1] 0)
               (constant_tensor f32 [2; 1; 1; 1] 1) (constant_tensor f32 [1; 1; 1; 1] 1)
               1 None None None shard_over_batch_config (Some 2)) [] =
  run (context (constant_tensor f32 [1; 1; 1; 2] 0) (constant_tensor f32 [1; 1; 1; 1] 0)
               (constant_tensor f32 [2; 1; 1; 1] 1) (constant_tensor f32 [1; 1; 1; 1] 1)
               1 None None None None None) [].
Proof.
  apply (context_ignores_sharding
           (constant_tensor f32 [1; 1; 1; 2] 0) (constant_tensor f32 [1; 1; 1; 1] 0)
           (constant_tensor f32 [2; 1; 1; 1] 1) (constant_tensor f32 [1; 1; 1; 1] 1)
           1 None None None shard_over_batch_config None (Some 2) None []).
  reflexivity.
Defined.

Lemma context_shape_witness :
  exists out g,
    run (context (constant_tensor f32 [1; 1; 1; 2] 0) (constant_tensor f32 [1; 1; 1; 1] 0)
                 (constant_tensor bf16 [2; 1; 1; 1] 1) (constant_tensor bf16 [1; 1; 1; 1] 1)
                 0 (Some f16) None None None None) [] = (inr out, g) /\
    sizes out = [1; 1; 1; 1] /\
    dtype out = f16 /\
    ~ emits_helper "all_gather" g.
Proof.
  apply (context_shape
           (constant_tensor f32 [1; 1; 1; 2] 0) (constant_tensor f32 [1; 1; 1; 1] 0)
           (constant_tensor bf16 [2; 1; 1; 1] 1) (constant_tensor bf16 [1; 1; 1; 1] 1)
           0 (Some f16) None None None None 1 1 1 1 1 1 1 2 2 1 1 1);
    try reflexivity.
  intros H. exfalso. apply H. reflexivity.
Defined.

Lemma context_combined_shard_over_batch_witness :
  exists out g,
    run (context_combined (constant_tensor f32 [1; 2; 1; 3] 0)
                          (constant_tensor f32 [3; 1; 1; 1] 1)
                          (Some 2) 1 None None shard_over_batch_config) [] =
      (inr out, g) /\
    sizes out = [2; 1; 1; 1] /\
    emits_helper "all_gather" g.
Proof.
  destruct (context_combined_shard_over_batch
              (constant_tensor f32 [1; 2; 1; 3] 0) (constant_tensor f32 [3; 1; 1; 1] 1)
              2 1 None None shard_over_batch_config 1 2 1 3 3 1 1 1)
    as (out & g & Hrun & Hs & Hg & _); first [reflexivity | lia | idtac].
  exists out, g. repeat split; assumption.
Defined.

Lemma context_combined_needs_tp_degree_witness :
  exists msg g,
    run (context_combined (constant_tensor f32 [1; 2; 1; 3] 0)
                          (constant_tensor f32 [3; 1; 1; 1] 1)
                          None 1 None None shard_over_batch_config) [] =
      (inl (TypeError msg), g) /\
    ~ emits_helper "all_gather" g.
Proof.
  destruct (context_combined_needs_tp_degree
              (constant_tensor f32 [1; 2; 1; 3] 0) (constant_tensor f32 [3; 1; 1; 1] 1)
              1 None None shard_over_batch_config 1 2 1 3 3 1 1 1)
    as (msg & g & Hrun & _ & Hno); first [reflexivity | lia | idtac].
  exists msg, g. split; assumption.
Defined.

Lemma context_all_true_sparse_masks_witness :
  exists masked g plain g',
    run (context (constant_tensor f32 [1; 1; 1; 2] 0) (constant_tensor f32 [1; 1; 1; 1] 0)
                 (constant_tensor f32 [2; 1; 1; 1] 1) (constant_tensor f32 [1; 1; 1; 1] 1)
                 0 None (Some all_included) (Some all_included) None None) [] =
      (inr masked, g) /\
    run (context (constant_tensor f32 [1; 1; 1; 2] 0) (constant_tensor f32 [1; 1; 1; 1] 0)
                 (constant_tensor f32 [2; 1; 1; 1] 1) (constant_tensor f32 [1; 1; 1; 1] 1)
                 0 None None None None None) [] = (inr plain, g') /\
    elem masked [0; 0; 0; 0] = elem plain [0; 0; 0; 0].
Proof.
  destruct (context_all_true_sparse_masks
              (constant_tensor f32 [1; 1; 1; 2] 0) (constant_tensor f32 [1; 1; 1; 1] 0)
              (constant_tensor f32 [2; 1; 1; 1] 1) (constant_tensor f32 [1; 1; 1; 1] 1)
              0 None all_included all_included None None
              1 1 1 1 1 1 1 2 2 1 1 1 eq_refl eq_refl eq_refl)
    as (m & g & p & g' & R1 & R2 & _ & _ & He).
  - intros H. exfalso. apply H. reflexivity.
  - intros idx. reflexivity.
  - intros idx. reflexivity.
  - exists m, g, p, g'. split; [exact R1|]. split; [exact R2|]. apply He.
Defined.

Lemma context_combined_all_true_sparse_mask_witness :
  exists masked g plain g',
    run (context_combined (constant_tensor f32 [1; 1; 1; 3] 0)
                          (constant_tensor f32 [3; 1; 1; 1] 1)
                          None 0 None (Some all_included) None) [] = (inr masked, g) /\
    run (context_combined (constant_tensor f32 [1; 1; 1; 3] 0)
                          (constant_tensor f32 [3; 1; 1; 1] 1)
                          None 0 None None None) [] = (inr plain, g') /\
    elem masked [0; 0; 0; 0] = elem plain [0; 0; 0; 0].
Proof.
  destruct (context_combined_all_true_sparse_mask
              (constant_tensor f32 [1; 1; 1; 3] 0) (constant_tensor f32 [3; 1; 1; 1] 1)
              None 0 None all_included None
              1 1 1 3 3 1 1 1 eq_refl eq_refl)
    as (m & g & p & g' & R1 & R2 & _ & _ & He).
  - intros H. exfalso. apply H. reflexivity.
  - intros H. exfalso. apply H. reflexivity.
  - intros idx. reflexivity.
  - exists m, g, p, g'. split; [exact R1|]. split; [exact R2|]. apply He.
Defined.
